(** * CorrELF calibration scripts: pattern aggregation, metrics, weights, thresholds

    A shallow embedding of the evaluation scripts under [data/evaluation]
    and the properties their pattern histogram is meant to have.

    Conventions of the embedding
    - Python [int] and the [int64] accumulators are [Z].  The [int8] casts of
      the label and flag columns are written out ([Np.int8]).
    - Python [float] values that only go through [+], [*], [/] and comparisons
      are exact rationals [Q]; a column that may hold NaN or an infinity is an
      [npfloat].  Rounding of binary floating point is written out ([Fl.f64],
      [Fl.f32]) where a script's outcome depends on it: the [float32] casts
      of the binarizer and of the threshold scan, and the doubles that
      [np.argmax] compares; elsewhere a rate stands for the double nearest to
      it.
    - A raised exception is the [Raise] case of [result].
    - The output directory of the binarizer is a list of named files; a
      write to a name that exists replaces the file.
    - Library calls stay parameters, except for what they check before they
      compute: the class check of [LogisticRegression.fit] is written out.
    - Each script is a [Module] named after its file. *)

From Stdlib Require Import String.
From Stdlib Require Import ZArith QArith Qabs Qround Qpower List Sorted Bool Lia Lqa.
From Stdlib Require OrderedTypeEx.
Import ListNotations.

Open Scope Z_scope.

(** ** Exceptions *)

Inductive exn : Type :=
| ValueError
| RuntimeError
| ZeroDivisionError
| IndexError.

Inductive result (A : Type) : Type :=
| Ok (a : A)
| Raise (e : exn).

Arguments Ok {A} a.
Arguments Raise {A} e.

Definition bind {A B : Type} (m : result A) (k : A -> result B) : result B :=
  match m with
  | Ok a => k a
  | Raise e => Raise e
  end.

Notation "x <- m ;; k" := (bind m (fun x => k))
  (at level 61, m at next level, right associativity).
Notation "' p <- m ;; k" := (bind m (fun x => let p := x in k))
  (at level 61, p pattern, m at next level, right associativity).

(** ** Column values *)

(** A cell of an integer column read through [to_numpy]: [None] is a null,
    which numpy shows as NaN and [np.isfinite] rejects. *)
Definition cell : Type := option Z.

(** A float that may be NaN or infinite. *)
Inductive npfloat : Type :=
| Fin (q : Q)
| PosInf
| NegInf
| NaN.

(** ** Binary floating point *)

Module Fl.

(** The integer nearest to [q], ties to the even one. *)
Definition rne (q : Q) : Z :=
  let fl := Qfloor q in
  match (q - inject_Z fl ?= 1 # 2)%Q with
  | Lt => fl
  | Gt => fl + 1
  | Eq => if Z.even fl then fl else fl + 1
  end.

(** The exponent [e] of the last place of [a > 0] at [prec] significant
    bits: [2 ^ (prec - 1) <= a / 2 ^ e < 2 ^ prec], and not below [emin],
    where the subnormal numbers begin. *)
Definition ulp_exponent (prec emin : Z) (a : Q) : Z :=
  let e0 := Z.log2 (Qnum a) - Z.log2 (Z.pos (Qden a)) - prec in
  let e1 := if Qle_bool (2 ^ prec) (a / 2 ^ e0) then e0 + 1 else e0 in
  Z.max emin e1.

(** The binary floating-point number with [prec] significant bits nearest to
    [x], ties to even, as IEEE 754 rounds the exact result of an operation;
    overflow is left to the caller. *)
Definition rnd (prec emin : Z) (x : Q) : Q :=
  if Qeq_bool x 0 then 0%Q
  else
    let a := Qabs x in
    let e := ulp_exponent prec emin a in
    (inject_Z (Z.sgn (Qnum x) * rne (a / 2 ^ e)) * 2 ^ e)%Q.

(** A Python [float] or [np.float64], and an [np.float32], below the
    overflow threshold. *)
Definition f64 (x : Q) : Q := rnd 53 (-1074) x.
Definition f32 (x : Q) : Q := rnd 24 (-149) x.

(** [astype(np.float32)] on a finite value: infinite from [2 ^ 128] on. *)
Definition cast32 (x : Q) : npfloat :=
  let r := f32 x in
  if Qle_bool (2 ^ 128) (Qabs r) then if Qle_bool 0 r then PosInf else NegInf
  else Fin r.

(** [a / b] on two Python ints: the double nearest to the quotient. *)
Definition div64 (a b : Z) : Q := f64 (inject_Z a / inject_Z b).

(** [x - y], [x + y] and [x * y] on two doubles. *)
Definition sub64 (x y : Q) : Q := f64 (x - y).
Definition add64 (x y : Q) : Q := f64 (x + y).
Definition mul64 (x y : Q) : Q := f64 (x * y).

End Fl.

Module Np.

(** [astype(np.int8)] on an integer: two's complement wrap-around. *)
Definition int8 (z : Z) : Z := (z + 128) mod 256 - 128.

Definition isfinite_cell (c : cell) : bool :=
  match c with Some _ => true | None => false end.

Definition isfinite (v : npfloat) : bool :=
  match v with Fin _ => true | _ => false end.

Definition isnan (v : npfloat) : bool :=
  match v with NaN => true | _ => false end.

Definition isinf (v : npfloat) : bool :=
  match v with PosInf | NegInf => true | _ => false end.

(** [astype(np.float32)] on a float column. *)
Definition float32 (v : npfloat) : npfloat :=
  match v with
  | Fin q => Fl.cast32 q
  | _ => v
  end.

(** [v >= w] on two floats: false on NaN, as IEEE comparisons are. *)
Definition gef (v w : npfloat) : bool :=
  match v, w with
  | NaN, _ | _, NaN => false
  | _, NegInf => true
  | PosInf, _ => true
  | NegInf, _ => false
  | Fin _, PosInf => false
  | Fin a, Fin b => Qle_bool b a
  end.

(** Largest element, [-1] for the empty array. *)
Definition amax (xs : list Z) : Z := fold_right Z.max (-1) xs.

Definition count_of (v : Z) (xs : list Z) : Z :=
  Z.of_nat (length (filter (Z.eqb v) xs)).

(** [np.bincount(xs, minlength=m)]: [ValueError] on a negative entry;
    otherwise one slot for each value in [0 .. max(m, max xs + 1)). *)
Definition bincount (xs : list Z) (minlength : nat) : result (list Z) :=
  if existsb (fun x => x <? 0) xs then Raise ValueError
  else
    let n := Nat.max minlength (Z.to_nat (amax xs + 1)) in
    Ok (map (fun i => count_of (Z.of_nat i) xs) (seq 0 n)).

(** [np.argmax]: index of the first maximum, [ValueError] on an empty
    array. *)
Fixpoint argmax_from (i best_i : nat) (best : Q) (xs : list Q) : nat :=
  match xs with
  | [] => best_i
  | x :: xs' =>
      if Qle_bool x best then argmax_from (S i) best_i best xs'
      else argmax_from (S i) i x xs'
  end.

Definition argmax (xs : list Q) : result nat :=
  match xs with
  | [] => Raise ValueError
  | x :: xs' => Ok (argmax_from 1 0 x xs')
  end.

(** [np.argmin]: index of the first minimum. *)
Fixpoint argmin_from (i best_i : nat) (best : Q) (xs : list Q) : nat :=
  match xs with
  | [] => best_i
  | x :: xs' =>
      if Qle_bool best x then argmin_from (S i) best_i best xs'
      else argmin_from (S i) i x xs'
  end.

Definition argmin (xs : list Q) : result nat :=
  match xs with
  | [] => Raise ValueError
  | x :: xs' => Ok (argmin_from 1 0 x xs')
  end.

End Np.

(** ** The 8x2 histogram *)

(** Row [p] holds [(counts[p,0], counts[p,1])]. *)
Definition hist : Type := list (Z * Z).

(** [np.zeros((8, 2), dtype=np.int64)] *)
Definition zeros_8_2 : hist := repeat (0, 0) 8.

(** [counts[:len(h), lbl] += h] on rows: the slice has [min (len counts)
    (len h)] rows, and adding a longer [h] to it does not broadcast. *)
Fixpoint add_col (lbl : Z) (counts : hist) (h : list Z) : hist :=
  match counts, h with
  | (c0, c1) :: cs, x :: hs =>
      (if lbl =? 0 then (c0 + x, c1) else (c0, c1 + x)) :: add_col lbl cs hs
  | cs, _ => cs
  end.

Definition add_column (counts : hist) (lbl : Z) (h : list Z) : result hist :=
  if (length h <=? length counts)%nat then Ok (add_col lbl counts h)
  else Raise ValueError.

(** The loop [for lbl in (0, 1)] shared by both aggregators: [y] and [pat]
    are the label and pattern arrays of the rows that passed the mask. *)
Definition select (lbl : Z) (y pat : list Z) : list Z :=
  map snd (filter (fun yp => fst yp =? lbl) (combine y pat)).

Definition count_label (counts : hist) (lbl : Z) (y pat : list Z) : result hist :=
  match select lbl y pat with
  | [] => Ok counts
  | sel => h <- Np.bincount sel 8 ;; add_column counts lbl h
  end.

Definition count_labels (counts : hist) (y pat : list Z) : result hist :=
  c <- count_label counts 0 y pat ;;
  count_label c 1 y pat.

(** [((ph << 2) | (cr << 1) | sm).astype(np.int8)] on [int8] operands. *)
Definition encode_pattern (sm cr ph : Z) : Z :=
  Np.int8 (Z.lor (Z.lor (Np.int8 (Z.shiftl ph 2)) (Np.int8 (Z.shiftl cr 1))) sm).

(** A row of the binarized Parquet dataset. *)
Record bin_row : Type := {
  src_family : string;
  label_same_family : cell;
  bin_string_minhash : cell;
  bin_code_regions : cell;
  bin_program_header : cell
}.

Definition batch : Type := list bin_row.

Definition finite_row (r : bin_row) : bool :=
  Np.isfinite_cell (label_same_family r) && Np.isfinite_cell (bin_string_minhash r)
  && Np.isfinite_cell (bin_code_regions r) && Np.isfinite_cell (bin_program_header r).

Definition cell_int8 (c : cell) : Z :=
  match c with Some z => Np.int8 z | None => 0 end.

Definition row_label (r : bin_row) : Z := cell_int8 (label_same_family r).

Definition row_pattern (r : bin_row) : Z :=
  encode_pattern (cell_int8 (bin_string_minhash r))
                 (cell_int8 (bin_code_regions r))
                 (cell_int8 (bin_program_header r)).

Definition isin (s : string) (l : list string) : bool :=
  existsb (String.eqb s) l.

(** ** Python helpers *)

(** [int / int]: true division, [ZeroDivisionError] on a zero divisor. *)
Definition truediv (a b : Z) : result Q :=
  if b =? 0 then Raise ZeroDivisionError
  else Ok (inject_Z a / inject_Z b)%Q.

(** [sorted(set(xs))] on floats: the distinct values in ascending order. *)
Fixpoint insert_sorted (x : Q) (l : list Q) : list Q :=
  match l with
  | [] => [x]
  | y :: l' =>
      match (x ?= y)%Q with
      | Lt => x :: y :: l'
      | Eq => y :: l'
      | Gt => y :: insert_sorted x l'
      end
  end.

Definition sorted_set (xs : list Q) : list Q :=
  fold_right insert_sorted [] xs.

Definition zsum (xs : list Z) : Z := fold_right Z.add 0 xs.

Definition qsum (xs : list Q) : Q := fold_right Qplus 0%Q xs.

(** [xs[mask].sum()] with a boolean mask: [IndexError] unless the mask has
    the length of [xs]. *)
Fixpoint masked (mask : list bool) (xs : list Z) : list Z :=
  match mask, xs with
  | m :: ms, x :: xs' => if m then x :: masked ms xs' else masked ms xs'
  | _, _ => []
  end.

Definition masked_sum (mask : list bool) (xs : list Z) : result Z :=
  if (length mask =? length xs)%nat then Ok (zsum (masked mask xs))
  else Raise IndexError.

(** [np.unique] on strings: sorted, without repetitions. *)
Fixpoint insert_unique (s : string) (l : list string) : list string :=
  match l with
  | [] => [s]
  | t :: l' =>
      match String.compare s t with
      | Lt => s :: t :: l'
      | Eq => t :: l'
      | Gt => t :: insert_unique s l'
      end
  end.

Definition np_unique (l : list string) : list string :=
  fold_right insert_unique [] l.

(** [np.clip(coef, 0.0, None)] *)
Definition clip0 (coef : list Q) : list Q :=
  map (fun c => if Qle_bool 0 c then c else 0%Q) coef.


(** ** weight/find_weights.py *)

Module FindWeights.

(** Python truthiness of [families]: [None] and [[]] both mean no filter. *)
Definition mask (families : list string) (r : bin_row) : bool :=
  finite_row r &&
  match families with
  | [] => true
  | _ => isin (src_family r) families
  end.

Record agg_state : Type := {
  counts : hist;
  total_seen : Z;
  total_kept : Z
}.

Definition init : agg_state :=
  {| counts := zeros_8_2; total_seen := 0; total_kept := 0 |}.

(** Body of [for b in scanner.to_batches()]. *)
Definition step (families : list string) (st : agg_state) (b : batch)
  : result agg_state :=
  let seen := total_seen st + Z.of_nat (length b) in
  let kept := filter (mask families) b in
  match kept with
  | [] => Ok {| counts := counts st; total_seen := seen; total_kept := total_kept st |}
  | _ =>
      c <- count_labels (counts st) (map row_label kept) (map row_pattern kept) ;;
      Ok {| counts := c; total_seen := seen;
            total_kept := total_kept st + Z.of_nat (length kept) |}
  end.

Fixpoint scan (families : list string) (st : agg_state) (bs : list batch)
  : result agg_state :=
  match bs with
  | [] => Ok st
  | b :: bs' => st' <- step families st b ;; scan families st' bs'
  end.

Definition aggregate_counts (families : list string) (bs : list batch)
  : result (hist * Z * Z) :=
  st <- scan families init bs ;;
  Ok (counts st, total_seen st, total_kept st).

(** [_bits_from_pattern]: the bits of a pattern in the column order of
    [FEATURES], program header first. *)
Definition _bits_from_pattern (p : Z) : list Z :=
  let b0 := Z.land (Z.shiftr p 0) 1 in
  let b1 := Z.land (Z.shiftr p 1) 1 in
  let b2 := Z.land (Z.shiftr p 2) 1 in
  [b2; b1; b0].

(** The weight learner. *)

(** [[(p >> 2) & 1, (p >> 1) & 1, (p >> 0) & 1]] *)
Definition bits (p : Z) : list Z :=
  [Z.land (Z.shiftr p 2) 1; Z.land (Z.shiftr p 1) 1; Z.land (Z.shiftr p 0) 1].

(** [counts[p, 0], counts[p, 1]] *)
Definition getrow (counts : hist) (p : nat) : result (Z * Z) :=
  match nth_error counts p with
  | Some r => Ok r
  | None => Raise IndexError
  end.

(** The three parallel lists [X_rows], [y_rows], [w_rows]. *)
Record design : Type := {
  X : list (list Z);
  y : list Z;
  w : list Z
}.

Definition append_row (d : design) (b : list Z) (lbl c : Z) : design :=
  {| X := X d ++ [b]; y := y d ++ [lbl]; w := w d ++ [c] |}.

(** Body of [for p in range(8)]. *)
Definition design_step (counts : hist) (d : design) (p : nat) : result design :=
  '(c0, c1) <- getrow counts p ;;
  let d0 := if 0 <? c0 then append_row d (bits (Z.of_nat p)) 0 c0 else d in
  let d1 := if 0 <? c1 then append_row d0 (bits (Z.of_nat p)) 1 c1 else d0 in
  Ok d1.

Fixpoint design_loop (counts : hist) (d : design) (ps : list nat) : result design :=
  match ps with
  | [] => Ok d
  | p :: ps' => d' <- design_step counts d p ;; design_loop counts d' ps'
  end.

Definition build_weighted_design (counts : hist) : result design :=
  d <- design_loop counts {| X := []; y := []; w := [] |} (seq 0 8) ;;
  match X d with
  | [] => Raise RuntimeError
  | _ => Ok d
  end.

(** [int(np.count_nonzero(counts.sum(axis=1)))] of [main]. *)
Definition unique_patterns_present (counts : hist) : Z :=
  Z.of_nat (length (filter (fun r => negb (fst r + snd r =? 0)) counts)).

(** [float((y_small[w_small>0] == 1).mean()) if len(y_small) else 0.0] of
    [main]; the mean of an empty selection is NaN. *)
Definition positive_rate (d : design) : result npfloat :=
  match y d with
  | [] => Ok (Fin 0%Q)
  | _ =>
      if (length (w d) =? length (y d))%nat then
        let sel := masked (map (fun c => 0 <? c) (w d)) (y d) in
        match sel with
        | [] => Ok NaN
        | _ =>
            Ok (Fin (inject_Z (Z.of_nat (length (filter (fun l => l =? 1) sel)))
                     / inject_Z (Z.of_nat (length sel)))%Q)
        end
      else Raise IndexError
  end.

(** Lines 124-130: clip, then renormalize or fall back to uniform. *)
Definition weights_of_coef (coef : list Q) : list Q :=
  let coef := clip0 coef in
  let s := qsum coef in
  if Qle_bool s 0 then map (fun _ => (1 / inject_Z (Z.of_nat (length coef)))%Q) coef
  else map (fun c => (c / s)%Q) coef.

(** [len(np.unique(y))], the number of classes [LogisticRegression.fit]
    finds among the labels. *)
Definition n_classes (ys : list Z) : nat := length (nodup Z.eq_dec ys).

Section Fit.

(** The L-BFGS optimisation inside [LogisticRegression(...).fit], read back
    as [(clf.coef_[0], clf.n_iter_)].  The library is outside the
    repository: the optimiser stays a parameter, taken with [max_iter], [C]
    and [random_state], and like any call it may raise. *)
Variable lbfgs_fit : Z -> Q -> Z -> design -> result (list Q * Z).

(** [clf.fit(X, y, sample_weight=w)].  Before it optimises, scikit-learn
    takes the classes of [y] and raises [ValueError] (this solver needs
    samples of at least 2 classes) when there are fewer than two. *)
Definition clf_fit (max_iter : Z) (C : Q) (random_state : Z) (d : design)
  : result (list Q * Z) :=
  if (n_classes (y d) <? 2)%nat then Raise ValueError
  else lbfgs_fit max_iter C random_state d.

Definition fit_weights_aggregated (d : design) (max_iter : Z) (C : Q) (random_state : Z)
  : result (list Q * Z) :=
  '(coef, n_iter) <- clf_fit max_iter C random_state d ;;
  Ok (weights_of_coef coef, n_iter).

(** [main]: from the histogram to the weight list of the model file. *)
Definition fit_weights (counts : hist) (max_iter : Z) (C : Q) (random_state : Z)
  : result (list Q) :=
  d <- build_weighted_design counts ;;
  '(weights, extras) <- fit_weights_aggregated d max_iter C random_state ;;
  Ok weights.

End Fit.

End FindWeights.

(** ** test/evaluate.py *)

Module Evaluate.

Definition W_SM : Q := 0.6170%Q.
Definition W_CR : Q := 0.2946%Q.
Definition W_PH : Q := 0.0884%Q.

Definition SCORES_BY_PATTERN : list Q :=
  [ 0%Q;
    W_SM;
    W_CR;
    (W_SM + W_CR)%Q;
    W_PH;
    (W_SM + W_PH)%Q;
    (W_CR + W_PH)%Q;
    (W_SM + W_CR + W_PH)%Q ].

(** [if family] on [args.family]: [None] and the empty string are falsy. *)
Definition truthy (family : option string) : bool :=
  match family with
  | Some EmptyString => false
  | Some _ => true
  | None => false
  end.

(** The scanner's [filter=(ds.field(PARTITION_COL) == family)]. *)
Definition scanner_filter (family : option string) (b : batch) : batch :=
  match family with
  | Some f => if truthy family then filter (fun r => String.eqb (src_family r) f) b else b
  | None => b
  end.

Record agg_state : Type := {
  counts_global : hist;
  counts_by_family : list (string * hist);
  n_pos : Z;
  n_neg : Z
}.

Definition init : agg_state :=
  {| counts_global := zeros_8_2; counts_by_family := []; n_pos := 0; n_neg := 0 |}.

(** [counts_by_family.get(f)] *)
Fixpoint dict_get (d : list (string * hist)) (f : string) : option hist :=
  match d with
  | [] => None
  | (k, v) :: d' => if String.eqb k f then Some v else dict_get d' f
  end.

(** [counts_by_family[f] = arr]; a new key goes last, as in a Python dict. *)
Fixpoint dict_set (d : list (string * hist)) (f : string) (arr : hist)
  : list (string * hist) :=
  match d with
  | [] => [(f, arr)]
  | (k, v) :: d' =>
      if String.eqb k f then (k, arr) :: d' else (k, v) :: dict_set d' f arr
  end.

(** Body of [for idx, f in enumerate(ufam)]. *)
Definition count_family (kept : batch) (d : list (string * hist)) (f : string)
  : result (list (string * hist)) :=
  let rows := filter (fun r => String.eqb (src_family r) f) kept in
  match rows with
  | [] => Ok d
  | _ =>
      let arr := match dict_get d f with Some a => a | None => zeros_8_2 end in
      arr' <- count_labels arr (map row_label rows) (map row_pattern rows) ;;
      Ok (dict_set d f arr')
  end.

Fixpoint count_families (kept : batch) (d : list (string * hist)) (fs : list string)
  : result (list (string * hist)) :=
  match fs with
  | [] => Ok d
  | f :: fs' => d' <- count_family kept d f ;; count_families kept d' fs'
  end.

(** Body of [for b in scanner.to_batches()]. *)
Definition step (by_family : bool) (st : agg_state) (b : batch) : result agg_state :=
  let kept := filter finite_row b in
  match kept with
  | [] => Ok st
  | _ =>
      let y := map row_label kept in
      let pat := map row_pattern kept in
      c <- count_labels (counts_global st) y pat ;;
      d <- (if by_family
            then count_families kept (counts_by_family st)
                                (np_unique (map src_family kept))
            else Ok (counts_by_family st)) ;;
      Ok {| counts_global := c;
            counts_by_family := d;
            n_pos := n_pos st + Z.of_nat (length (filter (Z.eqb 1) y));
            n_neg := n_neg st + Z.of_nat (length (filter (Z.eqb 0) y)) |}
  end.

Fixpoint scan (by_family : bool) (st : agg_state) (bs : list batch)
  : result agg_state :=
  match bs with
  | [] => Ok st
  | b :: bs' => st' <- step by_family st b ;; scan by_family st' bs'
  end.

Definition aggregate_counts (family : option string) (by_family : bool)
  (bs : list batch) : result (hist * list (string * hist) * (Z * Z)) :=
  st <- scan by_family init (map (scanner_filter family) bs) ;;
  Ok (counts_global st, counts_by_family st, (n_pos st, n_neg st)).

(** One dict of [rows]. *)
Record metrics_row : Type := {
  threshold : Q;
  tp : Z; fp : Z; tn : Z; fn : Z;
  tpr : Q; fpr : Q; precision : Q;
  specificity : Q; accuracy : Q; f1 : Q; youdenJ : Q;
  sample_pos : Z; sample_neg : Z
}.

(** Body of [for thr in thresholds], over the score table [s]. *)
Definition eval_threshold (s : list Q) (counts : hist) (thr : Q) : result metrics_row :=
  let pos_counts := map snd counts in
  let neg_counts := map fst counts in
  let total_pos := zsum pos_counts in
  let total_neg := zsum neg_counts in
  let mask := map (fun sc => Qle_bool thr sc) s in
  tp <- masked_sum mask pos_counts ;;
  fp <- masked_sum mask neg_counts ;;
  let fn := total_pos - tp in
  let tn := total_neg - fp in
  tpr <- (if total_pos =? 0 then Ok 0%Q else truediv tp total_pos) ;;
  fpr <- (if total_neg =? 0 then Ok 0%Q else truediv fp total_neg) ;;
  prec <- (if tp + fp =? 0 then Ok 0%Q else truediv tp (tp + fp)) ;;
  spec <- (if total_neg =? 0 then Ok 0%Q else truediv tn total_neg) ;;
  acc <- (if total_pos + total_neg =? 0 then Ok 0%Q
          else truediv (tp + tn) (total_pos + total_neg)) ;;
  f1 <- (if 2 * tp + fp + fn =? 0 then Ok 0%Q
         else truediv (2 * tp) (2 * tp + fp + fn)) ;;
  let j := (tpr - fpr)%Q in
  Ok {| threshold := thr;
        tp := tp; fp := fp; tn := tn; fn := fn;
        tpr := tpr; fpr := fpr; precision := prec;
        specificity := spec; accuracy := acc; f1 := f1; youdenJ := j;
        sample_pos := total_pos; sample_neg := total_neg |}.

Fixpoint eval_thresholds_with (s : list Q) (counts : hist) (thresholds : list Q)
  : result (list metrics_row) :=
  match thresholds with
  | [] => Ok []
  | thr :: rest =>
      r <- eval_threshold s counts thr ;;
      rs <- eval_thresholds_with s counts rest ;;
      Ok (r :: rs)
  end.

Definition eval_thresholds_from_counts (counts : hist) (thresholds : list Q)
  : result (list metrics_row) :=
  eval_thresholds_with SCORES_BY_PATTERN counts thresholds.

Definition auto_thresholds : list Q := sorted_set SCORES_BY_PATTERN.

(** The threshold list of [main]: the discrete levels, and with a non-empty
    [--threshold] list the sorted union with it. *)
Definition main_thresholds (threshold_arg : list Q) : list Q :=
  match threshold_arg with
  | [] => auto_thresholds
  | _ => sorted_set (auto_thresholds ++ threshold_arg)
  end.

(** [a / b if b else 0.0] on two Python ints, as the double it is. *)
Definition rate64 (a b : Z) : Q := if b =? 0 then 0%Q else Fl.div64 a b.

(** The double that [r["youdenJ"]] holds: [tpr] and [fpr] are quotients of
    Python ints, each rounded once, and [j = tpr - fpr] rounds again.  Two
    rows whose J are equal as rationals can differ here. *)
Definition youdenJ64 (r : metrics_row) : Q :=
  Fl.sub64 (rate64 (tp r) (sample_pos r)) (rate64 (fp r) (sample_neg r)).

(** The row [main] reports as best Youden J; [None] when there is no row.
    [np.argmax] compares the doubles. *)
Definition main_best (counts_global : hist) (threshold_arg : list Q)
  : result (option metrics_row) :=
  rows_global <- eval_thresholds_from_counts counts_global (main_thresholds threshold_arg) ;;
  match rows_global with
  | [] => Ok None
  | _ =>
      best_idx <- Np.argmax (map youdenJ64 rows_global) ;;
      Ok (nth_error rows_global best_idx)
  end.

(** [main]: the rows of the per-family CSV, each with its [src_family]; the
    dict is walked in insertion order, and an empty dict gives no row. *)
Fixpoint main_family_rows (counts_by_family : list (string * hist)) (thrs : list Q)
  : result (list (string * metrics_row)) :=
  match counts_by_family with
  | [] => Ok []
  | (fam, cnt) :: rest =>
      fam_rows <- eval_thresholds_from_counts cnt thrs ;;
      rows <- main_family_rows rest thrs ;;
      Ok (map (fun r => (fam, r)) fam_rows ++ rows)
  end.

End Evaluate.


(** ** weight_and_threshold/weight_finding/train_weights.py *)

Module TrainWeights.

(** [fillna(0.0).clip(0.0, 1.0)] on one feature value of [load_frames];
    an absent key has already become NaN. *)
Definition fill_clip (v : npfloat) : Q :=
  match v with
  | NaN => 0%Q
  | PosInf => 1%Q
  | NegInf => 0%Q
  | Fin q => if Qle_bool q 0 then 0%Q else if Qle_bool 1 q then 1%Q else q
  end.

(** One entry of a result file: the two file names and the five values of
    [comparisonDetails], in the order of [ALL_FEATURES]; an absent key, and a
    value [pd.to_numeric(errors="coerce")] cannot read, is NaN. *)
Record comparison : Type := {
  secondFileName : string;
  fileName : string;
  comparisonDetails : npfloat * npfloat * npfloat * npfloat * npfloat
}.

(** One row of the data frame: anchor, candidate and the five features. *)
Record frame_row : Type := {
  anchor : string;
  candidate : string;
  PROGRAM_HEADER_VECTOR : Q;
  CODE_REGION_LIST : Q;
  STRING_MINHASH : Q;
  ELF_HEADER_VECTOR : Q;
  SECTION_SIZE_VECTOR : Q
}.

(** [load_frames]: the files in sorted order, [None] for a file that
    [json.load] cannot read, which is skipped.  Every entry of every other
    file becomes a row. *)
Definition load_frames (json_files : list (option (list comparison))) : list frame_row :=
  map (fun d =>
         let '(ph, cr, sm, eh, ss) := comparisonDetails d in
         {| anchor := secondFileName d;
            candidate := fileName d;
            PROGRAM_HEADER_VECTOR := fill_clip ph;
            CODE_REGION_LIST := fill_clip cr;
            STRING_MINHASH := fill_clip sm;
            ELF_HEADER_VECTOR := fill_clip eh;
            SECTION_SIZE_VECTOR := fill_clip ss |})
      (flat_map (fun f => match f with Some data => data | None => [] end) json_files).

(** Lines 72-73 of [fit_weights_and_threshold]. *)
Definition weights_of_coef (coef : list Q) : list Q :=
  let coef := clip0 coef in
  if negb (Qle_bool (qsum coef) 0)
  then map (fun c => (c / qsum coef)%Q) coef
  else map (fun _ => (1 / inject_Z (Z.of_nat (length coef)))%Q) coef.

(** [np.clip(s, 0.0, 1.0)] on a finite score. *)
Definition clip01 (q : Q) : Q :=
  if Qle_bool q 0 then 0%Q else if Qle_bool 1 q then 1%Q else q.

(** [np.linspace(0, 1, grid)]: [grid] evenly spaced points, a single 0 when
    [grid] is 1. *)
Definition linspace01 (grid : nat) : list Q :=
  map (fun i => (inject_Z (Z.of_nat i) / inject_Z (Z.of_nat grid - 1))%Q) (seq 0 grid).

(** [(s >= t).astype(int)] *)
Definition predict (s : list Q) (t : Q) : list Z :=
  map (fun x => if Qle_bool t x then 1 else 0) s.

Section GridSearch.

(** [sklearn.metrics.f1_score(y, pred, zero_division=0)], outside the
    repository; like any call it may raise. *)
Variable f1_score : list Z -> list Z -> result Q.

(** The loop [for t in np.linspace(0, 1, grid)] over the pair
    [(best_f1, best_thr)]. *)
Fixpoint grid_loop (s : list Q) (y : list Z) (ts : list Q) (best : Q * Q)
  : result (Q * Q) :=
  match ts with
  | [] => Ok best
  | t :: ts' =>
      f1 <- f1_score y (predict s t) ;;
      grid_loop s y ts' (if negb (Qle_bool f1 (fst best)) then (f1, t) else best)
  end.

(** Returns [(best_thr, best_f1)]. *)
Definition best_threshold_for_scores (scores : list Q) (y : list Z) (grid : nat)
  : result (Q * Q) :=
  let s := map clip01 scores in
  '(best_f1, best_thr) <- grid_loop s y (linspace01 grid) ((-1)%Q, 0.5%Q) ;;
  Ok (best_thr, best_f1).

End GridSearch.

(** One row of [X = df[TRAIN_FEATURES].values]: program header, code
    regions, string MinHash. *)
Definition features : Type := (Q * Q * Q)%type.

(** [(X * weights).sum(axis=1)] on the three columns of [X]: numpy
    broadcasts three weights or a single one, and raises for any other
    number. *)
Definition wscore (X : list features) (weights : list Q) : result (list Q) :=
  match weights with
  | [w0; w1; w2] => Ok (map (fun '(a, b, c) => (a * w0 + b * w1 + c * w2)%Q) X)
  | [w0] => Ok (map (fun '(a, b, c) => (a * w0 + b * w0 + c * w0)%Q) X)
  | _ => Raise ValueError
  end.

Section FitThreshold.

(** [LogisticRegression(max_iter=500, class_weight="balanced",
    random_state=random_state).fit(X, y).coef_[0]] and [f1_score] of
    scikit-learn. *)
Variable lr_fit : Z -> list features -> list Z -> result (list Q).
Variable f1_score : list Z -> list Z -> result Q.

Definition fit_weights_and_threshold (X : list features) (y : list Z) (random_state : Z)
  : result (list Q * Q * Q) :=
  coef <- lr_fit random_state X y ;;
  let weights := weights_of_coef coef in
  ws <- wscore X weights ;;
  '(thr_w, best_f1_w) <- best_threshold_for_scores f1_score ws y 1001 ;;
  Ok (weights, thr_w, best_f1_w).

End FitThreshold.

End TrainWeights.

(** ** Raw comparison rows *)

Record raw_row : Type := {
  raw_family : string;
  raw_label : cell;
  rep_string_minhash : npfloat;
  rep_code_regions : npfloat;
  rep_program_header : npfloat
}.

Definition bool_int8 (b : bool) : Z := if b then 1 else 0.

(** ** train/weight/preprocess.py *)

Module Preprocess.

Definition TAU_STRING_MINHASH : Q := 0.146484375%Q.
Definition TAU_CODE_REGION_LIST : Q := 0.3988839387893677%Q.
Definition TAU_PROGRAM_HEADER_VECTOR : Q := 0.8291192054748535%Q.

(** [np.all(~np.isnan(M), axis=1) & ~np.isnan(y)]; [y] is already [int8]
    there, so its part of the mask is always true. *)
Definition mask_valid (r : raw_row) : bool :=
  negb (Np.isnan (rep_string_minhash r)) && negb (Np.isnan (rep_code_regions r))
  && negb (Np.isnan (rep_program_header r)).

(** One entry of [B = (M >= thr_vec).astype(np.int8)]: the column was cast
    to [float32] when [M] was built, and [thr_vec] is the [float32] array of
    the doubles that the literals of [TAU] denote. *)
Definition flag (v : npfloat) (tau : Q) : Z :=
  bool_int8 (Np.gef (Np.float32 v) (Np.float32 (Fin (Fl.f64 tau)))).

(** One row of [B] with its family and label.  The [int8] cast of a null
    label is left to the platform by numpy; it is 0 here. *)
Definition binarize_row (r : raw_row) : bin_row :=
  {| src_family := raw_family r;
     label_same_family := Some (cell_int8 (raw_label r));
     bin_string_minhash := Some (flag (rep_string_minhash r) TAU_STRING_MINHASH);
     bin_code_regions := Some (flag (rep_code_regions r) TAU_CODE_REGION_LIST);
     bin_program_header := Some (flag (rep_program_header r) TAU_PROGRAM_HEADER_VECTOR) |}.

(** The output directory.  A file is named by its partition directory and
    its number in it, [src_family=<fam>/part-<i>.parquet]. *)
Definition path : Type := (string * nat)%type.
Definition dataset_dir : Type := list (path * list bin_row).

Definition path_eqb (p q : path) : bool :=
  String.eqb (fst p) (fst q) && Nat.eqb (snd p) (snd q).

(** [max_rows_per_file=2_000_000] *)
Definition MAX_ROWS_PER_FILE : Z := 2000000.

(** Writing one file under [existing_data_behavior="overwrite_or_ignore"]:
    a file of the same name is replaced, every other file is left alone. *)
Definition write_file (d : dataset_dir) (p : path) (rows : list bin_row) : dataset_dir :=
  filter (fun f => negb (path_eqb (fst f) p)) d ++ [(p, rows)].

(** The first [n] rows and the rest. *)
Fixpoint split_at (n : Z) (rows : list bin_row) : list bin_row * list bin_row :=
  match rows with
  | [] => ([], [])
  | r :: rows' =>
      if n <=? 0 then ([], rows)
      else let '(a, b) := split_at (n - 1) rows' in (r :: a, b)
  end.

(** The rows of one partition directory, cut into files of at most
    [MAX_ROWS_PER_FILE] rows; [i] is the number of the next file. *)
Fixpoint write_parts (fuel : nat) (d : dataset_dir) (fam : string) (i : nat)
  (rows : list bin_row) : dataset_dir :=
  match rows, fuel with
  | [], _ => d
  | _, O => d
  | _, S fuel' =>
      let '(a, b) := split_at MAX_ROWS_PER_FILE rows in
      write_parts fuel' (write_file d (fam, i) a) fam (S i) b
  end.

(** [ds.write_dataset(table, partitioning=hive(src_family), ...)]: the rows
    of each family go to that family's directory, and every call numbers
    the files of a directory from 0 again. *)
Definition write_dataset (d : dataset_dir) (table : list bin_row) : dataset_dir :=
  fold_left
    (fun d fam =>
       write_parts (length table) d fam 0
                   (filter (fun r => String.eqb (src_family r) fam) table))
    (nodup string_dec (map src_family table)) d.

Record out_state : Type := {
  files : dataset_dir;
  total_in : Z;
  total_out : Z
}.

(** Body of [for b in scanner.to_batches()]: a batch without a valid row
    writes nothing. *)
Definition step (st : out_state) (b : list raw_row) : out_state :=
  let n_in := total_in st + Z.of_nat (length b) in
  match filter mask_valid b with
  | [] => {| files := files st; total_in := n_in; total_out := total_out st |}
  | valid =>
      let table := map binarize_row valid in
      {| files := write_dataset (files st) table;
         total_in := n_in;
         total_out := total_out st + Z.of_nat (length table) |}
  end.

(** [process] on an empty output directory; [total_in] and [total_out] are
    the [rows_read] and [rows_written] of the metadata file. *)
Definition process (bs : list (list raw_row)) : out_state :=
  fold_left step bs {| files := []; total_in := 0; total_out := 0 |}.

(** The rows a later [ds.dataset(out_dir)] reads back. *)
Definition rows_on_disk (d : dataset_dir) : list bin_row := concat (map snd d).

End Preprocess.


(** ** train/final_threshold/find_threshold.py *)

Module FindThreshold.

Definition TAU_SM : Q := 0.146484375%Q.
Definition TAU_CR : Q := 0.3988839387893677%Q.
Definition TAU_PH : Q := 0.8291192054748535%Q.

Definition W_SM : Q := 0.6170%Q.
Definition W_PH : Q := 0.0884%Q.
Definition W_CR : Q := 0.2946%Q.

Definition RECALL_TARGETS : list Q := [0.95%Q; 0.99%Q].

(** The scored sample: [ys] and [xs] grow together, one label and one score
    per kept row, so they are kept as one list of pairs. *)
Definition sample : Type := list (Z * Q).

(** [np.isfinite(sm) & np.isfinite(cr) & np.isfinite(ph) & np.isfinite(y)] *)
Definition mask (r : raw_row) : bool :=
  Np.isfinite (rep_string_minhash r) && Np.isfinite (rep_code_regions r)
  && Np.isfinite (rep_program_header r) && Np.isfinite_cell (raw_label r).

(** [W_SM * b_sm + W_CR * b_cr + W_PH * b_ph] as a sum of rationals. *)
Definition weighted_score (b_sm b_cr b_ph : Z) : Q :=
  (W_SM * inject_Z b_sm + W_CR * inject_Z b_cr + W_PH * inject_Z b_ph)%Q.

(** The same sum as numpy computes it: the weights are doubles, each
    product and each sum is rounded to a double, and [astype(np.float32)]
    rounds the result once more. *)
Definition score32 (b_sm b_cr b_ph : Z) : Q :=
  Fl.f32 (Fl.add64 (Fl.add64 (Fl.mul64 (Fl.f64 W_SM) (inject_Z b_sm))
                             (Fl.mul64 (Fl.f64 W_CR) (inject_Z b_cr)))
                   (Fl.mul64 (Fl.f64 W_PH) (inject_Z b_ph))).

(** [(sm >= TAU_SM).astype(np.int8)] and its two siblings: [sm] was cast to
    [float32], and numpy compares it with the threshold, the double that the
    literal denotes, as a [float32]. *)
Definition flag (v : npfloat) (tau : Q) : Z :=
  bool_int8 (Np.gef (Np.float32 v) (Np.float32 (Fin (Fl.f64 tau)))).

Definition flag_sm (r : raw_row) : Z := flag (rep_string_minhash r) TAU_SM.
Definition flag_cr (r : raw_row) : Z := flag (rep_code_regions r) TAU_CR.
Definition flag_ph (r : raw_row) : Z := flag (rep_program_header r) TAU_PH.

Definition row_score (r : raw_row) : Q :=
  score32 (flag_sm r) (flag_cr r) (flag_ph r).

Record scan_state : Type := {
  acc : sample;
  pos : Z;
  neg : Z
}.

(** Body of [for si, yi in zip(s, y)] under [neg_pos_ratio > 0]. *)
Definition subsample_step (neg_pos_ratio : Q) (st : scan_state) (ys : Z * Q)
  : scan_state :=
  let '(yi, si) := ys in
  if yi =? 1 then {| acc := acc st ++ [(1, si)]; pos := pos st + 1; neg := neg st |}
  else if negb (Qle_bool (inject_Z (pos st) * neg_pos_ratio) (inject_Z (neg st)))
       then {| acc := acc st ++ [(0, si)]; pos := pos st; neg := neg st + 1 |}
       else st.

(** One batch; the second component tells whether [max_rows] stops the scan. *)
Definition step (neg_pos_ratio : Q) (max_rows : option Z) (st : scan_state)
  (b : list raw_row) : scan_state * bool :=
  match filter mask b with
  | [] => (st, false)
  | kept =>
      let scored := map (fun r => (cell_int8 (raw_label r), row_score r)) kept in
      let st' :=
        if negb (Qle_bool neg_pos_ratio 0)
        then fold_left (subsample_step neg_pos_ratio) scored st
        else {| acc := acc st ++ scored; pos := pos st; neg := neg st |} in
      let stop :=
        match max_rows with
        | Some m => negb (m =? 0) && (m <=? Z.of_nat (length (acc st')))
        | None => false
        end in
      (st', stop)
  end.

Fixpoint scan (neg_pos_ratio : Q) (max_rows : option Z) (st : scan_state)
  (bs : list (list raw_row)) : scan_state :=
  match bs with
  | [] => st
  | b :: bs' =>
      let '(st', stop) := step neg_pos_ratio max_rows st b in
      if stop then st' else scan neg_pos_ratio max_rows st' bs'
  end.

Definition scan_weighted_scores (neg_pos_ratio : Q) (max_rows : option Z)
  (bs : list (list raw_row)) : sample :=
  acc (scan neg_pos_ratio max_rows {| acc := []; pos := 0; neg := 0 |} bs).

(** A metrics dict.  The unreachable-recall dict stores [None] for the four
    counts and NaN for the floats, so the fields take those values too. *)
Inductive criterion_tag : Type :=
| crit_youdenJ
| crit_recall (target : Q).

Record metrics : Type := {
  threshold : npfloat;
  tp : option Z; fp : option Z; tn : option Z; fn : option Z;
  tpr : npfloat; fpr : npfloat; precision : npfloat;
  criterion : option criterion_tag
}.

Definition count_where (f : Z * Q -> bool) (s : sample) : Z :=
  Z.of_nat (length (filter f s)).

(** [x >= thr] compares the [float32] scores with the threshold as a
    [float32]; every threshold [pick_thresholds] passes is an entry of the
    [float32] array [thr], which the cast leaves as it is. *)
Definition metrics_at_threshold (s : sample) (thr : npfloat) : result metrics :=
  let pred := fun yx : Z * Q => Np.gef (Fin (snd yx)) thr in
  let tp := count_where (fun yx => pred yx && (fst yx =? 1)) s in
  let fp := count_where (fun yx => pred yx && (fst yx =? 0)) s in
  let tn := count_where (fun yx => negb (pred yx) && (fst yx =? 0)) s in
  let fn := count_where (fun yx => negb (pred yx) && (fst yx =? 1)) s in
  let pos := tp + fn in
  let neg := tn + fp in
  tpr <- (if pos =? 0 then Ok 0%Q else truediv tp pos) ;;
  fpr <- (if neg =? 0 then Ok 0%Q else truediv fp neg) ;;
  prec <- (if tp + fp =? 0 then Ok 0%Q else truediv tp (tp + fp)) ;;
  Ok {| threshold := thr;
        tp := Some tp; fp := Some fp; tn := Some tn; fn := Some fn;
        tpr := Fin tpr; fpr := Fin fpr; precision := Fin prec;
        criterion := None |}.

Definition with_criterion (m : metrics) (c : criterion_tag) : metrics :=
  {| threshold := threshold m;
     tp := tp m; fp := fp m; tn := tn m; fn := fn m;
     tpr := tpr m; fpr := fpr m; precision := precision m;
     criterion := Some c |}.

(** The dict appended when no point reaches the recall target. *)
Definition not_reachable (target : Q) : metrics :=
  {| threshold := NaN;
     tp := None; fp := None; tn := None; fn := None;
     tpr := NaN; fpr := NaN; precision := NaN;
     criterion := Some (crit_recall target) |}.

(** One point of the ROC curve: [(fpr[i], tpr[i], thr[i])]. *)
Record roc_point : Type := {
  pt_fpr : Q;
  pt_tpr : Q;
  pt_thr : npfloat
}.

Definition getitem {A : Type} (l : list A) (i : nat) : result A :=
  match nth_error l i with
  | Some a => Ok a
  | None => Raise IndexError
  end.

(** [np.where(tpr >= target)[0]] *)
Definition where_tpr_ge (roc : list roc_point) (target : Q) : list nat :=
  map fst (filter (fun ip => Qle_bool target (pt_tpr (snd ip)))
                  (combine (seq 0 (length roc)) roc)).

(** [fpr[idx]] *)
Fixpoint fpr_at (roc : list roc_point) (idx : list nat) : result (list Q) :=
  match idx with
  | [] => Ok []
  | i :: idx' => p <- getitem roc i ;; r <- fpr_at roc idx' ;; Ok (pt_fpr p :: r)
  end.

(** Body of [for target in RECALL_TARGETS]. *)
Definition recall_threshold (s : sample) (roc : list roc_point) (target : Q)
  : result metrics :=
  match where_tpr_ge roc target with
  | [] => Ok (not_reachable target)
  | idx =>
      fprs <- fpr_at roc idx ;;
      k <- Np.argmin fprs ;;
      sub <- getitem idx k ;;
      p <- getitem roc sub ;;
      mtr <- metrics_at_threshold s (pt_thr p) ;;
      Ok (with_criterion mtr (crit_recall target))
  end.

Fixpoint recall_thresholds (s : sample) (roc : list roc_point) (targets : list Q)
  : result (list metrics) :=
  match targets with
  | [] => Ok []
  | t :: ts =>
      m <- recall_threshold s roc t ;;
      ms <- recall_thresholds s roc ts ;;
      Ok (m :: ms)
  end.

(** [j = tpr - fpr] at one point: a subtraction of two doubles. *)
Definition youden_j (p : roc_point) : Q := Fl.sub64 (pt_tpr p) (pt_fpr p).

Section Roc.

(** [sklearn.metrics.roc_curve(y, x)], outside the repository: the three
    arrays it returns, one point per index.  The rates are taken finite
    (both classes present in the sample). *)
Variable roc_curve : sample -> list roc_point.

Definition pick_thresholds (s : sample)
  : result (list roc_point * metrics * list metrics) :=
  let roc := filter (fun p => negb (Np.isinf (pt_thr p))) (roc_curve s) in
  let j := map youden_j roc in
  j_idx <- Np.argmax j ;;
  p <- getitem roc j_idx ;;
  best_j <- metrics_at_threshold s (pt_thr p) ;;
  rec_thrs <- recall_thresholds s roc RECALL_TARGETS ;;
  Ok (roc, with_criterion best_j crit_youdenJ, rec_thrs).

End Roc.

End FindThreshold.


(** ** train/find_thresholds.py *)

Module FindThresholds.

(** One record of the two scanned columns: the representation value and the
    label, which is missing where the column is null. *)
Definition rep_row : Type := (npfloat * cell)%type.

Record scan_state : Type := {
  acc : list (Z * npfloat);
  pos : Z;
  neg : Z
}.

(** [yy == 1] on a label that may be missing. *)
Definition is_one (y : cell) : bool :=
  match y with Some z => z =? 1 | None => false end.

(** Body of [for s, yy in zip(x, y)]. *)
Definition keep_step (neg_pos_ratio : Q) (st : scan_state) (r : rep_row) : scan_state :=
  let '(s, yy) := r in
  if is_one yy then {| acc := acc st ++ [(1, s)]; pos := pos st + 1; neg := neg st |}
  else if Qle_bool neg_pos_ratio 0
          || negb (Qle_bool (inject_Z (pos st) * neg_pos_ratio) (inject_Z (neg st)))
       then {| acc := acc st ++ [(0, s)]; pos := pos st; neg := neg st + 1 |}
       else st.

(** One batch; the second component tells whether [max_rows] stops the scan. *)
Definition step (neg_pos_ratio : Q) (max_rows : option Z) (st : scan_state)
  (b : list rep_row) : scan_state * bool :=
  let kept := filter (fun r => negb (Np.isnan (fst r))) b in
  let st' := fold_left (keep_step neg_pos_ratio) kept st in
  let stop :=
    match max_rows with
    | Some m => negb (m =? 0) && (m <=? Z.of_nat (length (acc st')))
    | None => false
    end in
  (st', stop).

Fixpoint scan_from (neg_pos_ratio : Q) (max_rows : option Z) (st : scan_state)
  (bs : list (list rep_row)) : scan_state :=
  match bs with
  | [] => st
  | b :: bs' =>
      let '(st', stop) := step neg_pos_ratio max_rows st b in
      if stop then st' else scan_from neg_pos_ratio max_rows st' bs'
  end.

Definition scan (neg_pos_ratio : Q) (max_rows : option Z) (bs : list (list rep_row))
  : list (Z * npfloat) :=
  acc (scan_from neg_pos_ratio max_rows {| acc := []; pos := 0; neg := 0 |} bs).

End FindThresholds.


(** * Properties *)

(** ** Vocabulary of the statements *)

(** Elementwise integer sum of two histograms. *)
Definition hist_add (a b : hist) : hist :=
  map (fun ab => (fst (fst ab) + fst (snd ab), snd (fst ab) + snd (snd ab)))
      (combine a b).

(** Sum over all patterns of [count_label0 + count_label1]. *)
Definition hist_total (h : hist) : Z := zsum (map (fun r => fst r + snd r) h).

(** A cell that, when present, is one of the two bits. *)
Definition binary_cell (c : cell) : bool :=
  match c with
  | Some z => (z =? 0) || (z =? 1)
  | None => true
  end.

Definition binary_row (r : bin_row) : bool :=
  binary_cell (label_same_family r) && binary_cell (bin_string_minhash r)
  && binary_cell (bin_code_regions r) && binary_cell (bin_program_header r).

Definition binary_stream (bs : list batch) : bool := forallb (forallb binary_row) bs.

(** Number of rows with label [lbl] and pattern [p]. *)
Definition cnt (lbl : Z) (p : nat) (rows : list bin_row) : Z :=
  Z.of_nat (length (filter (fun r => (row_label r =? lbl) && (row_pattern r =? Z.of_nat p))
                           rows)).

(** The histogram of a list of rows, written as a specification: one pair of
    counts per pattern. *)
Definition tally (rows : list bin_row) : hist :=
  map (fun p => (cnt 0 p rows, cnt 1 p rows)) (seq 0 8).

(** The rows [find_weights.aggregate_counts] keeps. *)
Definition kept_rows (families : list string) (bs : list batch) : list bin_row :=
  filter (FindWeights.mask families) (concat bs).

(** The rows [evaluate.aggregate_counts] keeps. *)
Definition eval_rows (family : option string) (bs : list batch) : list bin_row :=
  filter finite_row (concat (map (Evaluate.scanner_filter family) bs)).

(** The histogram component of the two aggregators' results. *)
Definition find_weights_hist (families : list string) (bs : list batch) : result hist :=
  r <- FindWeights.aggregate_counts families bs ;; Ok (fst (fst r)).

Definition evaluate_hist (family : option string) (by_family : bool) (bs : list batch)
  : result hist :=
  r <- Evaluate.aggregate_counts family by_family bs ;; Ok (fst (fst r)).

(** Rows the mask of [find_weights.aggregate_counts] drops. *)
Definition dropped_rows (families : list string) (bs : list batch) : list bin_row :=
  filter (fun r => negb (FindWeights.mask families r)) (concat bs).

(** Two small streams used to exercise the statements: [stream_A] holds a
    row with a null flag, which the aggregators drop. *)
Definition mk_row (fam : string) (y a b c : cell) : bin_row :=
  {| src_family := fam; label_same_family := y; bin_string_minhash := a;
     bin_code_regions := b; bin_program_header := c |}.

Definition stream_A : list batch :=
  [[mk_row "busybox" (Some 1) (Some 1) (Some 1) (Some 1);
    mk_row "busybox" (Some 0) None (Some 0) (Some 0)]].

Definition stream_B : list batch :=
  [[mk_row "dropbear" (Some 0) (Some 1) (Some 0) (Some 0)];
   [mk_row "busybox" (Some 1) (Some 1) (Some 1) (Some 1);
    mk_row "dropbear" (Some 0) (Some 0) (Some 0) (Some 1)]].

(** A histogram holds counts. *)
Definition hist_nonneg (counts : hist) : Prop :=
  Forall (fun r => 0 <= fst r /\ 0 <= snd r) counts.

(** Each rate of a metrics row is 0.0 when its denominator is 0. *)
Definition degrades_to_zero (r : Evaluate.metrics_row) : Prop :=
  let tp := Evaluate.tp r in
  let fp := Evaluate.fp r in
  let tn := Evaluate.tn r in
  let fn := Evaluate.fn r in
  (tp + fn = 0 -> Evaluate.tpr r = 0%Q) /\
  (fp + tn = 0 -> Evaluate.fpr r = 0%Q) /\
  (tp + fp = 0 -> Evaluate.precision r = 0%Q) /\
  (tn + fp = 0 -> Evaluate.specificity r = 0%Q) /\
  (tp + fp + tn + fn = 0 -> Evaluate.accuracy r = 0%Q) /\
  (2 * tp + fp + fn = 0 -> Evaluate.f1 r = 0%Q).

(** The same for the three rates of a [find_threshold] metrics dict. *)
Definition dict_degrades_to_zero (m : FindThreshold.metrics) : Prop :=
  exists tp fp tn fn tpr fpr prec,
    FindThreshold.tp m = Some tp /\ FindThreshold.fp m = Some fp /\
    FindThreshold.tn m = Some tn /\ FindThreshold.fn m = Some fn /\
    FindThreshold.tpr m = Fin tpr /\ FindThreshold.fpr m = Fin fpr /\
    FindThreshold.precision m = Fin prec /\
    (tp + fn = 0 -> tpr = 0%Q) /\
    (tn + fp = 0 -> fpr = 0%Q) /\
    (tp + fp = 0 -> prec = 0%Q).

(** Scoring one binarized record on its own, with the weights of
    [find_threshold.py]. *)
Definition record_score (r : bin_row) : Q :=
  FindThreshold.weighted_score (cell_int8 (bin_string_minhash r))
                               (cell_int8 (bin_code_regions r))
                               (cell_int8 (bin_program_header r)).

(** The scored sample of a list of records: one label and one score each. *)
Definition replay (rows : list bin_row) : FindThreshold.sample :=
  map (fun r => (row_label r, record_score r)) rows.

(** The score the table of [evaluate.py] gives to pattern [p]. *)
Definition table_score (p : nat) : Q := nth p Evaluate.SCORES_BY_PATTERN 0%Q.

(** A weight vector: non-negative entries that sum to 1, hence also to 1
    within the tolerance 1e-6. *)
Definition normalized (weights : list Q) : Prop :=
  Forall (fun x => 0 <= x)%Q weights /\
  (qsum weights == 1)%Q /\
  (Qabs (qsum weights - 1) <= 0.000001)%Q.

(** Some (pattern, label) cell of the histogram is positive. *)
Definition has_positive_cell (counts : hist) : bool :=
  existsb (fun r => (0 <? fst r) || (0 <? snd r)) counts.

(** The histogram [{0: (100, 0), 7: (0, 50)}] of the specification's
    scenarios. *)
Definition scenario_hist : hist :=
  [(100, 0); (0, 0); (0, 0); (0, 0); (0, 0); (0, 0); (0, 0); (0, 50)].

(** A stand-in for the logistic fit, used only to run the learner on the
    examples: it ignores the design and returns fixed coefficients. *)
Definition constant_fit (coef : list Q) (max_iter : Z) (C : Q) (random_state : Z)
  (d : FindWeights.design) : result (list Q * Z) :=
  Ok (coef, 1).

(** Some record of label 0, of label 1, was counted. *)
Definition has_label0 (counts : hist) : bool := existsb (fun r => 0 <? fst r) counts.
Definition has_label1 (counts : hist) : bool := existsb (fun r => 0 <? snd r) counts.

(** A histogram of 100 records, all of pattern 0 and label 0. *)
Definition one_label_hist : hist :=
  [(100, 0); (0, 0); (0, 0); (0, 0); (0, 0); (0, 0); (0, 0); (0, 0)].

(** The optimiser converges: on a design that holds both labels it returns,
    with one coefficient per feature column. *)
Definition fit_returns (lbfgs_fit : Z -> Q -> Z -> FindWeights.design -> result (list Q * Z))
  : Prop :=
  forall max_iter C random_state d,
    In 0 (FindWeights.y d) -> In 1 (FindWeights.y d) ->
    exists coef n_iter,
      lbfgs_fit max_iter C random_state d = Ok (coef, n_iter) /\ length coef = 3%nat.

(** The learner as worded: with default settings it raises exactly on the
    histograms of zero total, and returns a weight vector on every histogram
    with a positive cell. *)
Definition raises_only_when_empty
  (lbfgs_fit : Z -> Q -> Z -> FindWeights.design -> result (list Q * Z)) (counts : hist)
  : Prop :=
  ((exists e, FindWeights.fit_weights lbfgs_fit counts 400 1%Q 42 = Raise e)
   <-> hist_total counts = 0) /\
  (has_positive_cell counts = true ->
   exists weights, FindWeights.fit_weights lbfgs_fit counts 400 1%Q 42 = Ok weights).

(** A raw row whose string-MinHash value is infinite, one whose value is
    NaN, and a finite one. *)
Definition mk_raw (y : cell) (sm cr ph : npfloat) : raw_row :=
  {| raw_family := "busybox"; raw_label := y;
     rep_string_minhash := sm; rep_code_regions := cr; rep_program_header := ph |}.

Definition inf_row : raw_row := mk_raw (Some 1) PosInf (Fin 0.5%Q) (Fin 0.9%Q).
Definition nan_row : raw_row := mk_raw (Some 1) NaN (Fin 0.5%Q) (Fin 0.9%Q).
Definition fin_row : raw_row := mk_raw (Some 0) (Fin 0.1%Q) (Fin 0.5%Q) (Fin 0.9%Q).

(** A finite row whose string-MinHash value is below the threshold by
    [2 ^ -40], and an entry of a result file with a missing program-header
    value. *)
Definition near_tau_row : raw_row :=
  mk_raw (Some 1) (Fin (161061273599 # 1099511627776)) (Fin 0.5%Q) (Fin 0.9%Q).

Definition missing_comparison : TrainWeights.comparison :=
  {| TrainWeights.secondFileName := "busybox___a";
     TrainWeights.fileName := "busybox___b";
     TrainWeights.comparisonDetails := (NaN, Fin 0.5%Q, Fin 0.9%Q, Fin 1%Q, Fin 1%Q) |}.

(** The binarizer contract as the specification words it.  On the
    preprocessing path: a record with a missing or non-finite detector value
    leaves no row in the binarized dataset. *)
Definition process_drops_non_finite : Prop :=
  forall r : raw_row,
    Np.isfinite (rep_string_minhash r) && Np.isfinite (rep_code_regions r)
    && Np.isfinite (rep_program_header r) = false ->
    Preprocess.rows_on_disk (Preprocess.files (Preprocess.process [[r]])) = [].

(** On the path of [load_frames]: such a record gives no training row. *)
Definition load_frames_drops_missing : Prop :=
  forall d : TrainWeights.comparison,
    (let '(ph, cr, sm, _, _) := TrainWeights.comparisonDetails d in
     Np.isfinite ph && Np.isfinite cr && Np.isfinite sm) = false ->
    TrainWeights.load_frames [Some [d]] = [].

(** For a finite value: the flag is 1 if the value is at least the
    threshold, else 0. *)
Definition flags_compare_values : Prop :=
  forall (r : raw_row) (q : Q),
    rep_string_minhash r = Fin q ->
    FindThreshold.flag_sm r
    = if Qle_bool (Fl.f64 FindThreshold.TAU_SM) q then 1 else 0.

(** The [float32] numbers just below the three thresholds. *)
Definition below_TAU_SM : Q := 9830399 # 67108864.
Definition below_TAU_CR : Q := 13384323 # 33554432.
Definition below_TAU_PH : Q := 13910311 # 16777216.

(** What the flag [b] of a value [v] is, for a threshold [tau] and the
    [float32] number [below] just under it: 1 from [tau] on, 0 up to
    [below], and between the two as the cast to [float32] rounds; on a value
    that is a [float32] already, 1 exactly from [tau] on. *)
Definition flag_of (v : npfloat) (tau below : Q) (b : Z) : Prop :=
  match v with
  | Fin q =>
      ((tau <= q)%Q -> b = 1) /\
      ((q <= below)%Q -> b = 0) /\
      ((Fl.f32 q == q)%Q -> b = if Qle_bool tau q then 1 else 0)
  | PosInf => b = 1
  | NegInf => b = 0
  | NaN => b = 0
  end.

(** The label and score [scan_weighted_scores] records for a row. *)
Definition scored (r : raw_row) : Z * Q :=
  (cell_int8 (raw_label r), FindThreshold.row_score r).

(** What the recall loop must deliver for one target, given the points of
    the curve: the metrics at a point of least fpr among the points with
    [tpr >= target], or the unreachable dict when there is no such point. *)
Definition recall_outcome (s : FindThreshold.sample) (roc : list FindThreshold.roc_point)
  (target : Q) (m : FindThreshold.metrics) : Prop :=
  ((exists q, In q roc /\ (target <= FindThreshold.pt_tpr q)%Q) ->
   exists p m0,
     In p roc /\
     (target <= FindThreshold.pt_tpr p)%Q /\
     (forall q, In q roc -> (target <= FindThreshold.pt_tpr q)%Q ->
                (FindThreshold.pt_fpr p <= FindThreshold.pt_fpr q)%Q) /\
     FindThreshold.metrics_at_threshold s (FindThreshold.pt_thr p) = Ok m0 /\
     m = FindThreshold.with_criterion m0 (FindThreshold.crit_recall target) /\
     FindThreshold.threshold m = FindThreshold.pt_thr p) /\
  ((forall q, In q roc -> ~ (target <= FindThreshold.pt_tpr q)%Q) ->
   m = FindThreshold.not_reachable target).

(** The curve after [m = ~np.isinf(thr)]. *)
Definition finite_thresholds (roc : list FindThreshold.roc_point)
  : list FindThreshold.roc_point :=
  filter (fun p => negb (Np.isinf (FindThreshold.pt_thr p))) roc.

(** The Youden selection as the specification words it, for the default
    run of [evaluate.py]: the reported row is at least as good as the row of
    any threshold above the largest score, the predict-all-negative end of
    the curve. *)
Definition maximizes_over_endpoints : Prop :=
  forall (counts : hist) (best : Evaluate.metrics_row) (t : Q) (row : Evaluate.metrics_row),
    length counts = 8%nat ->
    hist_nonneg counts ->
    Evaluate.main_best counts [] = Ok (Some best) ->
    (forall sc, In sc Evaluate.SCORES_BY_PATTERN -> (sc < t)%Q) ->
    Evaluate.eval_threshold Evaluate.SCORES_BY_PATTERN counts t = Ok row ->
    (Evaluate.youdenJ row <= Evaluate.youdenJ best)%Q.

(** A histogram with label-0 records only, at patterns 0 and 7. *)
Definition negatives_hist : hist :=
  [(1, 0); (0, 0); (0, 0); (0, 0); (0, 0); (0, 0); (0, 0); (1, 0)].

(** A histogram on which the thresholds 0.0884 and 0.617 both have J = 1/4
    as rationals, [12/12 - 9/12] and [7/12 - 4/12], while the doubles are
    0.25 and 0.25000000000000006. *)
Definition tied_hist : hist :=
  [(3, 0); (0, 1); (2, 3); (2, 2); (0, 1); (0, 1); (3, 1); (2, 3)].

(** A small curve and sample for the examples: the points (fpr, tpr, thr)
    of three thresholds, after the infinite first threshold. *)
Definition example_sample : FindThreshold.sample :=
  [(1, 0.9116%Q); (1, 0.6170%Q); (0, 0.6170%Q); (0, 0%Q)].

Definition example_roc (s : FindThreshold.sample) : list FindThreshold.roc_point :=
  [ {| FindThreshold.pt_fpr := 0%Q; FindThreshold.pt_tpr := 0%Q;
       FindThreshold.pt_thr := PosInf |};
    {| FindThreshold.pt_fpr := 0%Q; FindThreshold.pt_tpr := 0.5%Q;
       FindThreshold.pt_thr := Fin 0.9116%Q |};
    {| FindThreshold.pt_fpr := 0.5%Q; FindThreshold.pt_tpr := 1%Q;
       FindThreshold.pt_thr := Fin 0.6170%Q |};
    {| FindThreshold.pt_fpr := 1%Q; FindThreshold.pt_tpr := 1%Q;
       FindThreshold.pt_thr := Fin 0%Q |} ].

(** Every per-family array of the dict has eight rows. *)
Definition dict_ok (d : list (string * hist)) : Prop :=
  Forall (fun kv => length (snd kv) = 8%nat) d.

(** ** Vocabulary of the further properties *)

(** A pattern that indexes one of the eight histogram rows. *)
Definition in_range (p : Z) : bool := (0 <=? p) && (p <? 8).

(** The label is one of the two the counting loop looks at. *)
Definition label01 (r : bin_row) : bool := (row_label r =? 0) || (row_label r =? 1).

(** A kept row the counting loop can take: when its label is 0 or 1, its
    pattern indexes a histogram row. *)
Definition countable (r : bin_row) : bool :=
  negb (label01 r) || in_range (row_pattern r).

(** The rows of one source family. *)
Definition fam_rows (f : string) (rows : list bin_row) : list bin_row :=
  filter (fun r => String.eqb (src_family r) f) rows.

(** The per-family array of [f], all zeros while the dict has no such key. *)
Definition fam_hist (d : list (string * hist)) (f : string) : hist :=
  match Evaluate.dict_get d f with
  | Some h => h
  | None => zeros_8_2
  end.

(** The elementwise sum of a list of histograms. *)
Definition hist_sum (hs : list hist) : hist := fold_right hist_add zeros_8_2 hs.

(** A stream with a row whose label is neither 0 nor 1, and one with a row
    whose program-header flag is 2. *)
Definition stream_label2 : list batch :=
  [[mk_row "busybox" (Some 1) (Some 1) (Some 0) (Some 1);
    mk_row "busybox" (Some 2) (Some 0) (Some 0) (Some 0);
    mk_row "uci" (Some 0) (Some 0) (Some 1) (Some 0)]].

Definition stream_flag2 : list batch :=
  [[mk_row "busybox" (Some 1) (Some 1) (Some 0) (Some 1)];
   [mk_row "busybox" (Some 1) (Some 0) (Some 0) (Some 2)]].

(** Two metrics rows that differ at most in the threshold they were computed
    at. *)
Definition same_operating_point (r1 r2 : Evaluate.metrics_row) : Prop :=
  Evaluate.tp r1 = Evaluate.tp r2 /\ Evaluate.fp r1 = Evaluate.fp r2 /\
  Evaluate.tn r1 = Evaluate.tn r2 /\ Evaluate.fn r1 = Evaluate.fn r2 /\
  Evaluate.tpr r1 = Evaluate.tpr r2 /\ Evaluate.fpr r1 = Evaluate.fpr r2 /\
  Evaluate.precision r1 = Evaluate.precision r2 /\
  Evaluate.specificity r1 = Evaluate.specificity r2 /\
  Evaluate.accuracy r1 = Evaluate.accuracy r2 /\
  Evaluate.f1 r1 = Evaluate.f1 r2 /\
  Evaluate.youdenJ r1 = Evaluate.youdenJ r2 /\
  Evaluate.sample_pos r1 = Evaluate.sample_pos r2 /\
  Evaluate.sample_neg r1 = Evaluate.sample_neg r2.

(** The largest entry of the score table. *)
Definition top_score : Q := (Evaluate.W_SM + Evaluate.W_CR + Evaluate.W_PH)%Q.

(** Equality of two rows of bits. *)
Fixpoint zlist_eqb (a b : list Z) : bool :=
  match a, b with
  | [], [] => true
  | x :: a', y :: b' => (x =? y) && zlist_eqb a' b'
  | _, _ => false
  end.

(** The rows of a weighted design, one triple (bits, label, weight) per row. *)
Definition design_rows (d : FindWeights.design) : list (list Z * Z * Z) :=
  combine (combine (FindWeights.X d) (FindWeights.y d)) (FindWeights.w d).

(** The rows of pattern [p] with label [l]. *)
Definition design_sel (p : nat) (l : Z) (r : list Z * Z * Z) : bool :=
  zlist_eqb (fst (fst r)) (FindWeights._bits_from_pattern (Z.of_nat p))
  && (snd (fst r) =? l).

(** Total sample weight a design gives to pattern [p] with label [l]. *)
Definition design_weight (d : FindWeights.design) (p : nat) (l : Z) : Z :=
  zsum (map snd (filter (design_sel p l) (design_rows d))).

(** The rows one pass of [for p in range(8)] appends. *)
Definition cell_rows (counts : hist) (p : nat) : list (list Z * Z * Z) :=
  match nth_error counts p with
  | Some (c0, c1) =>
      (if 0 <? c0 then [(FindWeights.bits (Z.of_nat p), 0, c0)] else [])
      ++ (if 0 <? c1 then [(FindWeights.bits (Z.of_nat p), 1, c1)] else [])
  | None => []
  end.

(** The scored sample of every record that passes the finiteness mask, in
    stream order. *)
Definition masked_sample (bs : list (list raw_row)) : FindThreshold.sample :=
  map scored (filter FindThreshold.mask (concat bs)).

Definition positives (s : FindThreshold.sample) : FindThreshold.sample :=
  filter (fun yx => fst yx =? 1) s.

Definition negatives (s : FindThreshold.sample) : FindThreshold.sample :=
  filter (fun yx => fst yx =? 0) s.

(** What the subsampling loop keeps true of its state. *)
Definition subsample_inv (ratio : Q) (st : FindThreshold.scan_state) : Prop :=
  FindThreshold.pos st = Z.of_nat (length (positives (FindThreshold.acc st))) /\
  FindThreshold.neg st = Z.of_nat (length (negatives (FindThreshold.acc st))) /\
  Forall (fun yx => fst yx = 0 \/ fst yx = 1) (FindThreshold.acc st) /\
  (FindThreshold.neg st = 0 \/
   (inject_Z (FindThreshold.neg st - 1) < inject_Z (FindThreshold.pos st) * ratio)%Q).

(** Two batches of raw records for the examples. *)
Definition raw_stream : list (list raw_row) :=
  [[fin_row; inf_row; mk_raw (Some 1) (Fin 0.2%Q) (Fin 0.5%Q) (Fin 0.9%Q)];
   [fin_row; fin_row; mk_raw (Some 1) (Fin 0.1%Q) (Fin 0.1%Q) (Fin 0.1%Q); fin_row]].

(** The number of patterns that occur with label 1, and with label 0. *)
Definition pos_cells (counts : hist) : Z :=
  Z.of_nat (length (filter (fun r => 0 <? snd r) counts)).

Definition neg_cells (counts : hist) : Z :=
  Z.of_nat (length (filter (fun r => 0 <? fst r) counts)).

(** What the per-representation scan records for a row it keeps: label 1
    for a label equal to 1 and label 0 for anything else, a missing label
    included. *)
Definition relabel (r : FindThresholds.rep_row) : Z * npfloat :=
  (if FindThresholds.is_one (snd r) then 1 else 0, fst r).

(** The records whose representation value is not NaN, in stream order. *)
Definition non_nan_rows (bs : list (list FindThresholds.rep_row))
  : list FindThresholds.rep_row :=
  filter (fun r => negb (Np.isnan (fst r))) (concat bs).

(** Three records: an infinite value, a NaN value and a missing label. *)
Definition rep_stream : list (list FindThresholds.rep_row) :=
  [[(PosInf, Some 1); (NaN, Some 1)]; [(Fin 0.25%Q, None); (Fin 0.5%Q, Some 0)]].

(** The contract of the F1 score the grid search relies on: on the labels
    [y] it returns a value in [0, 1] for every prediction. *)
Definition f1_in_unit (f1_score : list Z -> list Z -> result Q) (y : list Z) : Prop :=
  forall pred, exists v, f1_score y pred = Ok v /\ (0 <= v <= 1)%Q.

(** A stand-in for the F1 score on the examples: 0.25 while at most half of
    the predictions are positive, 0.5 otherwise. *)
Definition example_f1 (y pred : list Z) : result Q :=
  Ok (if 2 * zsum pred <=? Z.of_nat (length pred) then 0.25%Q else 0.5%Q).

(** The three training features of one comparison as [load_frames] leaves
    them: missing and NaN values filled with 0, everything clipped to
    [0, 1]. *)
Definition clipped_features (r : npfloat * npfloat * npfloat) : TrainWeights.features :=
  let '(ph, cr, sm) := r in
  (TrainWeights.fill_clip ph, TrainWeights.fill_clip cr, TrainWeights.fill_clip sm).

(** A stand-in for the logistic fit on the examples. *)
Definition example_lr_fit (random_state : Z) (X : list TrainWeights.features)
  (y : list Z) : result (list Q) :=
  Ok [0.5%Q; (-2)%Q; 1.5%Q].

(** Two batches of raw records of one family; the row of [nan_row] is
    dropped. *)
Definition two_batches : list (list raw_row) :=
  [[fin_row; inf_row; nan_row; mk_raw (Some 1) (Fin 0.2%Q) (Fin 0.5%Q) (Fin 0.9%Q)];
   [mk_raw (Some 1) (Fin 0.1%Q) (Fin 0.1%Q) (Fin 0.1%Q); fin_row]].

(** ** Histograms as an additive structure *)

Lemma hist_add_comm (a b : hist) : hist_add a b = hist_add b a.
Proof.
  revert b; induction a as [|x a IH]; intros [|y b]; try reflexivity.
  unfold hist_add in *; cbn [combine map fst snd]; rewrite IH.
  f_equal; f_equal; lia.
Qed.

Lemma hist_add_assoc (a b c : hist) :
  hist_add (hist_add a b) c = hist_add a (hist_add b c).
Proof.
  revert b c; induction a as [|x a IH]; intros [|y b] [|z c]; try reflexivity.
  unfold hist_add in *; cbn [combine map fst snd]; rewrite IH.
  f_equal; f_equal; lia.
Qed.

Lemma hist_add_length (a b : hist) :
  length (hist_add a b) = Nat.min (length a) (length b).
Proof. unfold hist_add; now rewrite length_map, length_combine. Qed.

Lemma hist_add_map {A : Type} (f g : A -> Z * Z) (l : list A) :
  hist_add (map f l) (map g l)
  = map (fun p => (fst (f p) + fst (g p), snd (f p) + snd (g p))) l.
Proof.
  induction l as [|p l IH]; [reflexivity|].
  unfold hist_add in *; cbn [combine map fst snd]; now rewrite IH.
Qed.

Lemma hist_add_zeros (c : hist) (n : nat) :
  (length c <= n)%nat -> hist_add c (repeat (0, 0) n) = c.
Proof.
  revert n; induction c as [|[c0 c1] c IH]; intros [|n] Hn; cbn in Hn; try reflexivity; try lia.
  unfold hist_add in *; cbn [repeat combine map fst snd].
  rewrite IH by lia; f_equal; f_equal; lia.
Qed.

Lemma hist_total_add (a b : hist) :
  length a = length b -> hist_total (hist_add a b) = hist_total a + hist_total b.
Proof.
  revert b; induction a as [|x a IH]; intros [|y b] Hl; cbn in Hl; try discriminate;
    [reflexivity|].
  injection Hl as Hl; specialize (IH b Hl).
  unfold hist_total, hist_add, zsum in *; cbn [combine map fold_right fst snd]; lia.
Qed.

Lemma tally_length (rows : list bin_row) : length (tally rows) = 8%nat.
Proof. reflexivity. Qed.

Lemma cnt_app (lbl : Z) (p : nat) (r1 r2 : list bin_row) :
  cnt lbl p (r1 ++ r2) = cnt lbl p r1 + cnt lbl p r2.
Proof. unfold cnt; rewrite filter_app, length_app; lia. Qed.

Lemma tally_app (r1 r2 : list bin_row) :
  tally (r1 ++ r2) = hist_add (tally r1) (tally r2).
Proof.
  unfold tally; rewrite hist_add_map; apply map_ext; intro p.
  cbn [fst snd]; now rewrite !cnt_app.
Qed.

Lemma tally_nil : tally [] = zeros_8_2.
Proof. reflexivity. Qed.

Lemma cnt_nonneg (lbl : Z) (p : nat) (rows : list bin_row) : 0 <= cnt lbl p rows.
Proof. unfold cnt; lia. Qed.

(** ** The counting loop against the tally *)

Lemma binary_cell_cases (c : cell) :
  Np.isfinite_cell c = true -> binary_cell c = true -> c = Some 0 \/ c = Some 1.
Proof.
  destruct c as [z|]; cbn; [|discriminate].
  intros _ H; apply orb_true_iff in H as [H|H]; apply Z.eqb_eq in H; subst; auto.
Qed.

Lemma binary_row_label (r : bin_row) :
  finite_row r = true -> binary_row r = true -> row_label r = 0 \/ row_label r = 1.
Proof.
  unfold finite_row, binary_row, row_label; intros Hf Hb.
  repeat (apply andb_true_iff in Hf as [Hf ?]); repeat (apply andb_true_iff in Hb as [Hb ?]).
  destruct (binary_cell_cases (label_same_family r)) as [E|E]; auto; rewrite E; auto.
Qed.

Lemma binary_row_pattern (r : bin_row) :
  finite_row r = true -> binary_row r = true -> 0 <= row_pattern r < 8.
Proof.
  unfold finite_row, binary_row, row_pattern; intros Hf Hb.
  repeat (apply andb_true_iff in Hf as [Hf ?]); repeat (apply andb_true_iff in Hb as [Hb ?]).
  destruct (binary_cell_cases (bin_string_minhash r)) as [E1|E1]; auto;
  destruct (binary_cell_cases (bin_code_regions r)) as [E2|E2]; auto;
  destruct (binary_cell_cases (bin_program_header r)) as [E3|E3]; auto;
  rewrite E1, E2, E3; vm_compute; split; congruence.
Qed.

Lemma select_rows (lbl : Z) (rows : list bin_row) :
  select lbl (map row_label rows) (map row_pattern rows)
  = map row_pattern (filter (fun r => row_label r =? lbl) rows).
Proof.
  unfold select; induction rows as [|r rows IH]; [reflexivity|].
  cbn [map combine filter fst snd].
  destruct (row_label r =? lbl); cbn [map snd]; now rewrite IH.
Qed.

Lemma count_of_rows (lbl : Z) (p : nat) (rows : list bin_row) :
  Np.count_of (Z.of_nat p) (map row_pattern (filter (fun r => row_label r =? lbl) rows))
  = cnt lbl p rows.
Proof.
  unfold Np.count_of, cnt; f_equal.
  induction rows as [|r rows IH]; [reflexivity|].
  cbn [filter map]; destruct (row_label r =? lbl); cbn [filter map andb]; [|exact IH].
  rewrite (Z.eqb_sym (Z.of_nat p)); destruct (row_pattern r =? Z.of_nat p);
    cbn [length]; now rewrite IH.
Qed.

Lemma amax_bound (xs : list Z) (b : Z) :
  -1 <= b -> Forall (fun x => x <= b) xs -> Np.amax xs <= b.
Proof.
  intros Hb H; induction H as [|x xs Hx _ IH]; cbn; [exact Hb|].
  fold (Np.amax xs); lia.
Qed.

Lemma bincount_in_range (xs : list Z) :
  Forall (fun x => 0 <= x < 8) xs ->
  Np.bincount xs 8 = Ok (map (fun i => Np.count_of (Z.of_nat i) xs) (seq 0 8)).
Proof.
  intro H; unfold Np.bincount.
  assert (Hneg : existsb (fun x => x <? 0) xs = false).
  { apply not_true_is_false; intro E; apply existsb_exists in E as (x & Hin & Hx).
    rewrite Forall_forall in H; specialize (H x Hin); lia. }
  rewrite Hneg.
  assert (Hmax : Np.amax xs <= 7).
  { apply amax_bound; [lia|]. eapply Forall_impl; [|exact H]. cbn; lia. }
  assert (Hlow : -1 <= Np.amax xs).
  { clear; induction xs as [|x xs IH]; cbn; [lia|]. fold (Np.amax xs); lia. }
  replace (Nat.max 8 (Z.to_nat (Np.amax xs + 1))) with 8%nat by lia.
  reflexivity.
Qed.

Lemma add_cols_pair {A : Type} (f g : A -> Z) (l : list A) (c : hist) :
  length c = length l ->
  add_col 1 (add_col 0 c (map f l)) (map g l) = hist_add c (map (fun p => (f p, g p)) l).
Proof.
  revert c; induction l as [|p l IH]; intros [|[c0 c1] c] Hl; cbn in Hl; try discriminate;
    [reflexivity|].
  injection Hl as Hl; unfold hist_add in *; cbn [map add_col combine fst snd].
  cbn [Z.eqb]; now rewrite IH.
Qed.

Lemma add_col_length (lbl : Z) (c : hist) (h : list Z) :
  length (add_col lbl c h) = length c.
Proof.
  revert h; induction c as [|[c0 c1] c IH]; intros [|x h]; cbn; auto.
Qed.

Lemma add_col_zeros (lbl : Z) (c : hist) (n : nat) :
  add_col lbl c (repeat 0 n) = c.
Proof.
  revert n; induction c as [|[c0 c1] c IH]; intros [|n]; cbn [repeat add_col]; auto.
  rewrite IH; destruct (lbl =? 0); f_equal; f_equal; lia.
Qed.

Lemma count_of_nil (v : Z) : Np.count_of v [] = 0.
Proof. reflexivity. Qed.

(** One pass of the label loop adds the per-pattern counts of that label. *)
Lemma count_label_rows (c : hist) (lbl : Z) (rows : list bin_row) :
  length c = 8%nat ->
  Forall (fun r => finite_row r = true /\ binary_row r = true) rows ->
  count_label c lbl (map row_label rows) (map row_pattern rows)
  = Ok (add_col lbl c (map (fun p => cnt lbl p rows) (seq 0 8))).
Proof.
  intros Hc Hrows; unfold count_label; rewrite select_rows.
  assert (Hrange : Forall (fun x => 0 <= x < 8)
                     (map row_pattern (filter (fun r => row_label r =? lbl) rows))).
  { apply Forall_forall; intros x Hin; apply in_map_iff in Hin as (r & <- & Hin).
    apply filter_In in Hin as [Hin _]; rewrite Forall_forall in Hrows.
    destruct (Hrows r Hin); now apply binary_row_pattern. }
  pose proof (bincount_in_range _ Hrange) as Hbin.
  assert (Hcnt : map (fun i => Np.count_of (Z.of_nat i)
                       (map row_pattern (filter (fun r => row_label r =? lbl) rows))) (seq 0 8)
                 = map (fun p => cnt lbl p rows) (seq 0 8)).
  { apply map_ext; intro p; apply count_of_rows. }
  rewrite Hcnt in Hbin.
  destruct (map row_pattern (filter (fun r => row_label r =? lbl) rows)) as [|x xs] eqn:E.
  - rewrite <- Hcnt; cbn [map seq]; rewrite !count_of_nil.
    change [0; 0; 0; 0; 0; 0; 0; 0] with (repeat 0 8); now rewrite add_col_zeros.
  - rewrite Hbin; cbn [bind]; unfold add_column.
    rewrite length_map, length_seq, Hc; reflexivity.
Qed.

(** The whole loop adds the tally of the rows. *)
Lemma count_labels_rows (c : hist) (rows : list bin_row) :
  length c = 8%nat ->
  Forall (fun r => finite_row r = true /\ binary_row r = true) rows ->
  count_labels c (map row_label rows) (map row_pattern rows) = Ok (hist_add c (tally rows)).
Proof.
  intros Hc Hrows; unfold count_labels.
  rewrite (count_label_rows c 0 rows Hc Hrows); cbn [bind].
  rewrite count_label_rows; [|now rewrite add_col_length|exact Hrows].
  f_equal; unfold tally; apply add_cols_pair.
  now rewrite Hc, length_seq.
Qed.

Lemma count_labels_length (c c' : hist) (rows : list bin_row) :
  length c = 8%nat ->
  Forall (fun r => finite_row r = true /\ binary_row r = true) rows ->
  count_labels c (map row_label rows) (map row_pattern rows) = Ok c' ->
  length c' = 8%nat.
Proof.
  intros Hc Hrows E; rewrite count_labels_rows in E by assumption.
  injection E as <-; now rewrite hist_add_length, tally_length, Hc.
Qed.

(** ** The two aggregators compute the tally of the rows they keep *)

Lemma binary_stream_cons (b : batch) (bs : list batch) :
  binary_stream (b :: bs) = true ->
  Forall (fun r => binary_row r = true) b /\ binary_stream bs = true.
Proof.
  unfold binary_stream; cbn [forallb]; intro H; apply andb_true_iff in H as [Hb Hbs].
  split; [|exact Hbs]. apply Forall_forall; intros r Hin.
  rewrite forallb_forall in Hb; now apply Hb.
Qed.

Lemma binary_stream_app (a b : list batch) :
  binary_stream (a ++ b) = binary_stream a && binary_stream b.
Proof. unfold binary_stream; apply forallb_app. Qed.

Lemma binary_stream_concat (bs : list batch) :
  binary_stream bs = true -> Forall (fun r => binary_row r = true) (concat bs).
Proof.
  induction bs as [|b bs IH]; intro H; [constructor|].
  apply binary_stream_cons in H as [Hb Hbs]; cbn [concat].
  apply Forall_app; auto.
Qed.

Lemma kept_ok (f : bin_row -> bool) (b : batch) :
  (forall r, f r = true -> finite_row r = true) ->
  Forall (fun r => binary_row r = true) b ->
  Forall (fun r => finite_row r = true /\ binary_row r = true) (filter f b).
Proof.
  intros Hf Hb; apply Forall_forall; intros r Hin; apply filter_In in Hin as [Hin Hr].
  rewrite Forall_forall in Hb; split; auto.
Qed.

Lemma mask_finite (families : list string) (r : bin_row) :
  FindWeights.mask families r = true -> finite_row r = true.
Proof. unfold FindWeights.mask; intro H; now apply andb_true_iff in H as [H _]. Qed.

Lemma find_weights_scan_spec (families : list string) (bs : list batch) :
  forall st,
    length (FindWeights.counts st) = 8%nat ->
    binary_stream bs = true ->
    exists st',
      FindWeights.scan families st bs = Ok st' /\
      FindWeights.counts st'
      = hist_add (FindWeights.counts st) (tally (kept_rows families bs)) /\
      FindWeights.total_seen st'
      = FindWeights.total_seen st + Z.of_nat (length (concat bs)) /\
      FindWeights.total_kept st'
      = FindWeights.total_kept st + Z.of_nat (length (kept_rows families bs)).
Proof.
  unfold kept_rows; induction bs as [|b bs IH]; intros st Hlen Hbin.
  - exists st; cbn [FindWeights.scan concat filter length]; rewrite tally_nil.
    unfold zeros_8_2; rewrite hist_add_zeros by lia.
    repeat split; cbn; lia.
  - apply binary_stream_cons in Hbin as [Hb Hbs].
    cbn [FindWeights.scan concat]; rewrite filter_app, tally_app, !length_app.
    pose proof (kept_ok (FindWeights.mask families) b (mask_finite families) Hb) as Hok.
    unfold FindWeights.step.
    destruct (filter (FindWeights.mask families) b) as [|r kept] eqn:E.
    + cbn [bind].
      destruct (IH {| FindWeights.counts := FindWeights.counts st;
                      FindWeights.total_seen :=
                        FindWeights.total_seen st + Z.of_nat (length b);
                      FindWeights.total_kept := FindWeights.total_kept st |}
                   Hlen Hbs) as (st' & Hscan & Hc & Hs & Hk).
      cbn [FindWeights.counts FindWeights.total_seen FindWeights.total_kept] in *.
      exists st'; rewrite Hscan, Hc, Hs, Hk, tally_nil; unfold zeros_8_2.
      rewrite (hist_add_comm (repeat (0, 0) 8)), (hist_add_zeros (tally _)) by (cbn; lia).
      repeat split; cbn [length]; lia.
    + rewrite (count_labels_rows _ _ Hlen Hok); cbn [bind].
      match goal with |- context [FindWeights.scan _ ?s _] => set (st1 := s) end.
      assert (Hlen1 : length (FindWeights.counts st1) = 8%nat).
      { subst st1; cbn [FindWeights.counts].
        now rewrite hist_add_length, tally_length, Hlen. }
      destruct (IH st1 Hlen1 Hbs) as (st' & Hscan & Hc & Hs & Hk).
      subst st1; cbn [FindWeights.counts FindWeights.total_seen FindWeights.total_kept] in *.
      exists st'; rewrite Hscan, Hc, Hs, Hk, hist_add_assoc.
      repeat split; lia.
Qed.

Lemma dict_get_ok (d : list (string * hist)) (f : string) (h : hist) :
  dict_ok d -> Evaluate.dict_get d f = Some h -> length h = 8%nat.
Proof.
  unfold dict_ok; induction 1 as [|[k v] d Hkv _ IH]; cbn; [discriminate|].
  destruct (String.eqb k f); [intros [= <-]; exact Hkv|exact IH].
Qed.

Lemma dict_set_ok (d : list (string * hist)) (f : string) (h : hist) :
  dict_ok d -> length h = 8%nat -> dict_ok (Evaluate.dict_set d f h).
Proof.
  unfold dict_ok; induction 1 as [|[k v] d Hkv Hd IH]; intro Hh; cbn.
  - repeat constructor; exact Hh.
  - destruct (String.eqb k f); constructor; auto.
Qed.

Lemma count_family_ok (kept : batch) (d : list (string * hist)) (f : string) :
  Forall (fun r => finite_row r = true /\ binary_row r = true) kept ->
  dict_ok d ->
  exists d', Evaluate.count_family kept d f = Ok d' /\ dict_ok d'.
Proof.
  intros Hk Hd; unfold Evaluate.count_family.
  set (rows := filter (fun r => String.eqb (src_family r) f) kept).
  assert (Hrows : Forall (fun r => finite_row r = true /\ binary_row r = true) rows).
  { apply Forall_forall; intros r Hin; apply filter_In in Hin as [Hin _].
    rewrite Forall_forall in Hk; auto. }
  destruct rows as [|r rows'] eqn:E; [exists d; auto|].
  set (arr := match Evaluate.dict_get d f with Some a => a | None => zeros_8_2 end).
  assert (Harr : length arr = 8%nat).
  { subst arr; destruct (Evaluate.dict_get d f) eqn:G; [|reflexivity].
    eapply dict_get_ok; eauto. }
  rewrite (count_labels_rows _ _ Harr Hrows); cbn [bind].
  eexists; split; [reflexivity|].
  apply dict_set_ok; auto. now rewrite hist_add_length, tally_length, Harr.
Qed.

Lemma count_families_ok (kept : batch) (fs : list string) :
  Forall (fun r => finite_row r = true /\ binary_row r = true) kept ->
  forall d, dict_ok d ->
  exists d', Evaluate.count_families kept d fs = Ok d' /\ dict_ok d'.
Proof.
  intro Hk; induction fs as [|f fs IH]; intros d Hd; cbn [Evaluate.count_families].
  - exists d; auto.
  - destruct (count_family_ok kept d f Hk Hd) as (d1 & -> & Hd1); cbn [bind]; auto.
Qed.

Lemma scanner_filter_binary (family : option string) (bs : list batch) :
  binary_stream bs = true ->
  binary_stream (map (Evaluate.scanner_filter family) bs) = true.
Proof.
  unfold binary_stream; rewrite !forallb_forall; intros H b Hin.
  apply in_map_iff in Hin as (b0 & <- & Hin0); specialize (H b0 Hin0).
  rewrite forallb_forall in *; intros r Hr; apply H.
  unfold Evaluate.scanner_filter in Hr; destruct family as [f|]; auto.
  destruct (Evaluate.truthy (Some f)); auto.
  now apply filter_In in Hr as [Hr _].
Qed.

(** Labels equal to [lbl] among the kept rows. *)
Lemma label_count (lbl : Z) (rows : list bin_row) :
  length (filter (Z.eqb lbl) (map row_label rows))
  = length (filter (fun r => row_label r =? lbl) rows).
Proof.
  induction rows as [|r rows IH]; [reflexivity|]; cbn [map filter].
  rewrite (Z.eqb_sym lbl); destruct (row_label r =? lbl); cbn [length]; now rewrite IH.
Qed.

Lemma evaluate_scan_spec (by_family : bool) (bs : list batch) :
  forall st,
    length (Evaluate.counts_global st) = 8%nat ->
    dict_ok (Evaluate.counts_by_family st) ->
    binary_stream bs = true ->
    exists st',
      Evaluate.scan by_family st bs = Ok st' /\
      Evaluate.counts_global st'
      = hist_add (Evaluate.counts_global st) (tally (filter finite_row (concat bs))) /\
      Evaluate.n_pos st'
      = Evaluate.n_pos st
        + Z.of_nat (length (filter (fun r => row_label r =? 1)
                                   (filter finite_row (concat bs)))) /\
      Evaluate.n_neg st'
      = Evaluate.n_neg st
        + Z.of_nat (length (filter (fun r => row_label r =? 0)
                                   (filter finite_row (concat bs)))).
Proof.
  induction bs as [|b bs IH]; intros st Hlen Hd Hbin.
  - exists st; cbn [Evaluate.scan concat filter length]; rewrite tally_nil.
    unfold zeros_8_2; rewrite hist_add_zeros by lia.
    repeat split; cbn; lia.
  - apply binary_stream_cons in Hbin as [Hb Hbs].
    cbn [Evaluate.scan concat]; rewrite !filter_app, tally_app, !length_app.
    pose proof (kept_ok finite_row b (fun r H => H) Hb) as Hok.
    unfold Evaluate.step.
    destruct (filter finite_row b) as [|r kept] eqn:E.
    + cbn [bind].
      destruct (IH st Hlen Hd Hbs) as (st' & Hscan & Hc & Hp & Hn).
      exists st'; rewrite Hscan, Hc, Hp, Hn, tally_nil; unfold zeros_8_2.
      rewrite (hist_add_comm (repeat (0, 0) 8)), (hist_add_zeros (tally _)) by (cbn; lia).
      repeat split; cbn [length filter]; lia.
    + rewrite (count_labels_rows _ _ Hlen Hok); cbn [bind].
      assert (Hfam : exists d,
                 (if by_family
                  then Evaluate.count_families (r :: kept) (Evaluate.counts_by_family st)
                         (np_unique (map src_family (r :: kept)))
                  else Ok (Evaluate.counts_by_family st)) = Ok d /\ dict_ok d).
      { destruct by_family; [apply count_families_ok; auto|eauto]. }
      destruct Hfam as (d & -> & Hd'); cbn [bind].
      match goal with |- context [Evaluate.scan _ ?s _] => set (st1 := s) end.
      assert (Hlen1 : length (Evaluate.counts_global st1) = 8%nat).
      { subst st1; cbn [Evaluate.counts_global].
        now rewrite hist_add_length, tally_length, Hlen. }
      destruct (IH st1 Hlen1 Hd' Hbs) as (st' & Hscan & Hc & Hp & Hn).
      subst st1.
      cbn [Evaluate.counts_global Evaluate.n_pos Evaluate.n_neg] in *.
      exists st'; rewrite Hscan, Hc, Hp, Hn, hist_add_assoc, !label_count.
      repeat split; lia.
Qed.

Lemma hist_add_zeros_l (h : hist) : length h = 8%nat -> hist_add zeros_8_2 h = h.
Proof.
  intro H; rewrite hist_add_comm; unfold zeros_8_2; apply hist_add_zeros; lia.
Qed.

Lemma find_weights_aggregate_spec (families : list string) (bs : list batch) :
  binary_stream bs = true ->
  FindWeights.aggregate_counts families bs
  = Ok (tally (kept_rows families bs),
        Z.of_nat (length (concat bs)),
        Z.of_nat (length (kept_rows families bs))).
Proof.
  intro Hbin; unfold FindWeights.aggregate_counts.
  destruct (find_weights_scan_spec families bs FindWeights.init eq_refl Hbin)
    as (st & -> & Hc & Hs & Hk); cbn [bind].
  rewrite Hc, Hs, Hk; cbn [FindWeights.init FindWeights.counts FindWeights.total_seen
                            FindWeights.total_kept].
  now rewrite hist_add_zeros_l by apply tally_length.
Qed.

Lemma evaluate_aggregate_spec (family : option string) (by_family : bool)
  (bs : list batch) :
  binary_stream bs = true ->
  exists d,
    Evaluate.aggregate_counts family by_family bs
    = Ok (tally (eval_rows family bs), d,
          (Z.of_nat (length (filter (fun r => row_label r =? 1) (eval_rows family bs))),
           Z.of_nat (length (filter (fun r => row_label r =? 0) (eval_rows family bs))))).
Proof.
  intro Hbin; unfold Evaluate.aggregate_counts, eval_rows.
  destruct (evaluate_scan_spec by_family (map (Evaluate.scanner_filter family) bs)
              Evaluate.init eq_refl (Forall_nil _) (scanner_filter_binary family bs Hbin))
    as (st & -> & Hc & Hp & Hn); cbn [bind].
  exists (Evaluate.counts_by_family st); rewrite Hc, Hp, Hn.
  cbn [Evaluate.init Evaluate.counts_global Evaluate.n_pos Evaluate.n_neg].
  now rewrite hist_add_zeros_l by apply tally_length.
Qed.

Lemma filter_concat {A : Type} (f : A -> bool) (l : list (list A)) :
  filter f (concat l) = concat (map (filter f) l).
Proof.
  induction l as [|x l IH]; [reflexivity|]; cbn [concat map].
  now rewrite filter_app, IH.
Qed.

Lemma scanner_filter_concat (family : option string) (bs : list batch) :
  Evaluate.scanner_filter family (concat bs)
  = concat (map (Evaluate.scanner_filter family) bs).
Proof.
  unfold Evaluate.scanner_filter; destruct family as [f|].
  - destruct (Evaluate.truthy (Some f)); [apply filter_concat|].
    now rewrite map_id.
  - now rewrite map_id.
Qed.

Lemma kept_rows_app (families : list string) (a b : list batch) :
  kept_rows families (a ++ b) = kept_rows families a ++ kept_rows families b.
Proof. unfold kept_rows; now rewrite concat_app, filter_app. Qed.

Lemma kept_rows_one_batch (families : list string) (bs : list batch) :
  kept_rows families [concat bs] = kept_rows families bs.
Proof. unfold kept_rows; cbn [concat]; now rewrite app_nil_r. Qed.

Lemma eval_rows_app (family : option string) (a b : list batch) :
  eval_rows family (a ++ b) = eval_rows family a ++ eval_rows family b.
Proof. unfold eval_rows; now rewrite map_app, concat_app, filter_app. Qed.

Lemma eval_rows_one_batch (family : option string) (bs : list batch) :
  eval_rows family [concat bs] = eval_rows family bs.
Proof.
  unfold eval_rows; cbn [map concat]; now rewrite app_nil_r, scanner_filter_concat.
Qed.

Lemma binary_one_batch (bs : list batch) :
  binary_stream bs = true -> binary_stream [concat bs] = true.
Proof.
  intro H; unfold binary_stream; cbn [forallb]; rewrite andb_true_r.
  apply forallb_forall; intros r Hin.
  pose proof (binary_stream_concat bs H) as HF; rewrite Forall_forall in HF; auto.
Qed.

Lemma find_weights_hist_spec (families : list string) (bs : list batch) :
  binary_stream bs = true ->
  find_weights_hist families bs = Ok (tally (kept_rows families bs)).
Proof.
  intro H; unfold find_weights_hist; now rewrite find_weights_aggregate_spec.
Qed.

Lemma evaluate_hist_spec (family : option string) (by_family : bool) (bs : list batch) :
  binary_stream bs = true ->
  evaluate_hist family by_family bs = Ok (tally (eval_rows family bs)).
Proof.
  intro H; unfold evaluate_hist.
  now destruct (evaluate_aggregate_spec family by_family bs H) as (d & ->).
Qed.

(** ** C4: merging histograms *)

(** C4. For two streams [A] and [B] of rows whose present cells are bits,
    both aggregators succeed on [A], on [B] and on their concatenation, and
    the histogram of the concatenation, in either order and also when all
    rows arrive as one batch, is the elementwise sum of the histogram of
    [A] and the histogram of [B]. *)
Theorem histogram_merge_additive (families : list string) (family : option string)
  (by_family : bool) (A B : list batch) :
  binary_stream A = true ->
  binary_stream B = true ->
  exists ha hb ea eb,
    find_weights_hist families A = Ok ha /\
    find_weights_hist families B = Ok hb /\
    find_weights_hist families (A ++ B) = Ok (hist_add ha hb) /\
    find_weights_hist families (B ++ A) = Ok (hist_add ha hb) /\
    find_weights_hist families [concat (A ++ B)] = Ok (hist_add ha hb) /\
    evaluate_hist family by_family A = Ok ea /\
    evaluate_hist family by_family B = Ok eb /\
    evaluate_hist family by_family (A ++ B) = Ok (hist_add ea eb) /\
    evaluate_hist family by_family (B ++ A) = Ok (hist_add ea eb) /\
    evaluate_hist family by_family [concat (A ++ B)] = Ok (hist_add ea eb).
Proof.
  intros HA HB.
  assert (HAB : binary_stream (A ++ B) = true) by (rewrite binary_stream_app, HA, HB; auto).
  assert (HBA : binary_stream (B ++ A) = true) by (rewrite binary_stream_app, HA, HB; auto).
  pose proof (binary_one_batch _ HAB) as H1.
  exists (tally (kept_rows families A)), (tally (kept_rows families B)),
         (tally (eval_rows family A)), (tally (eval_rows family B)).
  rewrite !find_weights_hist_spec, !evaluate_hist_spec by assumption.
  rewrite kept_rows_one_batch, eval_rows_one_batch, !kept_rows_app, !eval_rows_app,
    !tally_app.
  rewrite (hist_add_comm (tally (kept_rows families B))),
    (hist_add_comm (tally (eval_rows family B))).
  repeat split; reflexivity.
Qed.

(** The theorem at [stream_A] and [stream_B]. *)
Lemma histogram_merge_additive_witness :
  exists ha hb ea eb,
    find_weights_hist [] stream_A = Ok ha /\
    find_weights_hist [] stream_B = Ok hb /\
    find_weights_hist [] (stream_A ++ stream_B) = Ok (hist_add ha hb) /\
    find_weights_hist [] (stream_B ++ stream_A) = Ok (hist_add ha hb) /\
    find_weights_hist [] [concat (stream_A ++ stream_B)] = Ok (hist_add ha hb) /\
    evaluate_hist None true stream_A = Ok ea /\
    evaluate_hist None true stream_B = Ok eb /\
    evaluate_hist None true (stream_A ++ stream_B) = Ok (hist_add ea eb) /\
    evaluate_hist None true (stream_B ++ stream_A) = Ok (hist_add ea eb) /\
    evaluate_hist None true [concat (stream_A ++ stream_B)] = Ok (hist_add ea eb).
Proof.
  apply (histogram_merge_additive [] None true stream_A stream_B); reflexivity.
Defined.

(** ** C9: the histogram counts every kept row once *)

Lemma filter_split_length {A : Type} (f : A -> bool) (l : list A) :
  (length (filter f l) + length (filter (fun x => negb (f x)) l) = length l)%nat.
Proof.
  induction l as [|x l IH]; [reflexivity|]; cbn [filter].
  destruct (f x); cbn [negb length]; lia.
Qed.

Lemma hist_total_one (r : bin_row) :
  finite_row r = true -> binary_row r = true -> hist_total (tally [r]) = 1.
Proof.
  intros Hf Hb.
  pose proof (binary_row_label r Hf Hb) as Hl.
  pose proof (binary_row_pattern r Hf Hb) as Hp.
  assert (Hp' : row_pattern r = 0 \/ row_pattern r = 1 \/ row_pattern r = 2 \/
                row_pattern r = 3 \/ row_pattern r = 4 \/ row_pattern r = 5 \/
                row_pattern r = 6 \/ row_pattern r = 7) by lia.
  unfold hist_total, tally, cnt; cbn [map seq filter].
  destruct Hl as [-> | ->];
    repeat (destruct Hp' as [-> | Hp']; [reflexivity|]); rewrite Hp'; reflexivity.
Qed.

Lemma hist_total_tally (rows : list bin_row) :
  Forall (fun r => finite_row r = true /\ binary_row r = true) rows ->
  hist_total (tally rows) = Z.of_nat (length rows).
Proof.
  induction 1 as [|r rows [Hf Hb] _ IH]; [reflexivity|].
  change (r :: rows) with ([r] ++ rows).
  rewrite tally_app, hist_total_add by reflexivity.
  rewrite hist_total_one, IH by assumption; rewrite length_app; cbn [length]; lia.
Qed.

Lemma label_split (rows : list bin_row) :
  Forall (fun r => finite_row r = true /\ binary_row r = true) rows ->
  Z.of_nat (length (filter (fun r => row_label r =? 1) rows))
  + Z.of_nat (length (filter (fun r => row_label r =? 0) rows))
  = Z.of_nat (length rows).
Proof.
  induction 1 as [|r rows [Hf Hb] _ IH]; [reflexivity|]; cbn [filter].
  destruct (binary_row_label r Hf Hb) as [-> | ->]; cbn [Z.eqb Pos.eqb length]; lia.
Qed.

(** C9. After aggregating a stream whose present labels and flags are bits,
    the counts of the histogram add up to the aggregator's kept count, which
    is the number of rows seen minus the rows its mask dropped; for the
    evaluation aggregator the counts add up to [n_pos + n_neg], the number
    of rows it kept. *)
Theorem histogram_count_conservation (families : list string) (family : option string)
  (by_family : bool) (bs : list batch) :
  binary_stream bs = true ->
  (exists counts seen kept,
     FindWeights.aggregate_counts families bs = Ok (counts, seen, kept) /\
     hist_total counts = kept /\
     seen = Z.of_nat (length (concat bs)) /\
     kept = seen - Z.of_nat (length (dropped_rows families bs))) /\
  (exists counts d n_pos n_neg,
     Evaluate.aggregate_counts family by_family bs = Ok (counts, d, (n_pos, n_neg)) /\
     hist_total counts = n_pos + n_neg /\
     n_pos + n_neg = Z.of_nat (length (eval_rows family bs))).
Proof.
  intro Hbin; split.
  - rewrite (find_weights_aggregate_spec families bs Hbin).
    do 3 eexists; split; [reflexivity|].
    assert (Hok : Forall (fun r => finite_row r = true /\ binary_row r = true)
                    (kept_rows families bs)).
    { apply kept_ok; [apply mask_finite|now apply binary_stream_concat]. }
    split; [now apply hist_total_tally|]. split; [reflexivity|].
    unfold dropped_rows, kept_rows.
    pose proof (filter_split_length (FindWeights.mask families) (concat bs)); lia.
  - destruct (evaluate_aggregate_spec family by_family bs Hbin) as (d & ->).
    do 4 eexists; split; [reflexivity|].
    assert (Hok : Forall (fun r => finite_row r = true /\ binary_row r = true)
                    (eval_rows family bs)).
    { apply kept_ok; [auto|].
      apply binary_stream_concat, scanner_filter_binary, Hbin. }
    rewrite (label_split _ Hok); split; [now apply hist_total_tally|reflexivity].
Qed.

(** The theorem at [stream_A ++ stream_B], which holds one dropped row. *)
Lemma histogram_count_conservation_witness :
  (exists counts seen kept,
     FindWeights.aggregate_counts [] (stream_A ++ stream_B) = Ok (counts, seen, kept) /\
     hist_total counts = kept /\
     seen = Z.of_nat (length (concat (stream_A ++ stream_B))) /\
     kept = seen - Z.of_nat (length (dropped_rows [] (stream_A ++ stream_B)))) /\
  (exists counts d n_pos n_neg,
     Evaluate.aggregate_counts None true (stream_A ++ stream_B)
     = Ok (counts, d, (n_pos, n_neg)) /\
     hist_total counts = n_pos + n_neg /\
     n_pos + n_neg = Z.of_nat (length (eval_rows None (stream_A ++ stream_B)))).
Proof.
  apply (histogram_count_conservation [] None true (stream_A ++ stream_B)); reflexivity.
Defined.

(** ** The metrics row of one threshold *)

(** A guarded division never raises. *)
Lemma guarded_truediv (a b : Z) :
  exists q,
    (if b =? 0 then Ok 0%Q else truediv a b) = Ok q /\
    (b = 0 -> q = 0%Q) /\
    (b <> 0 -> q = (inject_Z a / inject_Z b)%Q).
Proof.
  unfold truediv; destruct (b =? 0) eqn:E.
  - apply Z.eqb_eq in E; exists 0%Q; repeat split; auto; congruence.
  - apply Z.eqb_neq in E; eexists; repeat split; auto; congruence.
Qed.

Lemma masked_sum_ok (mask : list bool) (xs : list Z) :
  length mask = length xs -> masked_sum mask xs = Ok (zsum (masked mask xs)).
Proof. intro H; unfold masked_sum; now rewrite H, Nat.eqb_refl. Qed.

Lemma zsum_nonneg (xs : list Z) : Forall (fun x => 0 <= x) xs -> 0 <= zsum xs.
Proof.
  induction 1 as [|x xs Hx _ IH]; cbn [zsum fold_right]; [lia|].
  fold (zsum xs); lia.
Qed.

Lemma masked_bounds (mask : list bool) (xs : list Z) :
  Forall (fun x => 0 <= x) xs -> 0 <= zsum (masked mask xs) <= zsum xs.
Proof.
  intro H; revert mask; induction H as [|x xs Hx Hxs IH]; intros [|m mask];
    cbn [masked zsum fold_right]; try lia.
  - fold (zsum xs); pose proof (zsum_nonneg xs Hxs); lia.
  - specialize (IH mask); fold (zsum xs) in *.
    destruct m; cbn [zsum fold_right]; fold (zsum (masked mask xs)); lia.
Qed.

(** The row of [eval_threshold], field by field. *)
Lemma eval_threshold_ok (s : list Q) (counts : hist) (thr : Q) :
  length s = length counts ->
  exists row,
    Evaluate.eval_threshold s counts thr = Ok row /\
    Evaluate.threshold row = thr /\
    Evaluate.tp row
    = zsum (masked (map (fun sc => Qle_bool thr sc) s) (map snd counts)) /\
    Evaluate.fp row
    = zsum (masked (map (fun sc => Qle_bool thr sc) s) (map fst counts)) /\
    Evaluate.fn row = zsum (map snd counts) - Evaluate.tp row /\
    Evaluate.tn row = zsum (map fst counts) - Evaluate.fp row /\
    Evaluate.sample_pos row = zsum (map snd counts) /\
    Evaluate.sample_neg row = zsum (map fst counts) /\
    Evaluate.youdenJ row = (Evaluate.tpr row - Evaluate.fpr row)%Q /\
    degrades_to_zero row.
Proof.
  intro Hlen; unfold Evaluate.eval_threshold.
  rewrite !masked_sum_ok by (now rewrite !length_map); cbn [bind].
  set (tp := zsum (masked _ (map snd counts))).
  set (fp := zsum (masked _ (map fst counts))).
  set (total_pos := zsum (map snd counts)).
  set (total_neg := zsum (map fst counts)).
  destruct (guarded_truediv tp total_pos) as (tpr & -> & Htpr & _).
  destruct (guarded_truediv fp total_neg) as (fpr & -> & Hfpr & _).
  destruct (guarded_truediv tp (tp + fp)) as (prec & -> & Hprec & _).
  destruct (guarded_truediv (total_neg - fp) total_neg) as (spec & -> & Hspec & _).
  destruct (guarded_truediv (tp + (total_neg - fp)) (total_pos + total_neg))
    as (acc & -> & Hacc & _).
  destruct (guarded_truediv (2 * tp) (2 * tp + fp + (total_pos - tp)))
    as (f1 & -> & Hf1 & _).
  cbn [bind]; eexists; split; [reflexivity|].
  unfold degrades_to_zero.
  cbn [Evaluate.threshold Evaluate.tp Evaluate.fp Evaluate.tn Evaluate.fn Evaluate.tpr
       Evaluate.fpr Evaluate.precision Evaluate.specificity Evaluate.accuracy
       Evaluate.f1 Evaluate.youdenJ Evaluate.sample_pos Evaluate.sample_neg].
  repeat split; try reflexivity; intro H; clearbody tp fp total_pos total_neg;
    [apply Htpr|apply Hfpr|apply Hprec|apply Hspec|apply Hacc|apply Hf1]; lia.
Qed.

Lemma eval_thresholds_ok (s : list Q) (counts : hist) (thresholds : list Q) :
  length s = length counts ->
  exists rows,
    Evaluate.eval_thresholds_with s counts thresholds = Ok rows /\
    map Evaluate.threshold rows = thresholds /\
    Forall (fun row => Evaluate.eval_threshold s counts (Evaluate.threshold row) = Ok row)
           rows.
Proof.
  intro Hlen; induction thresholds as [|thr rest (rows & IH & Hthr & Hall)];
    cbn [Evaluate.eval_thresholds_with].
  - exists []; repeat split; constructor.
  - destruct (eval_threshold_ok s counts thr Hlen) as (row & E & Ht & _).
    rewrite E, IH; cbn [bind]; exists (row :: rows); cbn [map].
    rewrite Ht, Hthr; repeat split; constructor; [now rewrite Ht|exact Hall].
Qed.

Lemma metrics_at_threshold_ok (s : FindThreshold.sample) (thr : npfloat) :
  exists m,
    FindThreshold.metrics_at_threshold s thr = Ok m /\
    FindThreshold.threshold m = thr /\
    dict_degrades_to_zero m.
Proof.
  unfold FindThreshold.metrics_at_threshold; cbv zeta.
  set (tp := FindThreshold.count_where
               (fun yx => Np.gef (Fin (snd yx)) thr && (fst yx =? 1)) s).
  set (fp := FindThreshold.count_where
               (fun yx => Np.gef (Fin (snd yx)) thr && (fst yx =? 0)) s).
  set (tn := FindThreshold.count_where
               (fun yx => negb (Np.gef (Fin (snd yx)) thr) && (fst yx =? 0)) s).
  set (fn := FindThreshold.count_where
               (fun yx => negb (Np.gef (Fin (snd yx)) thr) && (fst yx =? 1)) s).
  destruct (guarded_truediv tp (tp + fn)) as (tpr & -> & Htpr & _).
  destruct (guarded_truediv fp (tn + fp)) as (fpr & -> & Hfpr & _).
  destruct (guarded_truediv tp (tp + fp)) as (prec & -> & Hprec & _).
  cbn [bind]; eexists; split; [reflexivity|]; split; [reflexivity|].
  exists tp, fp, tn, fn, tpr, fpr, prec.
  cbn [FindThreshold.tp FindThreshold.fp FindThreshold.tn FindThreshold.fn
       FindThreshold.tpr FindThreshold.fpr FindThreshold.precision].
  repeat split; auto.
Qed.

(** ** C8: degenerate metrics *)

(** C8. For every 8x2 histogram and every list of thresholds the metrics
    engine returns one row per threshold without raising, and in each row
    every rate among tpr, fpr, precision, specificity, accuracy and f1 is
    0.0 when its denominator is 0; the per-sample metrics of the threshold
    search likewise never raise and give 0.0 for tpr, fpr and precision on
    a zero denominator. *)
Theorem degenerate_metrics_total (counts : hist) (thresholds : list Q)
  (s : FindThreshold.sample) (thr : npfloat) :
  length counts = 8%nat ->
  (exists rows,
     Evaluate.eval_thresholds_from_counts counts thresholds = Ok rows /\
     map Evaluate.threshold rows = thresholds /\
     Forall degrades_to_zero rows) /\
  (exists m,
     FindThreshold.metrics_at_threshold s thr = Ok m /\ dict_degrades_to_zero m).
Proof.
  intro Hlen; split.
  - unfold Evaluate.eval_thresholds_from_counts.
    assert (Hs : length Evaluate.SCORES_BY_PATTERN = length counts) by now rewrite Hlen.
    destruct (eval_thresholds_ok _ counts thresholds Hs) as (rows & -> & Ht & Hall).
    exists rows; repeat split; auto.
    eapply Forall_impl; [|exact Hall]; cbn; intros row E.
    destruct (eval_threshold_ok _ counts (Evaluate.threshold row) Hs) as (row' & E' & H).
    rewrite E in E'; injection E' as <-; apply H.
  - destruct (metrics_at_threshold_ok s thr) as (m & E & _ & H); eauto.
Qed.

(** The theorem at the all-zero histogram and the empty sample, where every
    denominator is 0. *)
Lemma degenerate_metrics_total_witness :
  (exists rows,
     Evaluate.eval_thresholds_from_counts zeros_8_2 [0.5%Q; 2%Q] = Ok rows /\
     map Evaluate.threshold rows = [0.5%Q; 2%Q] /\
     Forall degrades_to_zero rows) /\
  (exists m,
     FindThreshold.metrics_at_threshold [] (Fin 0.5%Q) = Ok m /\ dict_degrades_to_zero m).
Proof.
  apply (degenerate_metrics_total zeros_8_2 [0.5%Q; 2%Q] [] (Fin 0.5%Q)); reflexivity.
Defined.

(** ** C10: the confusion counts partition the histogram *)

Lemma hist_total_columns (counts : hist) :
  hist_total counts = zsum (map snd counts) + zsum (map fst counts).
Proof.
  unfold hist_total; induction counts as [|[c0 c1] counts IH]; [reflexivity|].
  cbn [map zsum fold_right fst snd] in *; fold (zsum (map snd counts)) in *.
  fold (zsum (map fst counts)) in *.
  fold (zsum (map (fun r => fst r + snd r) counts)) in *; lia.
Qed.

Lemma hist_nonneg_columns (counts : hist) :
  hist_nonneg counts ->
  Forall (fun x => 0 <= x) (map fst counts) /\ Forall (fun x => 0 <= x) (map snd counts).
Proof.
  induction 1 as [|r counts [H0 H1] _ [IH0 IH1]]; split; cbn [map]; constructor; auto.
Qed.

(** C10. For every 8x2 histogram of counts and every threshold, the metrics
    row satisfies [tp + fn = sample_pos] and [fp + tn = sample_neg], where
    [sample_pos] and [sample_neg] are the sums of the label-1 and label-0
    columns; the four counts are non-negative and add up to the total count
    of the histogram. *)
Theorem confusion_counts_partition (counts : hist) (thr : Q) :
  length counts = 8%nat ->
  hist_nonneg counts ->
  exists row,
    Evaluate.eval_thresholds_from_counts counts [thr] = Ok [row] /\
    Evaluate.tp row + Evaluate.fn row = Evaluate.sample_pos row /\
    Evaluate.fp row + Evaluate.tn row = Evaluate.sample_neg row /\
    Evaluate.sample_pos row = zsum (map snd counts) /\
    Evaluate.sample_neg row = zsum (map fst counts) /\
    0 <= Evaluate.tp row /\ 0 <= Evaluate.fp row /\
    0 <= Evaluate.tn row /\ 0 <= Evaluate.fn row /\
    Evaluate.tp row + Evaluate.fp row + Evaluate.tn row + Evaluate.fn row
    = hist_total counts.
Proof.
  intros Hlen Hnn.
  assert (Hs : length Evaluate.SCORES_BY_PATTERN = length counts) by now rewrite Hlen.
  destruct (eval_threshold_ok _ counts thr Hs)
    as (row & E & _ & Htp & Hfp & Hfn & Htn & Hpos & Hneg & _).
  exists row; unfold Evaluate.eval_thresholds_from_counts.
  cbn [Evaluate.eval_thresholds_with]; rewrite E; cbn [bind].
  split; [reflexivity|].
  destruct (hist_nonneg_columns counts Hnn) as [H0 H1].
  pose proof (masked_bounds (map (fun sc => Qle_bool thr sc) Evaluate.SCORES_BY_PATTERN)
                _ H1) as B1.
  pose proof (masked_bounds (map (fun sc => Qle_bool thr sc) Evaluate.SCORES_BY_PATTERN)
                _ H0) as B0.
  rewrite <- Htp in B1; rewrite <- Hfp in B0.
  rewrite hist_total_columns, Hpos, Hneg, Hfn, Htn.
  repeat split; lia.
Qed.

(** The theorem at the histogram [{0: (100, 0), 7: (0, 50)}] and 0.5. *)
Lemma confusion_counts_partition_witness :
  exists row,
    Evaluate.eval_thresholds_from_counts scenario_hist [0.5%Q] = Ok [row] /\
    Evaluate.tp row + Evaluate.fn row = Evaluate.sample_pos row /\
    Evaluate.fp row + Evaluate.tn row = Evaluate.sample_neg row /\
    Evaluate.sample_pos row = zsum (map snd scenario_hist) /\
    Evaluate.sample_neg row = zsum (map fst scenario_hist) /\
    0 <= Evaluate.tp row /\ 0 <= Evaluate.fp row /\
    0 <= Evaluate.tn row /\ 0 <= Evaluate.fn row /\
    Evaluate.tp row + Evaluate.fp row + Evaluate.tn row + Evaluate.fn row
    = hist_total scenario_hist.
Proof.
  apply (confusion_counts_partition scenario_hist 0.5%Q).
  - reflexivity.
  - unfold hist_nonneg; repeat constructor; cbn; lia.
Defined.

(** ** C1: the histogram is a sufficient statistic *)

Lemma Qle_bool_compat (t a b : Q) : (a == b)%Q -> Qle_bool t a = Qle_bool t b.
Proof.
  intro E; apply eq_true_iff_eq; rewrite !Qle_bool_iff; now rewrite E.
Qed.

(** A record's own score is the table entry of its pattern. *)
Lemma record_score_table (r : bin_row) :
  finite_row r = true -> binary_row r = true ->
  (record_score r == table_score (Z.to_nat (row_pattern r)))%Q.
Proof.
  unfold finite_row, binary_row, record_score, row_pattern; intros Hf Hb.
  repeat (apply andb_true_iff in Hf as [Hf ?]); repeat (apply andb_true_iff in Hb as [Hb ?]).
  destruct (binary_cell_cases (bin_string_minhash r)) as [E1|E1]; auto;
  destruct (binary_cell_cases (bin_code_regions r)) as [E2|E2]; auto;
  destruct (binary_cell_cases (bin_program_header r)) as [E3|E3]; auto;
  rewrite E1, E2, E3; vm_compute; reflexivity.
Qed.

Lemma masked_map {A : Type} (m : A -> bool) (g : A -> Z) (l : list A) :
  masked (map m l) (map g l) = map g (filter m l).
Proof.
  induction l as [|x l IH]; [reflexivity|]; cbn [map masked filter].
  destruct (m x); cbn [map]; now rewrite IH.
Qed.

Lemma zsum_map_add {A : Type} (f g : A -> Z) (l : list A) :
  zsum (map (fun x => f x + g x) l) = zsum (map f l) + zsum (map g l).
Proof.
  induction l as [|x l IH]; [reflexivity|]; cbn [map zsum fold_right] in *.
  fold (zsum (map f l)) (zsum (map g l)) (zsum (map (fun x => f x + g x) l)) in *; lia.
Qed.

Lemma zsum_indicator (c : bool) (z : Z) (L : list nat) :
  NoDup L ->
  zsum (map (fun p => if c && (z =? Z.of_nat p) then 1 else 0) L)
  = if c && existsb (fun p => z =? Z.of_nat p) L then 1 else 0.
Proof.
  induction 1 as [|p L Hnin Hnd IH]; cbn [map zsum fold_right existsb].
  - now rewrite andb_false_r.
  - fold (zsum (map (fun p => if c && (z =? Z.of_nat p) then 1 else 0) L)).
    rewrite IH; destruct c; cbn [andb]; [|reflexivity].
    destruct (z =? Z.of_nat p) eqn:E; cbn [orb]; [|lia].
    apply Z.eqb_eq in E; subst z.
    replace (existsb (fun q => Z.of_nat p =? Z.of_nat q) L) with false; [reflexivity|].
    symmetry; apply not_true_is_false; intro Hex.
    apply existsb_exists in Hex as (q & Hq & Heq); apply Z.eqb_eq in Heq.
    apply Nat2Z.inj in Heq; subst q; contradiction.
Qed.

(** Summing the cells of label [lbl] over a set of patterns counts the rows
    of that label whose pattern is in the set. *)
Lemma zsum_cnt (lbl : Z) (L : list nat) (rows : list bin_row) :
  NoDup L ->
  zsum (map (fun p => cnt lbl p rows) L)
  = Z.of_nat (length (filter (fun r => (row_label r =? lbl)
                                       && existsb (fun p => row_pattern r =? Z.of_nat p) L)
                             rows)).
Proof.
  intro Hnd; induction rows as [|r rows IH].
  - cbn [filter length]; induction L as [|p L IHL]; [reflexivity|].
    inversion Hnd; subst; cbn [map zsum fold_right] in *.
    fold (zsum (map (fun p => cnt lbl p []) L)); rewrite IHL by assumption; reflexivity.
  - assert (Hstep : forall p, cnt lbl p (r :: rows)
                     = (if (row_label r =? lbl) && (row_pattern r =? Z.of_nat p)
                        then 1 else 0) + cnt lbl p rows).
    { intro p; unfold cnt; cbn [filter].
      destruct ((row_label r =? lbl) && (row_pattern r =? Z.of_nat p)); cbn [length]; lia. }
    rewrite (map_ext _ _ Hstep), zsum_map_add, IH, zsum_indicator by assumption.
    cbn [filter].
    destruct ((row_label r =? lbl) && existsb (fun p => row_pattern r =? Z.of_nat p) L);
      cbn [length]; lia.
Qed.

Lemma existsb_filter_seq (m : nat -> bool) (z : Z) (n : nat) :
  0 <= z < Z.of_nat n ->
  existsb (fun p => z =? Z.of_nat p) (filter m (seq 0 n)) = m (Z.to_nat z).
Proof.
  intro Hlt; apply eq_true_iff_eq; rewrite existsb_exists; split.
  - intros (p & Hin & E); apply Z.eqb_eq in E; subst z; rewrite Nat2Z.id.
    now apply filter_In in Hin as [_ Hm].
  - intro Hm; exists (Z.to_nat z); split; [|apply Z.eqb_eq; lia].
    apply filter_In; split; [apply in_seq; lia|exact Hm].
Qed.

Lemma scores_as_table :
  Evaluate.SCORES_BY_PATTERN = map table_score (seq 0 8).
Proof. reflexivity. Qed.

(** The histogram side: the masked column sum of the tally. *)
Lemma masked_tally_count (thr : Q) (lbl : Z) (col : Z * Z -> Z) (rows : list bin_row) :
  (forall p, col (cnt 0 p rows, cnt 1 p rows) = cnt lbl p rows) ->
  Forall (fun r => finite_row r = true /\ binary_row r = true) rows ->
  zsum (masked (map (fun sc => Qle_bool thr sc) Evaluate.SCORES_BY_PATTERN)
               (map col (tally rows)))
  = Z.of_nat (length (filter (fun r => (row_label r =? lbl)
                                       && Qle_bool thr (record_score r)) rows)).
Proof.
  intros Hcol Hrows; rewrite scores_as_table; unfold tally; rewrite !map_map.
  rewrite (map_ext _ _ Hcol).
  rewrite (masked_map (fun p => Qle_bool thr (table_score p))).
  rewrite zsum_cnt by apply NoDup_filter, seq_NoDup.
  f_equal; f_equal; apply filter_ext_in; intros r Hin.
  rewrite Forall_forall in Hrows; destruct (Hrows r Hin) as [Hf Hb].
  f_equal.
  pose proof (binary_row_pattern r Hf Hb) as Hp.
  rewrite (existsb_filter_seq (fun p => Qle_bool thr (table_score p))) by (cbn; lia).
  symmetry; apply Qle_bool_compat, record_score_table; assumption.
Qed.

Lemma column_total_count (lbl : Z) (col : Z * Z -> Z) (rows : list bin_row) :
  (forall p, col (cnt 0 p rows, cnt 1 p rows) = cnt lbl p rows) ->
  Forall (fun r => finite_row r = true /\ binary_row r = true) rows ->
  zsum (map col (tally rows))
  = Z.of_nat (length (filter (fun r => row_label r =? lbl) rows)).
Proof.
  intros Hcol Hrows; unfold tally; rewrite map_map, (map_ext _ _ Hcol).
  rewrite zsum_cnt by apply seq_NoDup.
  f_equal; f_equal; apply filter_ext_in; intros r Hin.
  rewrite Forall_forall in Hrows; destruct (Hrows r Hin) as [Hf Hb].
  pose proof (binary_row_pattern r Hf Hb) as Hp.
  replace (existsb (fun p => row_pattern r =? Z.of_nat p) (seq 0 8)) with true;
    [now rewrite andb_true_r|].
  symmetry; apply existsb_exists; exists (Z.to_nat (row_pattern r)); split;
    [apply in_seq; lia|apply Z.eqb_eq; lia].
Qed.

(** The direct side: counting over the replayed sample. *)
Lemma count_where_replay (f : Z * Q -> bool) (rows : list bin_row) :
  FindThreshold.count_where f (replay rows)
  = Z.of_nat (length (filter (fun r => f (row_label r, record_score r)) rows)).
Proof.
  unfold FindThreshold.count_where, replay; f_equal.
  induction rows as [|r rows IH]; [reflexivity|]; cbn [map filter].
  destruct (f (row_label r, record_score r)); cbn [length]; now rewrite IH.
Qed.

Lemma filter_length_ext {A : Type} (f g : A -> bool) (l : list A) :
  (forall x, f x = g x) -> length (filter f l) = length (filter g l).
Proof. intro H; now rewrite (filter_ext _ _ H). Qed.

Lemma label_threshold_split (lbl : Z) (thr : Q) (rows : list bin_row) :
  Z.of_nat (length (filter (fun r => row_label r =? lbl) rows))
  = Z.of_nat (length (filter (fun r => (row_label r =? lbl)
                                       && Qle_bool thr (record_score r)) rows))
    + Z.of_nat (length (filter (fun r => negb (Qle_bool thr (record_score r))
                                         && (row_label r =? lbl)) rows)).
Proof.
  induction rows as [|r rows IH]; [reflexivity|]; cbn [filter].
  destruct (row_label r =? lbl), (Qle_bool thr (record_score r));
    cbn [andb negb length]; lia.
Qed.

Lemma metrics_at_threshold_counts (s : FindThreshold.sample) (thr : Q) :
  exists m,
    FindThreshold.metrics_at_threshold s (Fin thr) = Ok m /\
    FindThreshold.tp m
    = Some (FindThreshold.count_where
              (fun yx => Qle_bool thr (snd yx) && (fst yx =? 1)) s) /\
    FindThreshold.fp m
    = Some (FindThreshold.count_where
              (fun yx => Qle_bool thr (snd yx) && (fst yx =? 0)) s) /\
    FindThreshold.tn m
    = Some (FindThreshold.count_where
              (fun yx => negb (Qle_bool thr (snd yx)) && (fst yx =? 0)) s) /\
    FindThreshold.fn m
    = Some (FindThreshold.count_where
              (fun yx => negb (Qle_bool thr (snd yx)) && (fst yx =? 1)) s).
Proof.
  unfold FindThreshold.metrics_at_threshold; cbv zeta; cbn [Np.gef].
  set (tp := FindThreshold.count_where
               (fun yx => Qle_bool thr (snd yx) && (fst yx =? 1)) s).
  set (fp := FindThreshold.count_where
               (fun yx => Qle_bool thr (snd yx) && (fst yx =? 0)) s).
  set (tn := FindThreshold.count_where
               (fun yx => negb (Qle_bool thr (snd yx)) && (fst yx =? 0)) s).
  set (fn := FindThreshold.count_where
               (fun yx => negb (Qle_bool thr (snd yx)) && (fst yx =? 1)) s).
  destruct (guarded_truediv tp (tp + fn)) as (tpr & -> & _).
  destruct (guarded_truediv fp (tn + fp)) as (fpr & -> & _).
  destruct (guarded_truediv tp (tp + fp)) as (prec & -> & _).
  cbn [bind]; eexists; split; [reflexivity|].
  cbn [FindThreshold.tp FindThreshold.fp FindThreshold.tn FindThreshold.fn]; auto.
Qed.

(** C1. For every stream of records whose labels and flags are bits and for
    every threshold, the confusion counts that the metrics engine reads off
    the aggregated histogram (label-1 counts of the patterns scoring at
    least the threshold into tp, label-0 counts into fp, complements into
    fn and tn) are the counts obtained by scoring each kept record on its
    own with the same weights and comparing its score with the threshold. *)
Theorem sufficient_statistic (family : option string) (by_family : bool)
  (bs : list batch) (thr : Q) :
  binary_stream bs = true ->
  exists counts d totals row m,
    Evaluate.aggregate_counts family by_family bs = Ok (counts, d, totals) /\
    Evaluate.eval_thresholds_from_counts counts [thr] = Ok [row] /\
    FindThreshold.metrics_at_threshold (replay (eval_rows family bs)) (Fin thr) = Ok m /\
    FindThreshold.tp m = Some (Evaluate.tp row) /\
    FindThreshold.fp m = Some (Evaluate.fp row) /\
    FindThreshold.tn m = Some (Evaluate.tn row) /\
    FindThreshold.fn m = Some (Evaluate.fn row).
Proof.
  intro Hbin.
  destruct (evaluate_aggregate_spec family by_family bs Hbin) as (d & Hagg).
  set (rows := eval_rows family bs) in *.
  assert (Hok : Forall (fun r => finite_row r = true /\ binary_row r = true) rows).
  { apply kept_ok; [auto|]. apply binary_stream_concat, scanner_filter_binary, Hbin. }
  assert (Hs : length Evaluate.SCORES_BY_PATTERN = length (tally rows)) by reflexivity.
  destruct (eval_threshold_ok _ (tally rows) thr Hs)
    as (row & E & _ & Htp & Hfp & Hfn & Htn & _).
  destruct (metrics_at_threshold_counts (replay rows) thr)
    as (m & Em & Mtp & Mfp & Mtn & Mfn).
  exists (tally rows), d; eexists; exists row, m.
  split; [exact Hagg|].
  split; [unfold Evaluate.eval_thresholds_from_counts;
          cbn [Evaluate.eval_thresholds_with]; now rewrite E|].
  split; [exact Em|].
  rewrite (masked_tally_count thr 1 snd rows (fun p => eq_refl) Hok) in Htp.
  rewrite (masked_tally_count thr 0 fst rows (fun p => eq_refl) Hok) in Hfp.
  rewrite (column_total_count 1 snd rows (fun p => eq_refl) Hok) in Hfn.
  rewrite (column_total_count 0 fst rows (fun p => eq_refl) Hok) in Htn.
  rewrite Mtp, Mfp, Mtn, Mfn, !count_where_replay; cbn [fst snd].
  rewrite Hfn, Htn, Htp, Hfp.
  rewrite (label_threshold_split 1 thr rows), (label_threshold_split 0 thr rows).
  rewrite (filter_length_ext (fun r => Qle_bool thr (record_score r) && (row_label r =? 1))
             (fun r => (row_label r =? 1) && Qle_bool thr (record_score r)))
    by (intro; apply andb_comm).
  rewrite (filter_length_ext (fun r => Qle_bool thr (record_score r) && (row_label r =? 0))
             (fun r => (row_label r =? 0) && Qle_bool thr (record_score r)))
    by (intro; apply andb_comm).
  repeat split; f_equal; lia.
Qed.

(** The theorem at [stream_A ++ stream_B] and the threshold 0.5. *)
Lemma sufficient_statistic_witness :
  exists counts d totals row m,
    Evaluate.aggregate_counts None false (stream_A ++ stream_B) = Ok (counts, d, totals) /\
    Evaluate.eval_thresholds_from_counts counts [0.5%Q] = Ok [row] /\
    FindThreshold.metrics_at_threshold
      (replay (eval_rows None (stream_A ++ stream_B))) (Fin 0.5%Q) = Ok m /\
    FindThreshold.tp m = Some (Evaluate.tp row) /\
    FindThreshold.fp m = Some (Evaluate.fp row) /\
    FindThreshold.tn m = Some (Evaluate.tn row) /\
    FindThreshold.fn m = Some (Evaluate.fn row).
Proof.
  apply (sufficient_statistic None false (stream_A ++ stream_B) 0.5%Q); reflexivity.
Defined.

(** ** C2: the learned weights are normalized *)

Lemma clip0_nonneg (coef : list Q) : Forall (fun x => 0 <= x)%Q (clip0 coef).
Proof.
  unfold clip0; apply Forall_forall; intros x Hin.
  apply in_map_iff in Hin as (c & <- & _).
  destruct (Qle_bool 0 c) eqn:E; [now apply Qle_bool_iff|apply Qle_refl].
Qed.

Lemma clip0_length (coef : list Q) : length (clip0 coef) = length coef.
Proof. apply length_map. Qed.

Lemma qsum_nonneg (l : list Q) : Forall (fun x => 0 <= x)%Q l -> (0 <= qsum l)%Q.
Proof.
  induction 1 as [|x l Hx _ IH]; cbn [qsum fold_right]; [apply Qle_refl|].
  fold (qsum l); lra.
Qed.

Lemma qsum_const {A : Type} (c : Q) (l : list A) :
  (qsum (map (fun _ => c) l) == inject_Z (Z.of_nat (length l)) * c)%Q.
Proof.
  induction l as [|x l IH]; cbn [map qsum fold_right length].
  - cbn; ring.
  - fold (qsum (map (fun _ : A => c) l)); rewrite IH, Nat2Z.inj_succ.
    unfold Z.succ; rewrite inject_Z_plus; ring.
Qed.

Lemma qsum_scale (s : Q) (l : list Q) :
  (qsum (map (fun c => c / s) l) == qsum l / s)%Q.
Proof.
  induction l as [|x l IH]; cbn [map qsum fold_right].
  - unfold Qdiv; ring.
  - fold (qsum (map (fun c => (c / s)%Q) l)) (qsum l); rewrite IH; unfold Qdiv; ring.
Qed.

Lemma normalized_of_sum (w : list Q) :
  Forall (fun x => 0 <= x)%Q w -> (qsum w == 1)%Q -> normalized w.
Proof.
  intros Hnn Hsum; repeat split; auto.
  rewrite Hsum; vm_compute; discriminate.
Qed.

Lemma uniform_normalized {A : Type} (l : list A) :
  l <> [] ->
  normalized (map (fun _ => (1 / inject_Z (Z.of_nat (length l)))%Q) l).
Proof.
  intro Hne.
  assert (Hpos : (0 < inject_Z (Z.of_nat (length l)))%Q).
  { destruct l; [congruence|]. rewrite <- (Zlt_Qlt 0); cbn [length]; lia. }
  apply normalized_of_sum.
  - apply Forall_forall; intros x Hin; apply in_map_iff in Hin as (_ & <- & _).
    apply Qle_shift_div_l; [exact Hpos|lra].
  - rewrite qsum_const; field; lra.
Qed.

Lemma scaled_normalized (l : list Q) :
  Forall (fun x => 0 <= x)%Q l -> (0 < qsum l)%Q ->
  normalized (map (fun c => (c / qsum l)%Q) l).
Proof.
  intros Hnn Hpos; apply normalized_of_sum.
  - apply Forall_forall; intros x Hin; apply in_map_iff in Hin as (c & <- & Hc).
    rewrite Forall_forall in Hnn; specialize (Hnn c Hc).
    apply Qle_shift_div_l; [exact Hpos|lra].
  - rewrite qsum_scale; field; lra.
Qed.

Lemma map_const_repeat {A B : Type} (c : B) (l : list A) :
  map (fun _ => c) l = repeat c (length l).
Proof. induction l as [|x l IH]; [reflexivity|]; cbn; now rewrite IH. Qed.

Lemma find_weights_normalized (coef : list Q) :
  coef <> [] -> normalized (FindWeights.weights_of_coef coef).
Proof.
  intro Hne; unfold FindWeights.weights_of_coef.
  assert (Hne' : clip0 coef <> []).
  { intro E; apply Hne, length_zero_iff_nil; now rewrite <- clip0_length, E. }
  destruct (Qle_bool (qsum (clip0 coef)) 0) eqn:E.
  - now apply uniform_normalized.
  - apply scaled_normalized; [apply clip0_nonneg|].
    apply Qnot_le_lt; intro H; apply Qle_bool_iff in H; congruence.
Qed.

Lemma train_weights_normalized (coef : list Q) :
  coef <> [] -> normalized (TrainWeights.weights_of_coef coef).
Proof.
  intro Hne; unfold TrainWeights.weights_of_coef.
  assert (Hne' : clip0 coef <> []).
  { intro E; apply Hne, length_zero_iff_nil; now rewrite <- clip0_length, E. }
  destruct (Qle_bool (qsum (clip0 coef)) 0) eqn:E; cbn [negb].
  - now apply uniform_normalized.
  - apply scaled_normalized; [apply clip0_nonneg|].
    apply Qnot_le_lt; intro H; apply Qle_bool_iff in H; congruence.
Qed.

Lemma zero_sum_le (coef : list Q) :
  (qsum (clip0 coef) == 0)%Q -> Qle_bool (qsum (clip0 coef)) 0 = true.
Proof. intro H; apply Qle_bool_iff; rewrite H; apply Qle_refl. Qed.



(** ** C6: when the weight learner fails *)

Lemma append_row_X (d : FindWeights.design) (b : list Z) (lbl c : Z) :
  FindWeights.X (FindWeights.append_row d b lbl c) <> [].
Proof. cbn; destruct (FindWeights.X d); discriminate. Qed.

Lemma design_step_spec (counts : hist) (d : FindWeights.design) (p : nat) (r : Z * Z) :
  nth_error counts p = Some r ->
  exists d',
    FindWeights.design_step counts d p = Ok d' /\
    (FindWeights.X d' = [] <-> FindWeights.X d = [] /\ fst r <= 0 /\ snd r <= 0).
Proof.
  intro Hnth; unfold FindWeights.design_step, FindWeights.getrow.
  rewrite Hnth; destruct r as [c0 c1]; cbn [bind fst snd].
  eexists; split; [reflexivity|].
  destruct (0 <? c0) eqn:E0, (0 <? c1) eqn:E1;
    try apply Z.ltb_lt in E0; try apply Z.ltb_lt in E1;
    try apply Z.ltb_ge in E0; try apply Z.ltb_ge in E1.
  - split; [intro H; now apply append_row_X in H|lia].
  - split; [intro H; now apply append_row_X in H|lia].
  - split; [intro H; now apply append_row_X in H|lia].
  - tauto.
Qed.

Lemma design_loop_spec (counts : hist) (ps : list nat) :
  (forall p, In p ps -> (p < length counts)%nat) ->
  forall d,
  exists d',
    FindWeights.design_loop counts d ps = Ok d' /\
    (FindWeights.X d' = [] <->
     FindWeights.X d = [] /\
     forall p r, In p ps -> nth_error counts p = Some r -> fst r <= 0 /\ snd r <= 0).
Proof.
  induction ps as [|p ps IH]; intros Hin d; cbn [FindWeights.design_loop].
  - exists d; split; [reflexivity|]; split; [intro H; split; [exact H|intros ? ? []]|tauto].
  - destruct (nth_error counts p) as [r|] eqn:Hnth.
    2:{ apply nth_error_None in Hnth; specialize (Hin p (or_introl eq_refl)); lia. }
    destruct (design_step_spec counts d p r Hnth) as (d1 & -> & H1); cbn [bind].
    destruct (IH (fun q Hq => Hin q (or_intror Hq)) d1) as (d' & -> & H').
    exists d'; split; [reflexivity|]; rewrite H', H1; split.
    + intros [[Hd Hr] Hrest]; split; [exact Hd|].
      intros q r' [<- | Hq] Hq'; [congruence|eauto].
    + intros [Hd Hall]; split; [split; [exact Hd|]|].
      * apply (Hall p r); [now left|exact Hnth].
      * intros q r' Hq; apply Hall; now right.
Qed.

Lemma has_positive_cell_false (counts : hist) :
  has_positive_cell counts = false <->
  forall p r, nth_error counts p = Some r -> fst r <= 0 /\ snd r <= 0.
Proof.
  unfold has_positive_cell; split.
  - intros H p r Hnth; apply nth_error_In in Hnth.
    destruct (Z.ltb_spec 0 (fst r)) as [H0|H0], (Z.ltb_spec 0 (snd r)) as [H1|H1];
      try lia; exfalso;
      (assert (existsb (fun r => (0 <? fst r) || (0 <? snd r)) counts = true);
       [apply existsb_exists; exists r; split; [exact Hnth|]|congruence]);
      apply orb_true_iff; rewrite !Z.ltb_lt; auto.
  - intro H; apply not_true_is_false; intro Hex.
    apply existsb_exists in Hex as (r & Hin & Hr).
    apply In_nth_error in Hin as (p & Hp); specialize (H p r Hp).
    apply orb_true_iff in Hr; rewrite !Z.ltb_lt in Hr; lia.
Qed.

Lemma build_weighted_design_spec (counts : hist) :
  length counts = 8%nat ->
  if has_positive_cell counts
  then exists d, FindWeights.build_weighted_design counts = Ok d /\ FindWeights.X d <> []
  else FindWeights.build_weighted_design counts = Raise RuntimeError.
Proof.
  intro Hlen; unfold FindWeights.build_weighted_design.
  destruct (design_loop_spec counts (seq 0 8)
              (fun p Hp => ltac:(apply in_seq in Hp; lia))
              {| FindWeights.X := []; FindWeights.y := []; FindWeights.w := [] |})
    as (d & -> & Hd); cbn [bind FindWeights.X] in *.
  assert (Hiff : FindWeights.X d = [] <-> has_positive_cell counts = false).
  { rewrite Hd, has_positive_cell_false; split.
    - intros [_ H] p r Hnth; apply (H p r); [|exact Hnth].
      apply in_seq; assert (p < length counts)%nat by (apply nth_error_Some; congruence); lia.
    - intro H; split; [reflexivity|]; intros p r _; apply H. }
  destruct (has_positive_cell counts).
  - exists d; destruct (FindWeights.X d) eqn:E.
    + destruct Hiff as [Hiff _]; specialize (Hiff eq_refl); discriminate.
    + split; [reflexivity|discriminate].
  - destruct Hiff as [_ Hiff]; now rewrite (Hiff eq_refl).
Qed.

Lemma zero_total_no_positive_cell (counts : hist) :
  hist_nonneg counts -> (hist_total counts = 0 <-> has_positive_cell counts = false).
Proof.
  intro Hnn; unfold hist_total, has_positive_cell.
  induction Hnn as [|[c0 c1] counts [H0 H1] Hnn IH];
    cbn [map zsum fold_right existsb fst snd] in *; [tauto|].
  fold (zsum (map (fun r => fst r + snd r) counts)) in *.
  assert (Hrest : 0 <= zsum (map (fun r => fst r + snd r) counts)).
  { apply zsum_nonneg, Forall_forall; intros x Hin.
    apply in_map_iff in Hin as (r & <- & Hr).
    unfold hist_nonneg in Hnn; rewrite Forall_forall in Hnn; specialize (Hnn r Hr); lia. }
  rewrite orb_false_iff, orb_false_iff, !Z.ltb_ge, <- IH; lia.
Qed.

Lemma design_loop_rows (counts : hist) (ps : list nat) :
  (forall p, In p ps -> (p < length counts)%nat) ->
  forall d,
  exists d',
    FindWeights.design_loop counts d ps = Ok d' /\
    FindWeights.X d'
    = FindWeights.X d ++ map (fun r => fst (fst r)) (flat_map (cell_rows counts) ps) /\
    FindWeights.y d'
    = FindWeights.y d ++ map (fun r => snd (fst r)) (flat_map (cell_rows counts) ps) /\
    FindWeights.w d' = FindWeights.w d ++ map snd (flat_map (cell_rows counts) ps).
Proof.
  induction ps as [|p ps IH]; intros Hin d;
    cbn [FindWeights.design_loop flat_map map].
  - exists d; now rewrite !app_nil_r.
  - destruct (nth_error counts p) as [[c0 c1]|] eqn:Hnth.
    2:{ apply nth_error_None in Hnth; specialize (Hin p (or_introl eq_refl)); lia. }
    unfold FindWeights.design_step, FindWeights.getrow, cell_rows at 1 3 5.
    rewrite Hnth; cbn [bind].
    match goal with
    | |- context [FindWeights.design_loop counts ?d0 ps] =>
        destruct (IH (fun q Hq => Hin q (or_intror Hq)) d0) as (d' & -> & HX & Hy & Hw)
    end.
    exists d'; split; [reflexivity|]; rewrite HX, Hy, Hw, !map_app.
    destruct (0 <? c0), (0 <? c1);
      cbn [FindWeights.append_row FindWeights.X FindWeights.y FindWeights.w
           map app fst snd];
      rewrite <- ?app_assoc; cbn [app]; repeat split; reflexivity.
Qed.

Lemma n_classes_two (ys : list Z) :
  In 0 ys -> In 1 ys -> (FindWeights.n_classes ys <? 2)%nat = false.
Proof.
  intros H0 H1; apply Nat.ltb_ge; unfold FindWeights.n_classes.
  change 2%nat with (length [0; 1]).
  apply NoDup_incl_length.
  - repeat constructor; cbn; intuition discriminate.
  - intros l [<- | [<- | []]]; now apply nodup_In.
Qed.

Lemma n_classes_one (ys : list Z) :
  Forall (fun l => l = 0 \/ l = 1) ys ->
  ~ In 0 ys \/ ~ In 1 ys -> (FindWeights.n_classes ys <? 2)%nat = true.
Proof.
  intros Hb Hmiss; apply Nat.ltb_lt; unfold FindWeights.n_classes.
  rewrite Forall_forall in Hb.
  assert (Hone : exists c, incl (nodup Z.eq_dec ys) [c]).
  { destruct Hmiss as [H | H]; [exists 1|exists 0];
      intros l Hl; apply nodup_In in Hl; destruct (Hb l Hl) as [-> | ->];
      solve [now left | contradiction]. }
  destruct Hone as (c & Hc).
  pose proof (NoDup_incl_length (NoDup_nodup Z.eq_dec ys) Hc) as Hlen.
  cbn [length] in Hlen; lia.
Qed.

Lemma design_labels (counts : hist) :
  length counts = 8%nat ->
  exists d,
    FindWeights.design_loop counts
      {| FindWeights.X := []; FindWeights.y := []; FindWeights.w := [] |} (seq 0 8)
    = Ok d /\
    Forall (fun l => l = 0 \/ l = 1) (FindWeights.y d) /\
    (In 0 (FindWeights.y d) <-> has_label0 counts = true) /\
    (In 1 (FindWeights.y d) <-> has_label1 counts = true).
Proof.
  intro Hlen.
  destruct (design_loop_rows counts (seq 0 8)
              (fun p Hp => ltac:(apply in_seq in Hp; lia))
              {| FindWeights.X := []; FindWeights.y := []; FindWeights.w := [] |})
    as (d & Hd & _ & Hy & _).
  cbn [FindWeights.y app] in Hy.
  exists d; split; [exact Hd|]; rewrite Hy.
  assert (Hrow : forall l,
            In l (map (fun r => snd (fst r)) (flat_map (cell_rows counts) (seq 0 8)))
            <-> exists c0 c1, In (c0, c1) counts /\
                              (l = 0 /\ 0 < c0 \/ l = 1 /\ 0 < c1)).
  { intro l; rewrite in_map_iff; split.
    - intros (r & Hl & Hr); apply in_flat_map in Hr as (p & _ & Hr).
      unfold cell_rows in Hr.
      destruct (nth_error counts p) as [[c0 c1]|] eqn:Hnth; [|contradiction].
      exists c0, c1; split; [eapply nth_error_In; eauto|].
      apply in_app_or in Hr as [Hr | Hr].
      + destruct (Z.ltb_spec 0 c0); [|contradiction].
        destruct Hr as [<- | []]; cbn in Hl; auto.
      + destruct (Z.ltb_spec 0 c1); [|contradiction].
        destruct Hr as [<- | []]; cbn in Hl; auto.
    - intros (c0 & c1 & Hin & Hl).
      apply In_nth_error in Hin as (p & Hp).
      assert (Hlt : (p < 8)%nat) by (rewrite <- Hlen; apply nth_error_Some; congruence).
      destruct Hl as [[-> H0] | [-> H1]].
      + exists (FindWeights.bits (Z.of_nat p), 0, c0); split; [reflexivity|].
        apply in_flat_map; exists p; split; [apply in_seq; lia|].
        unfold cell_rows; rewrite Hp; apply in_or_app; left.
        apply Z.ltb_lt in H0; rewrite H0; now left.
      + exists (FindWeights.bits (Z.of_nat p), 1, c1); split; [reflexivity|].
        apply in_flat_map; exists p; split; [apply in_seq; lia|].
        unfold cell_rows; rewrite Hp; apply in_or_app; right.
        apply Z.ltb_lt in H1; rewrite H1; now left. }
  split; [|split].
  - apply Forall_forall; intros l Hl; apply Hrow in Hl as (c0 & c1 & _ & Hl); tauto.
  - rewrite Hrow; unfold has_label0; rewrite existsb_exists; split.
    + intros (c0 & c1 & Hin & [[_ H] | [H _]]); [|discriminate].
      exists (c0, c1); split; [exact Hin|now apply Z.ltb_lt].
    + intros ([c0 c1] & Hin & H); apply Z.ltb_lt in H; cbn [fst] in H.
      exists c0, c1; auto.
  - rewrite Hrow; unfold has_label1; rewrite existsb_exists; split.
    + intros (c0 & c1 & Hin & [[H _] | [_ H]]); [discriminate|].
      exists (c0, c1); split; [exact Hin|now apply Z.ltb_lt].
    + intros ([c0 c1] & Hin & H); apply Z.ltb_lt in H; cbn [snd] in H.
      exists c0, c1; auto.
Qed.

Lemma positive_cell_labels (counts : hist) :
  has_positive_cell counts = has_label0 counts || has_label1 counts.
Proof.
  unfold has_positive_cell, has_label0, has_label1.
  induction counts as [|r counts IH]; cbn [existsb]; [reflexivity|].
  rewrite IH; destruct (0 <? fst r), (0 <? snd r),
    (existsb (fun r => 0 <? fst r) counts), (existsb (fun r => 0 <? snd r) counts);
    reflexivity.
Qed.

(** What [main] of [find_weights.py] does with a histogram, by the labels
    the histogram holds. *)
Lemma fit_weights_cases
  (lbfgs_fit : Z -> Q -> Z -> FindWeights.design -> result (list Q * Z))
  (counts : hist) (max_iter : Z) (C : Q) (random_state : Z) :
  length counts = 8%nat ->
  if has_positive_cell counts
  then exists d,
      FindWeights.build_weighted_design counts = Ok d /\
      FindWeights.X d <> [] /\
      (In 0 (FindWeights.y d) <-> has_label0 counts = true) /\
      (In 1 (FindWeights.y d) <-> has_label1 counts = true) /\
      FindWeights.fit_weights lbfgs_fit counts max_iter C random_state
      = if has_label0 counts && has_label1 counts
        then '(coef, n_iter) <- lbfgs_fit max_iter C random_state d ;;
             Ok (FindWeights.weights_of_coef coef)
        else Raise ValueError
  else FindWeights.build_weighted_design counts = Raise RuntimeError /\
       FindWeights.fit_weights lbfgs_fit counts max_iter C random_state
       = Raise RuntimeError.
Proof.
  intro Hlen.
  pose proof (build_weighted_design_spec counts Hlen) as Hb.
  destruct (design_labels counts Hlen) as (d0 & Hd0 & Hbin & H0 & H1).
  unfold FindWeights.fit_weights, FindWeights.fit_weights_aggregated, FindWeights.clf_fit.
  destruct (has_positive_cell counts).
  - destruct Hb as (d & Hd & HX).
    assert (d = d0) as ->.
    { unfold FindWeights.build_weighted_design in Hd; rewrite Hd0 in Hd; cbn [bind] in Hd.
      destruct (FindWeights.X d0); [discriminate|congruence]. }
    exists d0; split; [exact Hd|]; split; [exact HX|].
    split; [exact H0|]; split; [exact H1|].
    rewrite Hd; cbn [bind].
    destruct (has_label0 counts) eqn:E0, (has_label1 counts) eqn:E1; cbn [andb].
    + rewrite n_classes_two by tauto.
      destruct (lbfgs_fit max_iter C random_state d0) as [[coef n_iter]|e]; reflexivity.
    + rewrite n_classes_one; [reflexivity|exact Hbin|].
      right; intro H; apply H1 in H; discriminate.
    + rewrite n_classes_one; [reflexivity|exact Hbin|].
      left; intro H; apply H0 in H; discriminate.
    + rewrite n_classes_one; [reflexivity|exact Hbin|].
      left; intro H; apply H0 in H; discriminate.
  - rewrite Hb; cbn [bind]; auto.
Qed.

(** C6, as the code has it.  Fitting weights from an 8x2 histogram of counts
    raises the [RuntimeError] of [build_weighted_design] exactly when the
    total count is zero.  A histogram with a positive cell gives a non-empty
    design, but a weight vector only when records of both labels were
    counted: when every record has the same label, the logistic fit raises
    [ValueError] on the one-class design.  With both labels present the
    design is handed to the optimiser and the result is the weight vector of
    its coefficients; when the optimiser returns on such designs, fitting
    raises if and only if one of the two labels is absent. *)
Theorem empty_histogram_failure
  (lbfgs_fit : Z -> Q -> Z -> FindWeights.design -> result (list Q * Z))
  (counts : hist) (max_iter : Z) (C : Q) (random_state : Z) :
  length counts = 8%nat ->
  hist_nonneg counts ->
  (FindWeights.build_weighted_design counts = Raise RuntimeError
   <-> hist_total counts = 0) /\
  (hist_total counts = 0 ->
   FindWeights.fit_weights lbfgs_fit counts max_iter C random_state = Raise RuntimeError) /\
  (has_positive_cell counts = true ->
   exists d,
     FindWeights.build_weighted_design counts = Ok d /\
     FindWeights.X d <> [] /\
     (In 0 (FindWeights.y d) <-> has_label0 counts = true) /\
     (In 1 (FindWeights.y d) <-> has_label1 counts = true) /\
     (has_label0 counts && has_label1 counts = false ->
      FindWeights.fit_weights lbfgs_fit counts max_iter C random_state
      = Raise ValueError) /\
     (has_label0 counts && has_label1 counts = true ->
      FindWeights.fit_weights lbfgs_fit counts max_iter C random_state
      = ('(coef, n_iter) <- lbfgs_fit max_iter C random_state d ;;
         Ok (FindWeights.weights_of_coef coef)))) /\
  (fit_returns lbfgs_fit ->
   ((exists e, FindWeights.fit_weights lbfgs_fit counts max_iter C random_state = Raise e)
    <-> has_label0 counts && has_label1 counts = false) /\
   (has_label0 counts && has_label1 counts = true ->
    exists weights,
      FindWeights.fit_weights lbfgs_fit counts max_iter C random_state = Ok weights /\
      normalized weights)).
Proof.
  intros Hlen Hnn.
  pose proof (fit_weights_cases lbfgs_fit counts max_iter C random_state Hlen) as Hc.
  pose proof (zero_total_no_positive_cell counts Hnn) as Hz.
  pose proof (positive_cell_labels counts) as Hl.
  destruct (has_positive_cell counts).
  - destruct Hc as (d & Hd & HX & H0 & H1 & Hfit).
    assert (Hne : hist_total counts <> 0) by (intro H; apply Hz in H; discriminate).
    split; [rewrite Hd; split; [discriminate|contradiction]|].
    split; [contradiction|].
    split.
    { intros _; exists d; split; [exact Hd|]; split; [exact HX|].
      split; [exact H0|]; split; [exact H1|].
      split; intro E; rewrite E in Hfit; exact Hfit. }
    intro Hret.
    destruct (has_label0 counts && has_label1 counts) eqn:E.
    + apply andb_true_iff in E as [E0 E1].
      destruct (Hret max_iter C random_state d) as (coef & n_iter & Hco & Hlc);
        [now apply H0|now apply H1|].
      rewrite Hco in Hfit; cbn [bind] in Hfit.
      split; [split; [intros [e He]; congruence|discriminate]|].
      intros _; eexists; split; [exact Hfit|].
      apply find_weights_normalized; intro Ecoef; now rewrite Ecoef in Hlc.
    + split; [split; [reflexivity|intros _; eauto]|discriminate].
  - destruct Hc as (Hb & Hfit).
    assert (Hzero : hist_total counts = 0) by now apply Hz.
    symmetry in Hl; apply orb_false_iff in Hl as [-> _]; cbn [andb].
    split; [tauto|]; split; [auto|]; split; [discriminate|].
    intros _; split; [split; [reflexivity|intros _; eauto]|discriminate].
Qed.

Lemma constant_fit_returns (c0 c1 c2 : Q) : fit_returns (constant_fit [c0; c1; c2]).
Proof. intros max_iter C random_state d _ _; exists [c0; c1; c2], 1; auto. Qed.

(** The theorem at the scenario histogram, which holds both labels, with a
    constant optimiser. *)
Lemma empty_histogram_failure_witness :
  (FindWeights.build_weighted_design scenario_hist = Raise RuntimeError
   <-> hist_total scenario_hist = 0) /\
  (hist_total scenario_hist = 0 ->
   FindWeights.fit_weights (constant_fit [1%Q; 2%Q; 1%Q]) scenario_hist 400 1%Q 42
   = Raise RuntimeError) /\
  (has_positive_cell scenario_hist = true ->
   exists d,
     FindWeights.build_weighted_design scenario_hist = Ok d /\
     FindWeights.X d <> [] /\
     (In 0 (FindWeights.y d) <-> has_label0 scenario_hist = true) /\
     (In 1 (FindWeights.y d) <-> has_label1 scenario_hist = true) /\
     (has_label0 scenario_hist && has_label1 scenario_hist = false ->
      FindWeights.fit_weights (constant_fit [1%Q; 2%Q; 1%Q]) scenario_hist 400 1%Q 42
      = Raise ValueError) /\
     (has_label0 scenario_hist && has_label1 scenario_hist = true ->
      FindWeights.fit_weights (constant_fit [1%Q; 2%Q; 1%Q]) scenario_hist 400 1%Q 42
      = ('(coef, n_iter) <- constant_fit [1%Q; 2%Q; 1%Q] 400 1%Q 42 d ;;
         Ok (FindWeights.weights_of_coef coef)))) /\
  (fit_returns (constant_fit [1%Q; 2%Q; 1%Q]) ->
   ((exists e, FindWeights.fit_weights (constant_fit [1%Q; 2%Q; 1%Q]) scenario_hist
                 400 1%Q 42 = Raise e)
    <-> has_label0 scenario_hist && has_label1 scenario_hist = false) /\
   (has_label0 scenario_hist && has_label1 scenario_hist = true ->
    exists weights,
      FindWeights.fit_weights (constant_fit [1%Q; 2%Q; 1%Q]) scenario_hist 400 1%Q 42
      = Ok weights /\
      normalized weights)).
Proof.
  apply (empty_histogram_failure (constant_fit [1%Q; 2%Q; 1%Q]) scenario_hist 400 1%Q 42).
  - reflexivity.
  - unfold hist_nonneg, scenario_hist; repeat constructor; cbn; lia.
Defined.

(** The learner as worded fails on [one_label_hist], whatever the optimiser
    does: the histogram has 100 records, and the fit raises [ValueError]. *)
Lemma one_label_histogram_raises :
  ~ exists lbfgs_fit, raises_only_when_empty lbfgs_fit one_label_hist.
Proof.
  intros (lbfgs_fit & _ & Hpos).
  destruct (Hpos eq_refl) as (weights & Hw).
  pose proof (fit_weights_cases lbfgs_fit one_label_hist 400 1%Q 42 eq_refl) as Hc.
  change (has_positive_cell one_label_hist) with true in Hc.
  destruct Hc as (d & _ & _ & _ & _ & Hfit).
  change (has_label0 one_label_hist && has_label1 one_label_hist) with false in Hfit.
  congruence.
Qed.

(** At the scenario histogram the learner returns the weights of the
    optimiser's coefficients. *)
Example fit_weights_scenario :
  FindWeights.fit_weights (constant_fit [1%Q; 2%Q; 1%Q]) scenario_hist 400 1%Q 42
  = Ok [1 / 4; 2 / 4; 1 / 4]%Q.
Proof. reflexivity. Qed.

(** ** Rounding to a binary format *)

Lemma rne_ge (q : Q) (z : Z) : (inject_Z z <= q)%Q -> z <= Fl.rne q.
Proof.
  intro H.
  assert (Hz : z <= Qfloor q).
  { rewrite <- (Qfloor_Z z); now apply Qfloor_resp_le. }
  unfold Fl.rne; destruct (q - inject_Z (Qfloor q) ?= 1 # 2)%Q; [|lia|lia].
  destruct (Z.even (Qfloor q)); lia.
Qed.

Lemma rne_le (q : Q) (z : Z) : (q <= inject_Z z)%Q -> Fl.rne q <= z.
Proof.
  intro H.
  pose proof (Qfloor_le q) as Hfl.
  assert (Hz : Qfloor q <= z).
  { rewrite <- (Qfloor_Z z); now apply Qfloor_resp_le. }
  assert (Hstrict : (inject_Z (Qfloor q) < q)%Q -> Qfloor q + 1 <= z).
  { intro Hlt; assert (Hqz : (inject_Z (Qfloor q) < inject_Z z)%Q) by lra.
    rewrite <- Zlt_Qlt in Hqz; lia. }
  unfold Fl.rne; destruct (q - inject_Z (Qfloor q) ?= 1 # 2)%Q eqn:E.
  - apply Qeq_alt in E; destruct (Z.even (Qfloor q)); [lia|]; apply Hstrict; lra.
  - lia.
  - apply Qgt_alt in E; apply Hstrict; lra.
Qed.

Lemma pow2_pos (e : Z) : (0 < 2 ^ e)%Q.
Proof. apply Qpower_0_lt; reflexivity. Qed.

Lemma pow2_add (a b : Z) : (2 ^ (a + b) == 2 ^ a * 2 ^ b)%Q.
Proof. apply Qpower_plus; discriminate. Qed.

Lemma pow2_inject (n : Z) : 0 <= n -> (2 ^ n == inject_Z (2 ^ n))%Q.
Proof. intro H; symmetry; apply (Zpower_Qpower 2 n H). Qed.

Lemma pow2_le (a b : Z) : a <= b -> (2 ^ a <= 2 ^ b)%Q.
Proof.
  intro H; replace b with (a + (b - a)) by lia.
  rewrite pow2_add, (pow2_inject (b - a)) by lia.
  pose proof (pow2_pos a) as Ha.
  assert (H1 : 1 <= 2 ^ (b - a)) by (apply (Z.pow_le_mono_r 2 0); lia).
  assert (H2 : (1 <= inject_Z (2 ^ (b - a)))%Q) by (now rewrite Zle_Qle in H1).
  nra.
Qed.

Lemma log2_lower (a : Q) :
  (0 < a)%Q -> (2 ^ (Z.log2 (Qnum a) - Z.log2 (Z.pos (Qden a)) - 1) <= a)%Q.
Proof.
  destruct a as [n d]; intro Ha; cbn [Qnum Qden].
  assert (Hn : 0 < n) by (unfold Qlt in Ha; cbn in Ha; lia).
  destruct (Z.log2_spec n Hn) as [Hln _].
  destruct (Z.log2_spec (Z.pos d) (Pos2Z.is_pos d)) as [_ Hld].
  pose proof (Z.log2_nonneg n) as H0n.
  pose proof (Z.log2_nonneg (Z.pos d)) as H0d.
  set (ln := Z.log2 n) in *; set (ld := Z.log2 (Z.pos d)) in *.
  replace (ln - ld - 1) with (ln + - (ld + 1)) by lia.
  rewrite pow2_add, Qpower_opp, (pow2_inject ln), (pow2_inject (ld + 1)) by lia.
  rewrite (Qmake_Qdiv n d).
  replace (Z.succ ld) with (ld + 1) in Hld by lia.
  assert (Hp : 0 < 2 ^ (ld + 1)) by (apply Z.pow_pos_nonneg; lia).
  change (inject_Z (2 ^ ln) * / inject_Z (2 ^ (ld + 1)))%Q
    with (inject_Z (2 ^ ln) / inject_Z (2 ^ (ld + 1)))%Q.
  apply Qle_shift_div_r; [rewrite <- (Zlt_Qlt 0); exact Hp|].
  assert (Hd : (0 < inject_Z (Z.pos d))%Q) by (rewrite <- (Zlt_Qlt 0); lia).
  setoid_replace (inject_Z n / inject_Z (Z.pos d) * inject_Z (2 ^ (ld + 1)))%Q
    with ((inject_Z n * inject_Z (2 ^ (ld + 1))) / inject_Z (Z.pos d))%Q
    by (field; lra).
  apply Qle_shift_div_l; [exact Hd|].
  rewrite <- !inject_Z_mult, <- Zle_Qle; nia.
Qed.

(** Above the subnormal range the significand has its full [prec] bits. *)
Lemma ulp_exponent_normal (prec emin : Z) (a : Q) :
  (0 < a)%Q -> emin < Fl.ulp_exponent prec emin a ->
  (2 ^ (prec - 1) <= a / 2 ^ Fl.ulp_exponent prec emin a)%Q.
Proof.
  intros Ha He; unfold Fl.ulp_exponent in *.
  set (e0 := Z.log2 (Qnum a) - Z.log2 (Z.pos (Qden a)) - prec) in *.
  pose proof (log2_lower a Ha) as Hlow.
  replace (Z.log2 (Qnum a) - Z.log2 (Z.pos (Qden a)) - 1) with ((prec - 1) + e0) in Hlow
    by (unfold e0; lia).
  rewrite pow2_add in Hlow.
  destruct (Qle_bool (2 ^ prec) (a / 2 ^ e0)) eqn:E.
  - rewrite Z.max_r in * by lia.
    apply Qle_bool_iff in E.
    apply Qle_shift_div_l; [apply pow2_pos|].
    rewrite pow2_add.
    pose proof (pow2_pos e0) as Hp0.
    assert (Ha0 : (2 ^ prec * 2 ^ e0 <= a)%Q).
    { apply (Qmult_le_r _ _ (/ 2 ^ e0)); [now apply Qinv_lt_0_compat|].
      setoid_replace (2 ^ prec * 2 ^ e0 * / 2 ^ e0)%Q with (2 ^ prec)%Q by (field; lra).
      exact E. }
    replace prec with ((prec - 1) + 1) in Ha0 at 1 by lia.
    rewrite pow2_add in Ha0.
    change (2 ^ 1)%Q with 2%Q in *.
    lra.
  - rewrite Z.max_r in * by lia.
    apply Qle_shift_div_l; [apply pow2_pos|exact Hlow].
Qed.

Lemma rnd_pos_value (prec emin : Z) (x : Q) :
  (0 < x)%Q ->
  Fl.rnd prec emin x
  = (inject_Z (Fl.rne (x / 2 ^ Fl.ulp_exponent prec emin x))
     * 2 ^ Fl.ulp_exponent prec emin x)%Q.
Proof.
  intro Hx; unfold Fl.rnd.
  destruct (Qeq_bool x 0) eqn:E; [apply Qeq_bool_iff in E; lra|].
  assert (Habs : Qabs x = x).
  { destruct x as [n d]; unfold Qlt in Hx; cbn in Hx.
    unfold Qabs; rewrite Z.abs_eq by lia; reflexivity. }
  rewrite Habs.
  assert (Hs : Z.sgn (Qnum x) = 1).
  { apply Z.sgn_pos; unfold Qlt in Hx; cbn in Hx; lia. }
  rewrite Hs, Z.mul_1_l; reflexivity.
Qed.

Lemma rnd_nonpos (prec emin : Z) (x : Q) : (x <= 0)%Q -> (Fl.rnd prec emin x <= 0)%Q.
Proof.
  intro Hx; unfold Fl.rnd.
  destruct (Qeq_bool x 0) eqn:E; [lra|].
  assert (Hneq : ~ (x == 0)%Q) by (intro H; apply Qeq_bool_iff in H; congruence).
  assert (Hneg : (x < 0)%Q) by lra.
  assert (Hs : Z.sgn (Qnum x) = -1).
  { apply Z.sgn_neg; destruct x as [n d]; unfold Qlt in Hneg; cbn in *; lia. }
  rewrite Hs.
  set (e := Fl.ulp_exponent prec emin (Qabs x)).
  pose proof (pow2_pos e) as He.
  assert (Hm : 0 <= Fl.rne (Qabs x / 2 ^ e)).
  { apply rne_ge; change (inject_Z 0) with 0%Q.
    apply Qle_shift_div_l; [exact He|].
    rewrite Qmult_0_l; apply Qabs_nonneg. }
  assert (Hq : (inject_Z (-1 * Fl.rne (Qabs x / 2 ^ e)) <= 0)%Q)
    by (change 0%Q with (inject_Z 0); rewrite <- Zle_Qle; lia).
  nra.
Qed.

Section Monotone.

Variables prec emin : Z.
Hypothesis prec_pos : 0 < prec.

(** A number of the format: [k * 2 ^ f] with [k] of at most [prec] bits and
    [f] not below the least exponent. *)
Variables k f : Z.
Hypothesis k_pos : 0 < k.
Hypothesis k_bits : k < 2 ^ prec.
Hypothesis f_min : emin <= f.

Lemma lower_exponent_strict (e : Z) :
  f < e -> (inject_Z k * 2 ^ f < 2 ^ (prec - 1) * 2 ^ e)%Q.
Proof.
  intro Hfe.
  rewrite <- pow2_add.
  assert (Hk : (inject_Z k < 2 ^ prec)%Q).
  { rewrite (pow2_inject prec) by lia; rewrite <- Zlt_Qlt; lia. }
  pose proof (pow2_pos f) as Hf.
  assert (H : (2 ^ prec * 2 ^ f <= 2 ^ (prec - 1 + e))%Q).
  { rewrite <- pow2_add; apply pow2_le; lia. }
  nra.
Qed.

Lemma scaled_integer (e : Z) :
  e <= f -> (inject_Z k * 2 ^ f == inject_Z (k * 2 ^ (f - e)) * 2 ^ e)%Q.
Proof.
  intro Hef.
  rewrite inject_Z_mult, <- (pow2_inject (f - e)) by lia.
  replace f with ((f - e) + e) at 1 by lia.
  rewrite pow2_add; ring.
Qed.

(** Rounding never crosses a number of the format, from either side. *)
Lemma rnd_ge (x : Q) :
  (inject_Z k * 2 ^ f <= x)%Q -> (inject_Z k * 2 ^ f <= Fl.rnd prec emin x)%Q.
Proof.
  intro Hy.
  pose proof (pow2_pos f) as Hf.
  assert (Hk : (0 < inject_Z k)%Q) by (rewrite <- (Zlt_Qlt 0); exact k_pos).
  assert (Hx : (0 < x)%Q) by nra.
  rewrite (rnd_pos_value prec emin x Hx).
  set (e := Fl.ulp_exponent prec emin x).
  pose proof (pow2_pos e) as He.
  destruct (Z.le_gt_cases e f) as [Hef | Hfe].
  - rewrite (scaled_integer e Hef) in *.
    apply Qmult_le_r; [exact He|].
    rewrite <- Zle_Qle; apply rne_ge.
    apply Qle_shift_div_l; [exact He|exact Hy].
  - assert (Hn : (2 ^ (prec - 1) <= x / 2 ^ e)%Q)
      by (apply ulp_exponent_normal; [exact Hx|fold e; lia]).
    rewrite (pow2_inject (prec - 1)) in Hn by lia.
    apply rne_ge in Hn; rewrite Zle_Qle in Hn.
    pose proof (lower_exponent_strict e Hfe) as Hlow.
    rewrite (pow2_inject (prec - 1)) in Hlow by lia.
    nra.
Qed.

Lemma rnd_le_pos (x : Q) :
  (0 < x)%Q ->
  (x <= inject_Z k * 2 ^ f)%Q -> (Fl.rnd prec emin x <= inject_Z k * 2 ^ f)%Q.
Proof.
  intros Hx Hy.
  rewrite (rnd_pos_value prec emin x Hx).
  set (e := Fl.ulp_exponent prec emin x).
  pose proof (pow2_pos e) as He.
  destruct (Z.le_gt_cases e f) as [Hef | Hfe].
  - rewrite (scaled_integer e Hef) in *.
    apply Qmult_le_r; [exact He|].
    rewrite <- Zle_Qle; apply rne_le.
    apply Qle_shift_div_r; [exact He|exact Hy].
  - exfalso.
    assert (Hn : (2 ^ (prec - 1) <= x / 2 ^ e)%Q)
      by (apply ulp_exponent_normal; [exact Hx|fold e; lia]).
    pose proof (lower_exponent_strict e Hfe) as Hlow.
    assert (Hx' : (2 ^ (prec - 1) * 2 ^ e <= x)%Q).
    { apply (Qmult_le_r _ _ (/ 2 ^ e)); [now apply Qinv_lt_0_compat|].
      setoid_replace (2 ^ (prec - 1) * 2 ^ e * / 2 ^ e)%Q with (2 ^ (prec - 1))%Q
        by (field; lra).
      exact Hn. }
    lra.
Qed.

Lemma rnd_le (x : Q) :
  (x <= inject_Z k * 2 ^ f)%Q -> (Fl.rnd prec emin x <= inject_Z k * 2 ^ f)%Q.
Proof.
  intro Hy; destruct (Qlt_le_dec 0 x) as [Hx | Hx]; [now apply rnd_le_pos|].
  pose proof (rnd_nonpos prec emin x Hx) as H0.
  pose proof (pow2_pos f) as Hf.
  assert (Hk : (0 < inject_Z k)%Q) by (rewrite <- (Zlt_Qlt 0); exact k_pos).
  nra.
Qed.

End Monotone.

(** ** The flag of a value *)

Section Flag.

(** A threshold whose double is the [float32] number [k * 2 ^ f], and the
    [float32] number just below it. *)
Variables (tau below : Q) (k f : Z).
Hypothesis k_low : 1 < k.
Hypothesis k_bits : k < 2 ^ 24.
Hypothesis f_min : -149 <= f.
Hypothesis tau_value : (Fl.f64 tau == inject_Z k * 2 ^ f)%Q.
Hypothesis below_value : (below == inject_Z (k - 1) * 2 ^ f)%Q.
Hypothesis tau_small : (Fl.f64 tau < 2 ^ 128)%Q.

Lemma threshold_cast :
  (Fl.f32 (Fl.f64 tau) == Fl.f64 tau)%Q /\
  Np.float32 (Fin (Fl.f64 tau)) = Fin (Fl.f32 (Fl.f64 tau)).
Proof.
  pose proof (pow2_pos f) as Hf.
  assert (Hk : (1 < inject_Z k)%Q) by (rewrite <- (Zlt_Qlt 1); exact k_low).
  assert (Hpos : (0 < Fl.f64 tau)%Q) by (rewrite tau_value; nra).
  assert (Hge : (inject_Z k * 2 ^ f <= Fl.f32 (Fl.f64 tau))%Q).
  { apply (rnd_ge 24 (-149) eq_refl k f); [lia|exact k_bits|exact f_min|].
    apply Qle_lteq; right; symmetry; exact tau_value. }
  assert (Hle : (Fl.f32 (Fl.f64 tau) <= inject_Z k * 2 ^ f)%Q).
  { apply (rnd_le 24 (-149) eq_refl k f); [lia|exact k_bits|exact f_min|].
    apply Qle_lteq; right; exact tau_value. }
  assert (Heq : (Fl.f32 (Fl.f64 tau) == Fl.f64 tau)%Q)
    by (apply Qle_antisym; [rewrite tau_value at 2|rewrite tau_value at 1]; assumption).
  split; [exact Heq|].
  cbn [Np.float32]; unfold Fl.cast32.
  destruct (Qle_bool (2 ^ 128) (Qabs (Fl.f32 (Fl.f64 tau)))) eqn:E; [|reflexivity].
  apply Qle_bool_iff in E; rewrite Qabs_pos in E by lra; lra.
Qed.

Lemma flag_float32 (v : npfloat) : flag_of v (Fl.f64 tau) below (FindThreshold.flag v tau).
Proof.
  destruct threshold_cast as (Ht & Hcast).
  pose proof (pow2_pos f) as Hf.
  assert (Hk : (1 < inject_Z k)%Q) by (rewrite <- (Zlt_Qlt 1); exact k_low).
  assert (Hk1 : (inject_Z (k - 1) == inject_Z k - 1)%Q)
    by (unfold Zminus; rewrite inject_Z_plus; reflexivity).
  assert (Hbelow : (0 < below)%Q /\ (below < Fl.f64 tau)%Q)
    by (rewrite below_value, tau_value, Hk1; split; nra).
  unfold FindThreshold.flag; rewrite Hcast.
  destruct v as [q| | |]; cbn [flag_of Np.float32]; try reflexivity.
  unfold Fl.cast32; set (r := Fl.f32 q).
  split; [|split].
  - intro Hq.
    assert (Hr : (inject_Z k * 2 ^ f <= r)%Q)
      by (apply (rnd_ge 24 (-149) eq_refl k f); [lia|exact k_bits|exact f_min|];
          rewrite <- tau_value; exact Hq).
    destruct (Qle_bool (2 ^ 128) (Qabs r)).
    + assert (H0 : Qle_bool 0 r = true) by (apply Qle_bool_iff; nra).
      rewrite H0; reflexivity.
    + cbn [Np.gef bool_int8].
      assert (H1 : Qle_bool (Fl.f32 (Fl.f64 tau)) r = true)
        by (apply Qle_bool_iff; rewrite Ht, tau_value; exact Hr).
      rewrite H1; reflexivity.
  - intro Hq.
    assert (Hr : (r <= inject_Z (k - 1) * 2 ^ f)%Q)
      by (apply (rnd_le 24 (-149) eq_refl (k - 1) f); [lia|lia|exact f_min|];
          rewrite <- below_value; exact Hq).
    rewrite <- below_value in Hr.
    destruct (Qle_bool (2 ^ 128) (Qabs r)) eqn:E.
    + destruct (Qle_bool 0 r) eqn:E0; [|reflexivity].
      apply Qle_bool_iff in E, E0; rewrite Qabs_pos in E by exact E0; lra.
    + cbn [Np.gef bool_int8].
      destruct (Qle_bool (Fl.f32 (Fl.f64 tau)) r) eqn:E1; [|reflexivity].
      apply Qle_bool_iff in E1; lra.
  - intro Hq; fold r in Hq.
    destruct (Qle_bool (2 ^ 128) (Qabs r)) eqn:E.
    + apply Qle_bool_iff in E.
      destruct (Qle_bool 0 r) eqn:E0; cbn [Np.gef bool_int8].
      * apply Qle_bool_iff in E0; rewrite Qabs_pos in E by exact E0.
        assert (H1 : Qle_bool (Fl.f64 tau) q = true) by (apply Qle_bool_iff; lra).
        rewrite H1; reflexivity.
      * assert (Hneg : ~ (0 <= r)%Q) by (intro H; apply Qle_bool_iff in H; congruence).
        destruct (Qle_bool (Fl.f64 tau) q) eqn:E1; [|reflexivity].
        apply Qle_bool_iff in E1; lra.
    + cbn [Np.gef bool_int8].
      replace (Qle_bool (Fl.f32 (Fl.f64 tau)) r) with (Qle_bool (Fl.f64 tau) q);
        [reflexivity|].
      destruct (Qle_bool (Fl.f64 tau) q) eqn:E1, (Qle_bool (Fl.f32 (Fl.f64 tau)) r) eqn:E2;
        try reflexivity.
      * apply Qle_bool_iff in E1.
        assert (H : ~ (Fl.f32 (Fl.f64 tau) <= r)%Q)
          by (intro H; apply Qle_bool_iff in H; congruence).
        lra.
      * apply Qle_bool_iff in E2.
        assert (H : ~ (Fl.f64 tau <= q)%Q)
          by (intro H; apply Qle_bool_iff in H; congruence).
        lra.
Qed.

End Flag.

Lemma flag_sm_spec (v : npfloat) :
  flag_of v (Fl.f64 FindThreshold.TAU_SM) below_TAU_SM
          (FindThreshold.flag v FindThreshold.TAU_SM).
Proof.
  apply (flag_float32 FindThreshold.TAU_SM below_TAU_SM 9830400 (-26));
    try lia; vm_compute; reflexivity.
Qed.

Lemma flag_cr_spec (v : npfloat) :
  flag_of v (Fl.f64 FindThreshold.TAU_CR) below_TAU_CR
          (FindThreshold.flag v FindThreshold.TAU_CR).
Proof.
  apply (flag_float32 FindThreshold.TAU_CR below_TAU_CR 13384324 (-25));
    try lia; vm_compute; reflexivity.
Qed.

Lemma flag_ph_spec (v : npfloat) :
  flag_of v (Fl.f64 FindThreshold.TAU_PH) below_TAU_PH
          (FindThreshold.flag v FindThreshold.TAU_PH).
Proof.
  apply (flag_float32 FindThreshold.TAU_PH below_TAU_PH 13910312 (-24));
    try lia; vm_compute; reflexivity.
Qed.

(** The doubles that the three threshold literals denote are [float32]
    numbers, each one unit in the last place above its [below]. *)
Example tau_doubles :
  (Fl.f64 FindThreshold.TAU_SM == 75 # 512)%Q /\
  (Fl.f64 FindThreshold.TAU_CR == 3346081 # 8388608)%Q /\
  (Fl.f64 FindThreshold.TAU_PH == 1738789 # 2097152)%Q /\
  (Fl.f64 FindThreshold.TAU_SM - below_TAU_SM == 1 # 67108864)%Q /\
  (Fl.f64 FindThreshold.TAU_CR - below_TAU_CR == 1 # 33554432)%Q /\
  (Fl.f64 FindThreshold.TAU_PH - below_TAU_PH == 1 # 16777216)%Q.
Proof. repeat split; vm_compute; reflexivity. Qed.

(** ** The output directory of the binarizer *)

Lemma rows_on_disk_app (d e : Preprocess.dataset_dir) :
  Preprocess.rows_on_disk (d ++ e)
  = Preprocess.rows_on_disk d ++ Preprocess.rows_on_disk e.
Proof. unfold Preprocess.rows_on_disk; now rewrite map_app, concat_app. Qed.

Lemma rows_on_disk_filter (g : Preprocess.path * list bin_row -> bool)
  (d : Preprocess.dataset_dir) :
  (forall r, In r (Preprocess.rows_on_disk (filter g d)) ->
             In r (Preprocess.rows_on_disk d)) /\
  (length (Preprocess.rows_on_disk (filter g d))
   <= length (Preprocess.rows_on_disk d))%nat.
Proof.
  unfold Preprocess.rows_on_disk.
  induction d as [|[p rows] d [IHin IHlen]]; cbn [filter map concat]; [auto|].
  destruct (g (p, rows)); cbn [map concat snd]; split.
  - intros r Hr; apply in_app_or in Hr as [Hr | Hr]; apply in_or_app; auto.
  - rewrite !length_app; lia.
  - intros r Hr; apply in_or_app; auto.
  - rewrite length_app; lia.
Qed.

Lemma write_file_rows (d : Preprocess.dataset_dir) (p : Preprocess.path)
  (rows : list bin_row) :
  (forall r, In r (Preprocess.rows_on_disk (Preprocess.write_file d p rows)) ->
             In r (Preprocess.rows_on_disk d) \/ In r rows) /\
  (length (Preprocess.rows_on_disk (Preprocess.write_file d p rows))
   <= length (Preprocess.rows_on_disk d) + length rows)%nat.
Proof.
  unfold Preprocess.write_file; rewrite rows_on_disk_app.
  destruct (rows_on_disk_filter
              (fun f0 => negb (Preprocess.path_eqb (fst f0) p)) d) as (Hin & Hlen).
  assert (Hone : Preprocess.rows_on_disk [(p, rows)] = rows)
    by (unfold Preprocess.rows_on_disk; cbn; apply app_nil_r).
  rewrite Hone; split.
  - intros r Hr; apply in_app_or in Hr as [Hr | Hr]; auto.
  - rewrite length_app; lia.
Qed.

Lemma split_at_app (n : Z) (rows : list bin_row) :
  fst (Preprocess.split_at n rows) ++ snd (Preprocess.split_at n rows) = rows.
Proof.
  revert n; induction rows as [|r rows IH]; intro n; cbn [Preprocess.split_at];
    [reflexivity|].
  destruct (n <=? 0); [reflexivity|].
  specialize (IH (n - 1)); destruct (Preprocess.split_at (n - 1) rows) as [a b].
  cbn [fst snd app] in *; now rewrite IH.
Qed.

Lemma write_parts_rows (fuel : nat) :
  forall (d : Preprocess.dataset_dir) (fam : string) (i : nat) (rows : list bin_row),
    (forall r, In r (Preprocess.rows_on_disk (Preprocess.write_parts fuel d fam i rows)) ->
               In r (Preprocess.rows_on_disk d) \/ In r rows) /\
    (length (Preprocess.rows_on_disk (Preprocess.write_parts fuel d fam i rows))
     <= length (Preprocess.rows_on_disk d) + length rows)%nat.
Proof.
  induction fuel as [|fuel IH]; intros d fam i rows.
  - destruct rows; cbn [Preprocess.write_parts]; split; auto; lia.
  - destruct rows as [|r0 rows0]; [cbn [Preprocess.write_parts]; split; auto; lia|].
    cbn [Preprocess.write_parts].
    pose proof (split_at_app Preprocess.MAX_ROWS_PER_FILE (r0 :: rows0)) as Happ.
    destruct (Preprocess.split_at Preprocess.MAX_ROWS_PER_FILE (r0 :: rows0)) as [a b].
    cbn [fst snd] in Happ.
    destruct (IH (Preprocess.write_file d (fam, i) a) fam (S i) b) as (Hin & Hlen).
    destruct (write_file_rows d (fam, i) a) as (Hin1 & Hlen1).
    rewrite <- Happ; split.
    + intros r Hr; apply Hin in Hr as [Hr | Hr].
      * apply Hin1 in Hr as [Hr | Hr]; [auto|right; apply in_or_app; auto].
      * right; apply in_or_app; auto.
    + rewrite length_app; lia.
Qed.

Lemma disjoint_counts (fam : string) (fams : list string) (t : list bin_row) :
  ~ In fam fams ->
  (length (filter (fun r => String.eqb (src_family r) fam) t)
   + length (filter (fun r => isin (src_family r) fams) t)
   <= length (filter (fun r => isin (src_family r) (fam :: fams)) t))%nat.
Proof.
  intro Hnot; induction t as [|r t IH]; cbn [filter length]; [lia|].
  unfold isin in *; cbn [existsb] in *.
  destruct (String.eqb_spec (src_family r) fam) as [E | E]; cbn [orb].
  - destruct (existsb (String.eqb (src_family r)) fams) eqn:Ex.
    + exfalso; apply Hnot.
      apply existsb_exists in Ex as (x & Hx & Hxe).
      apply String.eqb_eq in Hxe; congruence.
    + cbn [length]; lia.
  - destruct (existsb (String.eqb (src_family r)) fams); cbn [length]; lia.
Qed.

Lemma write_groups_rows (t : list bin_row) (n : nat) (fams : list string) :
  NoDup fams ->
  forall d,
    let d' :=
      fold_left
        (fun d fam =>
           Preprocess.write_parts n d fam 0
             (filter (fun r => String.eqb (src_family r) fam) t)) fams d in
    (forall r, In r (Preprocess.rows_on_disk d') ->
               In r (Preprocess.rows_on_disk d) \/ In r t) /\
    (length (Preprocess.rows_on_disk d')
     <= length (Preprocess.rows_on_disk d)
        + length (filter (fun r => isin (src_family r) fams) t))%nat.
Proof.
  induction 1 as [|fam fams Hnot Hnd IH]; intro d; cbn [fold_left]; [split; auto; lia|].
  set (g := filter (fun r => String.eqb (src_family r) fam) t).
  destruct (write_parts_rows n d fam 0%nat g) as (Hin1 & Hlen1).
  destruct (IH (Preprocess.write_parts n d fam 0 g)) as (Hin & Hlen).
  pose proof (disjoint_counts fam fams t Hnot) as Hdis; fold g in Hdis.
  split.
  - intros r Hr; apply Hin in Hr as [Hr | Hr]; [|auto].
    apply Hin1 in Hr as [Hr | Hr]; [auto|].
    right; unfold g in Hr; now apply filter_In in Hr.
  - lia.
Qed.

Lemma filter_length_le {A : Type} (g : A -> bool) (l : list A) :
  (length (filter g l) <= length l)%nat.
Proof.
  induction l as [|x l IH]; cbn [filter length]; [lia|].
  destruct (g x); cbn [length]; lia.
Qed.

(** One call of [ds.write_dataset] adds rows of the table only, and no more
    rows than the table has. *)
Lemma write_dataset_rows (d : Preprocess.dataset_dir) (t : list bin_row) :
  (forall r, In r (Preprocess.rows_on_disk (Preprocess.write_dataset d t)) ->
             In r (Preprocess.rows_on_disk d) \/ In r t) /\
  (length (Preprocess.rows_on_disk (Preprocess.write_dataset d t))
   <= length (Preprocess.rows_on_disk d) + length t)%nat.
Proof.
  unfold Preprocess.write_dataset.
  destruct (write_groups_rows t (length t) (nodup string_dec (map src_family t))
              (NoDup_nodup _ _) d) as (Hin & Hlen).
  split; [exact Hin|].
  pose proof (filter_length_le
                (fun r => isin (src_family r) (nodup string_dec (map src_family t))) t).
  lia.
Qed.

(** A file of family [fam] that holds the row [r]. *)
Lemma write_file_new (d : Preprocess.dataset_dir) (p : Preprocess.path)
  (rows : list bin_row) :
  In (p, rows) (Preprocess.write_file d p rows).
Proof. unfold Preprocess.write_file; apply in_or_app; right; now left. Qed.

Lemma write_file_other (d : Preprocess.dataset_dir) (p q : Preprocess.path)
  (rows rs : list bin_row) :
  Preprocess.path_eqb q p = false ->
  In (q, rs) d -> In (q, rs) (Preprocess.write_file d p rows).
Proof.
  intros Hne Hin; unfold Preprocess.write_file; apply in_or_app; left.
  apply filter_In; split; [exact Hin|]; cbn [fst]; now rewrite Hne.
Qed.

Lemma path_eqb_other (fam fam' : string) (i j : nat) :
  fam' <> fam \/ (j < i)%nat -> Preprocess.path_eqb (fam', j) (fam, i) = false.
Proof.
  intros [H | H]; unfold Preprocess.path_eqb; cbn [fst snd].
  - apply String.eqb_neq in H; now rewrite H.
  - assert (E : Nat.eqb j i = false) by (apply Nat.eqb_neq; lia).
    rewrite E; apply andb_false_r.
Qed.

(** Writing the parts [i], [i + 1], ... of one family leaves alone the files
    of other families and the parts below [i]. *)
Lemma write_parts_other (fuel : nat) :
  forall (d : Preprocess.dataset_dir) (fam : string) (i : nat) (rows : list bin_row)
         (fam' : string) (j : nat) (rs : list bin_row),
    fam' <> fam \/ (j < i)%nat ->
    In ((fam', j), rs) d ->
    In ((fam', j), rs) (Preprocess.write_parts fuel d fam i rows).
Proof.
  induction fuel as [|fuel IH]; intros d fam i rows fam' j rs Hne Hin.
  - destruct rows; exact Hin.
  - destruct rows as [|r0 rows0]; [exact Hin|]; cbn [Preprocess.write_parts].
    destruct (Preprocess.split_at Preprocess.MAX_ROWS_PER_FILE (r0 :: rows0)) as [a b].
    apply IH; [destruct Hne; [left; assumption|right; lia]|].
    apply write_file_other; [now apply path_eqb_other|exact Hin].
Qed.

Lemma split_at_head (r0 : bin_row) (rows0 : list bin_row) :
  exists a', fst (Preprocess.split_at Preprocess.MAX_ROWS_PER_FILE (r0 :: rows0))
             = r0 :: a'.
Proof.
  cbn [Preprocess.split_at].
  change (Preprocess.MAX_ROWS_PER_FILE <=? 0) with false; cbv iota.
  destruct (Preprocess.split_at (Preprocess.MAX_ROWS_PER_FILE - 1) rows0) as [a b].
  now exists a.
Qed.

(** With fuel for every row, each row ends up in a file of the family. *)
Lemma write_parts_keeps (fuel : nat) :
  forall (d : Preprocess.dataset_dir) (fam : string) (i : nat) (rows : list bin_row)
         (r : bin_row),
    (length rows <= fuel)%nat ->
    In r rows ->
    exists j rs,
      In ((fam, j), rs) (Preprocess.write_parts fuel d fam i rows) /\ In r rs.
Proof.
  induction fuel as [|fuel IH]; intros d fam i rows r Hlen Hin.
  - destruct rows; [contradiction|cbn [length] in Hlen; lia].
  - destruct rows as [|r0 rows0]; [contradiction|]; cbn [Preprocess.write_parts].
    pose proof (split_at_app Preprocess.MAX_ROWS_PER_FILE (r0 :: rows0)) as Happ.
    destruct (split_at_head r0 rows0) as (a' & Ha).
    destruct (Preprocess.split_at Preprocess.MAX_ROWS_PER_FILE (r0 :: rows0)) as [a b].
    cbn [fst snd] in Happ, Ha; subst a.
    rewrite <- Happ in Hin, Hlen.
    apply in_app_or in Hin as [Hin | Hin].
    + exists i, (r0 :: a'); split; [|exact Hin].
      apply write_parts_other; [right; lia|apply write_file_new].
    + apply IH; [|exact Hin].
      rewrite length_app in Hlen; cbn [length] in Hlen; lia.
Qed.

Lemma write_groups_other (t : list bin_row) (n : nat) (fams : list string) :
  forall (d : Preprocess.dataset_dir) (fam' : string) (j : nat) (rs : list bin_row),
    ~ In fam' fams ->
    In ((fam', j), rs) d ->
    In ((fam', j), rs)
       (fold_left
          (fun d fam =>
             Preprocess.write_parts n d fam 0
               (filter (fun r => String.eqb (src_family r) fam) t)) fams d).
Proof.
  induction fams as [|fam fams IH]; intros d fam' j rs Hnot Hin; cbn [fold_left];
    [exact Hin|].
  apply IH; [intro H; apply Hnot; now right|].
  apply write_parts_other; [left; intro E; apply Hnot; now left|exact Hin].
Qed.

(** One call of [ds.write_dataset] leaves every row of the table in a file
    of its family. *)
Lemma write_dataset_keeps (d : Preprocess.dataset_dir) (t : list bin_row) (r : bin_row) :
  In r t -> In r (Preprocess.rows_on_disk (Preprocess.write_dataset d t)).
Proof.
  intro Hin; unfold Preprocess.write_dataset.
  assert (Hfam : In (src_family r) (nodup string_dec (map src_family t)))
    by (apply nodup_In; now apply in_map).
  pose proof (NoDup_nodup string_dec (map src_family t)) as Hnd.
  revert d Hfam Hnd; generalize (nodup string_dec (map src_family t)) as fams.
  intro fams; induction fams as [|fam fams IH]; intros d Hfam Hnd; [contradiction|].
  cbn [fold_left]; apply NoDup_cons_iff in Hnd as [Hnot Hnd].
  destruct (string_dec fam (src_family r)) as [E | E].
  - subst fam.
    destruct (write_parts_keeps (length t) d (src_family r) 0
                (filter (fun r0 => String.eqb (src_family r0) (src_family r)) t) r)
      as (j & rs & Hfile & Hr).
    { apply filter_length_le. }
    { apply filter_In; split; [exact Hin|apply String.eqb_refl]. }
    pose proof (write_groups_other t (length t) fams _ (src_family r) j rs Hnot Hfile)
      as Hkept.
    unfold Preprocess.rows_on_disk; apply in_concat; exists rs; split; [|exact Hr].
    apply in_map_iff; exists ((src_family r, j), rs); split; [reflexivity|exact Hkept].
  - apply IH; [destruct Hfam; [contradiction|assumption]|exact Hnd].
Qed.

(** The rows of the last batch are on disk when [process] returns. *)
Lemma process_last_batch (bs : list (list raw_row)) (b : list raw_row) (r : raw_row) :
  In r b -> Preprocess.mask_valid r = true ->
  In (Preprocess.binarize_row r)
     (Preprocess.rows_on_disk (Preprocess.files (Preprocess.process (bs ++ [b])))).
Proof.
  intros Hin Hm; unfold Preprocess.process.
  rewrite fold_left_app; cbn [fold_left].
  set (st := fold_left Preprocess.step bs _).
  assert (Hv : In r (filter Preprocess.mask_valid b)) by (apply filter_In; auto).
  unfold Preprocess.step.
  destruct (filter Preprocess.mask_valid b) as [|r0 valid] eqn:E; [contradiction|].
  cbn [Preprocess.files]; apply write_dataset_keeps; now apply in_map.
Qed.

Lemma process_fold (bs : list (list raw_row)) :
  forall st,
    let st' := fold_left Preprocess.step bs st in
    (forall row,
       In row (Preprocess.rows_on_disk (Preprocess.files st')) ->
       In row (Preprocess.rows_on_disk (Preprocess.files st))
       \/ In row (map Preprocess.binarize_row (filter Preprocess.mask_valid (concat bs)))) /\
    (Z.of_nat (length (Preprocess.rows_on_disk (Preprocess.files st')))
     - Z.of_nat (length (Preprocess.rows_on_disk (Preprocess.files st)))
     <= Preprocess.total_out st' - Preprocess.total_out st) /\
    Preprocess.total_in st'
    = Preprocess.total_in st + Z.of_nat (length (concat bs)) /\
    Preprocess.total_out st'
    = Preprocess.total_out st
      + Z.of_nat (length (filter Preprocess.mask_valid (concat bs))).
Proof.
  induction bs as [|b bs IH]; intro st; cbn [fold_left concat].
  - cbn [filter map length]; repeat split; auto; lia.
  - destruct (IH (Preprocess.step st b)) as (Hin & Hlen & Hi & Ho).
    cbv zeta; rewrite Hi, Ho, filter_app, map_app, !length_app.
    assert (Hstep :
      (forall row,
         In row (Preprocess.rows_on_disk (Preprocess.files (Preprocess.step st b))) ->
         In row (Preprocess.rows_on_disk (Preprocess.files st))
         \/ In row (map Preprocess.binarize_row (filter Preprocess.mask_valid b))) /\
      (Z.of_nat (length (Preprocess.rows_on_disk
                           (Preprocess.files (Preprocess.step st b))))
       - Z.of_nat (length (Preprocess.rows_on_disk (Preprocess.files st)))
       <= Preprocess.total_out (Preprocess.step st b) - Preprocess.total_out st) /\
      Preprocess.total_in (Preprocess.step st b)
      = Preprocess.total_in st + Z.of_nat (length b) /\
      Preprocess.total_out (Preprocess.step st b)
      = Preprocess.total_out st
        + Z.of_nat (length (filter Preprocess.mask_valid b))).
    { unfold Preprocess.step.
      destruct (filter Preprocess.mask_valid b) as [|r valid] eqn:E;
        cbn [Preprocess.files Preprocess.total_in Preprocess.total_out].
      - cbn [map length]; repeat split; auto; lia.
      - destruct (write_dataset_rows (Preprocess.files st)
                    (map Preprocess.binarize_row (r :: valid))) as (Hw & Hl).
        rewrite length_map in *; repeat split; auto; lia. }
    destruct Hstep as (Hin1 & Hlen1 & Hi1 & Ho1).
    split; [|split; [|split]]; try lia.
    intros row Hrow; apply Hin in Hrow as [Hrow | Hrow].
    + apply Hin1 in Hrow as [Hrow | Hrow]; [auto|right; apply in_or_app; auto].
    + right; apply in_or_app; auto.
Qed.

(** ** C7: what the binarizers drop and what they flag *)

Lemma scan_default_fold (bs : list (list raw_row)) :
  forall st,
    FindThreshold.acc (FindThreshold.scan 0 None st bs)
    = FindThreshold.acc st ++ map scored (filter FindThreshold.mask (concat bs)).
Proof.
  induction bs as [|b bs IH]; intro st; cbn [FindThreshold.scan concat].
  - cbn [filter map]; now rewrite app_nil_r.
  - unfold FindThreshold.step; rewrite filter_app, map_app.
    destruct (filter FindThreshold.mask b) as [|r kept] eqn:E.
    + rewrite IH; reflexivity.
    + change (negb (Qle_bool 0 0)) with false; cbv iota.
      rewrite IH; cbn [FindThreshold.acc]; now rewrite app_assoc.
Qed.

(** Under any subsampling and row cap, every scored entry comes from a row
    that passed the finiteness mask. *)
Lemma subsample_scores (ratio : Q) (l : list (Z * Q)) :
  forall st x,
    In x (map snd (FindThreshold.acc (fold_left (FindThreshold.subsample_step ratio) l st))) ->
    In x (map snd (FindThreshold.acc st)) \/ In x (map snd l).
Proof.
  induction l as [|[yi si] l IH]; intros st x Hin; cbn [fold_left] in Hin; [auto|].
  apply IH in Hin as [Hin | Hin]; [|right; now right].
  unfold FindThreshold.subsample_step in Hin.
  destruct (yi =? 1);
    [|destruct (negb (Qle_bool (inject_Z (FindThreshold.pos st) * ratio)
                         (inject_Z (FindThreshold.neg st))))];
    cbn [FindThreshold.acc] in Hin; auto;
    rewrite map_app in Hin; apply in_app_or in Hin as [Hin | [<- | []]]; auto;
    right; now left.
Qed.

Lemma scan_scores_masked (ratio : Q) (max_rows : option Z) (bs : list (list raw_row)) :
  forall st x,
    In x (map snd (FindThreshold.acc (FindThreshold.scan ratio max_rows st bs))) ->
    In x (map snd (FindThreshold.acc st))
    \/ In x (map FindThreshold.row_score (filter FindThreshold.mask (concat bs))).
Proof.
  induction bs as [|b bs IH]; intros st x Hin; cbn [FindThreshold.scan concat] in *; [auto|].
  rewrite filter_app, map_app.
  assert (Hstep : In x (map snd (FindThreshold.acc
                                   (fst (FindThreshold.step ratio max_rows st b)))) ->
                  In x (map snd (FindThreshold.acc st))
                  \/ In x (map FindThreshold.row_score (filter FindThreshold.mask b))).
  { unfold FindThreshold.step.
    destruct (filter FindThreshold.mask b) as [|r kept]; cbn [fst]; [auto|].
    set (rows := r :: kept).
    assert (Hsc : map snd (map (fun r0 => (cell_int8 (raw_label r0), FindThreshold.row_score r0))
                               rows)
                  = map FindThreshold.row_score rows) by (rewrite map_map; reflexivity).
    destruct (negb (Qle_bool ratio 0)); intro H.
    - apply subsample_scores in H; rewrite Hsc in H; exact H.
    - cbn [FindThreshold.acc] in H; rewrite map_app, Hsc in H.
      apply in_app_or in H; exact H. }
  destruct (FindThreshold.step ratio max_rows st b) as [st' stop]; cbn [fst] in Hstep.
  destruct stop.
  - destruct (Hstep Hin) as [H | H]; [auto|right; apply in_or_app; auto].
  - apply IH in Hin as [Hin | Hin]; [|right; apply in_or_app; auto].
    destruct (Hstep Hin) as [H | H]; [auto|right; apply in_or_app; auto].
Qed.

Lemma fill_clip_range (v : npfloat) : (0 <= TrainWeights.fill_clip v <= 1)%Q.
Proof.
  destruct v as [q| | |]; cbn [TrainWeights.fill_clip]; try lra.
  destruct (Qle_bool q 0) eqn:E0; [lra|].
  destruct (Qle_bool 1 q) eqn:E1; [lra|].
  assert (H0 : ~ (q <= 0)%Q) by (intro H; apply Qle_bool_iff in H; congruence).
  assert (H1 : ~ (1 <= q)%Q) by (intro H; apply Qle_bool_iff in H; congruence).
  lra.
Qed.



Example process_inf_row :
  Preprocess.files (Preprocess.process [[inf_row; nan_row; fin_row]])
  = [(("busybox"%string, 0%nat),
      [mk_row "busybox" (Some 1) (Some 1) (Some 1) (Some 1);
       mk_row "busybox" (Some 0) (Some 0) (Some 1) (Some 1)])].
Proof. vm_compute; reflexivity. Qed.

Example scan_inf_row :
  FindThreshold.scan_weighted_scores 0 None [[inf_row; nan_row; fin_row]]
  = [(0, FindThreshold.row_score fin_row)].
Proof. reflexivity. Qed.

(** The score of a row with both upper flags set is the [float32] nearest
    to the double [0.2946 + 0.0884]. *)
Example row_score_float32 :
  (FindThreshold.row_score fin_row == 12851347 # 33554432)%Q /\
  (FindThreshold.row_score fin_row < 0.383)%Q.
Proof. split; vm_compute; reflexivity. Qed.

Example load_frames_missing :
  map (fun row => (TrainWeights.PROGRAM_HEADER_VECTOR row,
                   TrainWeights.CODE_REGION_LIST row))
      (TrainWeights.load_frames [None; Some [missing_comparison]])
  = [(0%Q, 0.5%Q)].
Proof. reflexivity. Qed.

(** A second batch of a family replaces the file the first batch wrote for
    it: of the five rows counted as written, two are left. *)
Example process_overwrites :
  Preprocess.total_out (Preprocess.process two_batches) = 5 /\
  Preprocess.files (Preprocess.process two_batches)
  = [(("busybox"%string, 0%nat),
      [mk_row "busybox" (Some 1) (Some 0) (Some 0) (Some 0);
       mk_row "busybox" (Some 0) (Some 0) (Some 1) (Some 1)])].
Proof. split; vm_compute; reflexivity. Qed.

(** ** First maximum and first minimum *)

Lemma argmax_from_spec (xs : list Q) :
  forall (pre : list Q) (i bi : nat) (best : Q),
    i = length pre ->
    nth_error (pre ++ xs) bi = Some best ->
    (bi < i)%nat ->
    (forall x, In x pre -> (x <= best)%Q) ->
    (forall j x, (j < bi)%nat -> nth_error pre j = Some x -> (x < best)%Q) ->
    exists v,
      nth_error (pre ++ xs) (Np.argmax_from i bi best xs) = Some v /\
      (forall x, In x (pre ++ xs) -> (x <= v)%Q) /\
      (forall j x, (j < Np.argmax_from i bi best xs)%nat ->
                   nth_error (pre ++ xs) j = Some x -> (x < v)%Q).
Proof.
  induction xs as [|x xs IH]; intros pre i bi best Hi Hbest Hbi Hle Hlt;
    cbn [Np.argmax_from].
  - rewrite app_nil_r in *; exists best; repeat split; auto.
  - assert (Hassoc : pre ++ x :: xs = (pre ++ [x]) ++ xs) by now rewrite <- app_assoc.
    assert (Hlen : S i = length (pre ++ [x])) by (rewrite length_app; cbn; lia).
    rewrite Hassoc in *.
    destruct (Qle_bool x best) eqn:E.
    + apply Qle_bool_iff in E; apply IH; auto.
      * intros y Hy; apply in_app_or in Hy as [Hy | [<- | []]]; auto.
      * intros j y Hj Hy; rewrite nth_error_app1 in Hy by lia; eauto.
    + assert (Hx : (best < x)%Q).
      { apply Qnot_le_lt; intro H; apply Qle_bool_iff in H; congruence. }
      apply IH; auto.
      * rewrite <- app_assoc; cbn [app].
        rewrite nth_error_app2 by lia; subst i; now rewrite Nat.sub_diag.
      * intros y Hy; apply in_app_or in Hy as [Hy | [<- | []]];
          [specialize (Hle y Hy); lra|lra].
      * intros j y Hj Hy; rewrite nth_error_app1 in Hy by lia.
        apply nth_error_In in Hy; specialize (Hle y Hy); lra.
Qed.

(** [np.argmax] returns the first index that holds the largest value. *)
Lemma argmax_spec (xs : list Q) :
  xs <> [] ->
  exists k v,
    Np.argmax xs = Ok k /\
    nth_error xs k = Some v /\
    (forall x, In x xs -> (x <= v)%Q) /\
    (forall j x, (j < k)%nat -> nth_error xs j = Some x -> (x < v)%Q).
Proof.
  destruct xs as [|x xs]; [congruence|]; intros _; cbn [Np.argmax].
  destruct (argmax_from_spec xs [x] 1 0 x) as (v & Hv & Hle & Hlt); cbn; auto.
  - intros y [<- | []]; lra.
  - intros j y Hj; lia.
  - exists (Np.argmax_from 1 0 x xs), v; auto.
Qed.

Lemma argmin_from_spec (xs : list Q) :
  forall (pre : list Q) (i bi : nat) (best : Q),
    i = length pre ->
    nth_error (pre ++ xs) bi = Some best ->
    (bi < i)%nat ->
    (forall x, In x pre -> (best <= x)%Q) ->
    exists v,
      nth_error (pre ++ xs) (Np.argmin_from i bi best xs) = Some v /\
      (forall x, In x (pre ++ xs) -> (v <= x)%Q).
Proof.
  induction xs as [|x xs IH]; intros pre i bi best Hi Hbest Hbi Hle; cbn [Np.argmin_from].
  - rewrite app_nil_r in *; exists best; repeat split; auto.
  - assert (Hassoc : pre ++ x :: xs = (pre ++ [x]) ++ xs) by now rewrite <- app_assoc.
    assert (Hlen : S i = length (pre ++ [x])) by (rewrite length_app; cbn; lia).
    rewrite Hassoc in *.
    destruct (Qle_bool best x) eqn:E.
    + apply Qle_bool_iff in E; apply IH; auto.
      intros y Hy; apply in_app_or in Hy as [Hy | [<- | []]]; auto.
    + assert (Hx : (x < best)%Q).
      { apply Qnot_le_lt; intro H; apply Qle_bool_iff in H; congruence. }
      apply IH; auto.
      * rewrite <- app_assoc; cbn [app].
        rewrite nth_error_app2 by lia; subst i; now rewrite Nat.sub_diag.
      * intros y Hy; apply in_app_or in Hy as [Hy | [<- | []]];
          [specialize (Hle y Hy); lra|lra].
Qed.

(** [np.argmin] returns an index that holds the smallest value. *)
Lemma argmin_spec (xs : list Q) :
  xs <> [] ->
  exists k v,
    Np.argmin xs = Ok k /\
    nth_error xs k = Some v /\
    (forall x, In x xs -> (v <= x)%Q).
Proof.
  destruct xs as [|x xs]; [congruence|]; intros _; cbn [Np.argmin].
  destruct (argmin_from_spec xs [x] 1 0 x) as (v & Hv & Hle); cbn; auto.
  - intros y [<- | []]; lra.
  - exists (Np.argmin_from 1 0 x xs), v; auto.
Qed.

(** ** C5: the recall floor *)

Lemma combine_seq_nth {A : Type} (l : list A) :
  forall n i a, In (i, a) (combine (seq n (length l)) l) -> nth_error l (i - n) = Some a.
Proof.
  induction l as [|x l IH]; intros n i a Hin; cbn [length seq combine] in Hin; [destruct Hin|].
  destruct Hin as [[= <- <-] | Hin]; [now rewrite Nat.sub_diag|].
  assert (Hlt : (S n <= i)%nat).
  { apply in_combine_l, in_seq in Hin; lia. }
  specialize (IH (S n) i a Hin).
  replace (i - n)%nat with (S (i - S n)) by lia; exact IH.
Qed.

Lemma combine_seq_all {A : Type} (l : list A) :
  forall n a, In a l -> exists i, In (i, a) (combine (seq n (length l)) l).
Proof.
  induction l as [|x l IH]; intros n a Hin; [destruct Hin|]; cbn [length seq combine].
  destruct Hin as [<- | Hin]; [exists n; now left|].
  destruct (IH (S n) a Hin) as (i & Hi); exists i; now right.
Qed.

Lemma fpr_at_ok (roc : list FindThreshold.roc_point)
  (ips : list (nat * FindThreshold.roc_point)) :
  Forall (fun ip => nth_error roc (fst ip) = Some (snd ip)) ips ->
  FindThreshold.fpr_at roc (map fst ips)
  = Ok (map (fun ip => FindThreshold.pt_fpr (snd ip)) ips).
Proof.
  induction 1 as [|[i p] ips Hip _ IH]; [reflexivity|].
  cbn [map FindThreshold.fpr_at fst snd] in *; unfold FindThreshold.getitem.
  rewrite Hip; cbn [bind]; now rewrite IH.
Qed.

Lemma recall_threshold_spec (s : FindThreshold.sample)
  (roc : list FindThreshold.roc_point) (target : Q) :
  exists m,
    FindThreshold.recall_threshold s roc target = Ok m /\ recall_outcome s roc target m.
Proof.
  unfold FindThreshold.recall_threshold, FindThreshold.where_tpr_ge.
  set (f := fun ip : nat * FindThreshold.roc_point =>
              Qle_bool target (FindThreshold.pt_tpr (snd ip))).
  set (ips := filter f (combine (seq 0 (length roc)) roc)).
  assert (Hips : Forall (fun ip => nth_error roc (fst ip) = Some (snd ip)) ips).
  { apply Forall_forall; intros [i p] Hin; apply filter_In in Hin as [Hin _].
    apply combine_seq_nth in Hin; now rewrite Nat.sub_0_r in Hin. }
  assert (Hsel : forall ip, In ip ips -> (target <= FindThreshold.pt_tpr (snd ip))%Q).
  { intros ip Hin; apply filter_In in Hin as [_ Hf]; now apply Qle_bool_iff. }
  assert (Hall : forall q, In q roc -> (target <= FindThreshold.pt_tpr q)%Q ->
                           exists i, In (i, q) ips).
  { intros q Hq Ht; destruct (combine_seq_all roc 0 q Hq) as (i & Hi).
    exists i; apply filter_In; split; [exact Hi|now apply Qle_bool_iff]. }
  destruct ips as [|ip0 ips'] eqn:Eips.
  - cbn [map]; eexists; split; [reflexivity|]; split.
    + intros (q & Hq & Ht); destruct (Hall q Hq Ht) as (i & []).
    + reflexivity.
  - rewrite <- Eips in *.
    assert (Hne : map fst ips <> []) by (rewrite Eips; discriminate).
    destruct (map fst ips) as [|i0 idx'] eqn:Eidx; [congruence|]; rewrite <- Eidx.
    rewrite (fpr_at_ok roc ips Hips); cbn [bind].
    destruct (argmin_spec (map (fun ip => FindThreshold.pt_fpr (snd ip)) ips))
      as (k & v & -> & Hk & Hmin); [rewrite Eips; discriminate|]; cbn [bind].
    rewrite nth_error_map in Hk.
    destruct (nth_error ips k) as [[i p]|] eqn:Hnth; [|discriminate].
    cbn [option_map snd] in Hk; injection Hk as <-.
    unfold FindThreshold.getitem at 1; rewrite nth_error_map, Hnth; cbn [option_map fst bind].
    pose proof (nth_error_In _ _ Hnth) as Hin.
    rewrite Forall_forall in Hips; pose proof (Hips _ Hin) as Hp; cbn [fst snd] in Hp.
    unfold FindThreshold.getitem; rewrite Hp; cbn [bind].
    destruct (metrics_at_threshold_ok s (FindThreshold.pt_thr p)) as (m0 & Em & Hthr & _).
    rewrite Em; cbn [bind]; eexists; split; [reflexivity|]; split.
    + intros _; exists p, m0.
      split; [eapply nth_error_In; eauto|].
      split; [apply (Hsel _ Hin)|].
      split; [|repeat split; auto].
      intros q Hq Ht; destruct (Hall q Hq Ht) as (j & Hj).
      apply Hmin, in_map_iff; exists (j, q); auto.
    + intro Hnone; exfalso; apply (Hnone p); [eapply nth_error_In; eauto|].
      apply (Hsel _ Hin).
Qed.

Lemma recall_thresholds_spec (s : FindThreshold.sample)
  (roc : list FindThreshold.roc_point) (targets : list Q) :
  exists ms,
    FindThreshold.recall_thresholds s roc targets = Ok ms /\
    Forall2 (recall_outcome s roc) targets ms.
Proof.
  induction targets as [|t ts (ms & IH & Hall)]; cbn [FindThreshold.recall_thresholds].
  - exists []; split; [reflexivity|constructor].
  - destruct (recall_threshold_spec s roc t) as (m & -> & Hm); rewrite IH; cbn [bind].
    exists (m :: ms); split; [reflexivity|now constructor].
Qed.

Lemma computed_is_not_unreachable (s : FindThreshold.sample) (thr : npfloat)
  (m0 : FindThreshold.metrics) (c : FindThreshold.criterion_tag) (target : Q) :
  FindThreshold.metrics_at_threshold s thr = Ok m0 ->
  FindThreshold.with_criterion m0 c <> FindThreshold.not_reachable target /\
  FindThreshold.tp (FindThreshold.with_criterion m0 c) <> None /\
  FindThreshold.tpr (FindThreshold.with_criterion m0 c) <> NaN.
Proof.
  intro E; destruct (metrics_at_threshold_ok s thr) as (m & E' & _ & H).
  rewrite E in E'; injection E' as <-.
  destruct H as (tp & fp & tn & fn & tpr & fpr & prec & Htp & _ & _ & _ & Htpr & _).
  assert (Hneq : FindThreshold.tp (FindThreshold.with_criterion m0 c) <> None)
    by (cbn; rewrite Htp; discriminate).
  repeat split; auto.
  - intro Heq; apply Hneq; now rewrite Heq.
  - cbn; rewrite Htpr; discriminate.
Qed.

(** C5. For every scored sample, every ROC curve returned for it and every
    recall target: when some evaluated threshold has [tpr >= target] the
    selector returns the metrics at one of exactly those thresholds, one of
    least fpr among them; when none has, it returns the unreachable dict,
    whose threshold and rates are NaN and whose counts are [None], which no
    computed metrics dict equals.  [pick_thresholds] returns such an outcome
    for each of its targets 0.95 and 0.99. *)
Theorem recall_floor_selection
  (roc_curve : FindThreshold.sample -> list FindThreshold.roc_point)
  (s : FindThreshold.sample) (target : Q) :
  finite_thresholds (roc_curve s) <> [] ->
  (exists m,
     FindThreshold.recall_threshold s (finite_thresholds (roc_curve s)) target = Ok m /\
     recall_outcome s (finite_thresholds (roc_curve s)) target m) /\
  (exists best_j rec_thrs,
     FindThreshold.pick_thresholds roc_curve s
     = Ok (finite_thresholds (roc_curve s), best_j, rec_thrs) /\
     Forall2 (recall_outcome s (finite_thresholds (roc_curve s)))
             FindThreshold.RECALL_TARGETS rec_thrs) /\
  (forall thr m0 c,
     FindThreshold.metrics_at_threshold s thr = Ok m0 ->
     FindThreshold.with_criterion m0 c <> FindThreshold.not_reachable target) /\
  FindThreshold.threshold (FindThreshold.not_reachable target) = NaN /\
  FindThreshold.tpr (FindThreshold.not_reachable target) = NaN /\
  FindThreshold.tp (FindThreshold.not_reachable target) = None.
Proof.
  intros Hne; set (roc := finite_thresholds (roc_curve s)) in *.
  split; [apply recall_threshold_spec|].
  split.
  - unfold FindThreshold.pick_thresholds.
    change (filter (fun p => negb (Np.isinf (FindThreshold.pt_thr p))) (roc_curve s))
      with roc.
    destruct (argmax_spec (map FindThreshold.youden_j roc))
      as (k & v & -> & Hk & _).
    { intro E; apply map_eq_nil in E; contradiction. }
    cbn [bind]; rewrite nth_error_map in Hk.
    destruct (nth_error roc k) as [p|] eqn:Hp; [|discriminate].
    unfold FindThreshold.getitem; rewrite Hp; cbn [bind].
    destruct (metrics_at_threshold_ok s (FindThreshold.pt_thr p)) as (m0 & -> & _).
    destruct (recall_thresholds_spec s roc FindThreshold.RECALL_TARGETS) as (ms & -> & Hms).
    cbn [bind]; eauto.
  - split; [|repeat split].
    intros thr m0 c E; now apply (computed_is_not_unreachable s thr m0 c target).
Qed.

(** The theorem at [example_sample] with [example_roc] and the target 0.99. *)
Lemma recall_floor_selection_witness :
  (exists m,
     FindThreshold.recall_threshold example_sample
       (finite_thresholds (example_roc example_sample)) 0.99%Q = Ok m /\
     recall_outcome example_sample (finite_thresholds (example_roc example_sample))
                    0.99%Q m) /\
  (exists best_j rec_thrs,
     FindThreshold.pick_thresholds example_roc example_sample
     = Ok (finite_thresholds (example_roc example_sample), best_j, rec_thrs) /\
     Forall2 (recall_outcome example_sample (finite_thresholds (example_roc example_sample)))
             FindThreshold.RECALL_TARGETS rec_thrs) /\
  (forall thr m0 c,
     FindThreshold.metrics_at_threshold example_sample thr = Ok m0 ->
     FindThreshold.with_criterion m0 c <> FindThreshold.not_reachable 0.99%Q) /\
  FindThreshold.threshold (FindThreshold.not_reachable 0.99%Q) = NaN /\
  FindThreshold.tpr (FindThreshold.not_reachable 0.99%Q) = NaN /\
  FindThreshold.tp (FindThreshold.not_reachable 0.99%Q) = None.
Proof.
  apply (recall_floor_selection example_roc example_sample 0.99%Q); discriminate.
Defined.

(** ** C3: the Youden selection *)

Lemma insert_sorted_in (a : Q) (l : list Q) (x : Q) :
  In x (insert_sorted a l) -> x = a \/ In x l.
Proof.
  induction l as [|y l IH]; cbn [insert_sorted]; [intros [<- | []]; auto|].
  destruct (a ?= y)%Q.
  - auto.
  - intros [<- | H]; auto.
  - intros [<- | H]; [right; now left|].
    destruct (IH H); auto; right; now right.
Qed.

Lemma insert_sorted_has (a : Q) (l : list Q) (x : Q) :
  In x (a :: l) -> exists y, In y (insert_sorted a l) /\ (y == x)%Q.
Proof.
  induction l as [|y l IH]; cbn [insert_sorted].
  - intros [<- | []]; exists a; split; [now left|reflexivity].
  - destruct (Qcompare_spec a y) as [E | E | E]; intros [<- | [<- | H]].
    + exists y; split; [now left|now symmetry].
    + exists y; split; [now left|reflexivity].
    + exists x; split; [now right|reflexivity].
    + exists a; split; [now left|reflexivity].
    + exists y; split; [right; now left|reflexivity].
    + exists x; split; [right; now right|reflexivity].
    + destruct (IH (or_introl eq_refl)) as (z & Hz & Ez); exists z; split; [now right|auto].
    + exists y; split; [now left|reflexivity].
    + destruct (IH (or_intror H)) as (z & Hz & Ez); exists z; split; [now right|auto].
Qed.

Lemma insert_sorted_sorted (a : Q) (l : list Q) :
  StronglySorted Qlt l -> StronglySorted Qlt (insert_sorted a l).
Proof.
  induction 1 as [|y l Hs IH Hy]; cbn [insert_sorted]; [repeat constructor|].
  destruct (Qcompare_spec a y) as [E | E | E].
  - now constructor.
  - constructor; [now constructor|].
    constructor; [exact E|].
    eapply Forall_impl; [|exact Hy]; cbn; intros z Hz; lra.
  - constructor; [exact IH|].
    apply Forall_forall; intros z Hz; apply insert_sorted_in in Hz as [-> | Hz]; [exact E|].
    rewrite Forall_forall in Hy; now apply Hy.
Qed.

Lemma sorted_set_sorted (xs : list Q) : StronglySorted Qlt (sorted_set xs).
Proof.
  induction xs as [|x xs IH]; cbn; [constructor|now apply insert_sorted_sorted].
Qed.

Lemma sorted_set_in (xs : list Q) (x : Q) : In x (sorted_set xs) -> In x xs.
Proof.
  induction xs as [|a xs IH]; cbn [sorted_set fold_right]; [auto|].
  intro H; apply insert_sorted_in in H as [-> | H]; [now left|right; auto].
Qed.

Lemma sorted_set_has (xs : list Q) (x : Q) :
  In x xs -> exists y, In y (sorted_set xs) /\ (y == x)%Q.
Proof.
  induction xs as [|a xs IH]; [intros []|]; cbn [sorted_set fold_right].
  intros [<- | H].
  - apply insert_sorted_has; now left.
  - destruct (IH H) as (y & Hy & Ey).
    destruct (insert_sorted_has a (fold_right insert_sorted [] xs) y (or_intror Hy))
      as (z & Hz & Ez).
    exists z; split; [exact Hz|now rewrite Ez].
Qed.

Lemma sorted_nth_lt (l : list Q) :
  StronglySorted Qlt l ->
  forall i j a b, (i < j)%nat -> nth_error l i = Some a -> nth_error l j = Some b ->
                  (a < b)%Q.
Proof.
  induction 1 as [|x l Hs IH Hx]; intros i j a b Hij Ha Hb; [now destruct i|].
  destruct j as [|j]; [lia|]; cbn [nth_error] in Hb.
  destruct i as [|i]; cbn [nth_error] in Ha.
  - injection Ha as <-; rewrite Forall_forall in Hx; eapply Hx, nth_error_In; eauto.
  - eapply IH; [|eauto|eauto]; lia.
Qed.

Lemma main_thresholds_nonempty (threshold_arg : list Q) :
  Evaluate.main_thresholds threshold_arg <> [].
Proof.
  unfold Evaluate.main_thresholds; destruct threshold_arg as [|t ts]; [discriminate|].
  destruct (sorted_set_has (Evaluate.auto_thresholds ++ t :: ts) t) as (y & Hy & _).
  { apply in_or_app; right; now left. }
  intro E; now rewrite E in Hy.
Qed.

Lemma main_thresholds_sorted (threshold_arg : list Q) :
  StronglySorted Qlt (Evaluate.main_thresholds threshold_arg).
Proof.
  unfold Evaluate.main_thresholds, Evaluate.auto_thresholds.
  destruct threshold_arg; apply sorted_set_sorted.
Qed.

(** Without [--threshold] the evaluated thresholds are table scores, so none
    lies above the largest score. *)
Lemma auto_thresholds_are_scores (t : Q) :
  In t Evaluate.auto_thresholds -> In t Evaluate.SCORES_BY_PATTERN.
Proof. apply sorted_set_in. Qed.

Lemma eval_threshold_deterministic (counts : hist) (t : Q) (r1 r2 : Evaluate.metrics_row) :
  Evaluate.eval_threshold Evaluate.SCORES_BY_PATTERN counts t = Ok r1 ->
  Evaluate.eval_threshold Evaluate.SCORES_BY_PATTERN counts t = Ok r2 -> r1 = r2.
Proof. congruence. Qed.

Lemma masked_all (xs : list Z) (n : nat) :
  length xs = n -> masked (repeat true n) xs = xs.
Proof.
  revert n; induction xs as [|x xs IH]; intros [|n] H; cbn in *; try congruence.
  now rewrite IH by lia.
Qed.

(** The guarded quotient [a / b if b else 0.0]. *)
Lemma guarded_truediv_value (a b : Z) :
  (if b =? 0 then Ok 0%Q else truediv a b)
  = Ok (if b =? 0 then 0%Q else (inject_Z a / inject_Z b)%Q).
Proof. unfold truediv; now destruct (b =? 0). Qed.

Lemma eval_threshold_rates (counts : hist) (thr : Q) :
  length counts = 8%nat ->
  exists row,
    Evaluate.eval_threshold Evaluate.SCORES_BY_PATTERN counts thr = Ok row /\
    Evaluate.tp row
    = zsum (masked (map (fun sc => Qle_bool thr sc) Evaluate.SCORES_BY_PATTERN)
                   (map snd counts)) /\
    Evaluate.fp row
    = zsum (masked (map (fun sc => Qle_bool thr sc) Evaluate.SCORES_BY_PATTERN)
                   (map fst counts)) /\
    Evaluate.fn row = zsum (map snd counts) - Evaluate.tp row /\
    Evaluate.tn row = zsum (map fst counts) - Evaluate.fp row /\
    Evaluate.sample_pos row = zsum (map snd counts) /\
    Evaluate.sample_neg row = zsum (map fst counts) /\
    Evaluate.tpr row
    = (if Evaluate.sample_pos row =? 0 then 0%Q
       else (inject_Z (Evaluate.tp row) / inject_Z (Evaluate.sample_pos row))%Q) /\
    Evaluate.fpr row
    = (if Evaluate.sample_neg row =? 0 then 0%Q
       else (inject_Z (Evaluate.fp row) / inject_Z (Evaluate.sample_neg row))%Q) /\
    Evaluate.precision row
    = (if Evaluate.tp row + Evaluate.fp row =? 0 then 0%Q
       else (inject_Z (Evaluate.tp row)
             / inject_Z (Evaluate.tp row + Evaluate.fp row))%Q) /\
    Evaluate.specificity row
    = (if Evaluate.sample_neg row =? 0 then 0%Q
       else (inject_Z (Evaluate.tn row) / inject_Z (Evaluate.sample_neg row))%Q) /\
    Evaluate.accuracy row
    = (if Evaluate.sample_pos row + Evaluate.sample_neg row =? 0 then 0%Q
       else (inject_Z (Evaluate.tp row + Evaluate.tn row)
             / inject_Z (Evaluate.sample_pos row + Evaluate.sample_neg row))%Q) /\
    Evaluate.f1 row
    = (if 2 * Evaluate.tp row + Evaluate.fp row + Evaluate.fn row =? 0 then 0%Q
       else (inject_Z (2 * Evaluate.tp row)
             / inject_Z (2 * Evaluate.tp row + Evaluate.fp row + Evaluate.fn row))%Q) /\
    Evaluate.youdenJ row = (Evaluate.tpr row - Evaluate.fpr row)%Q.
Proof.
  intro Hlen; unfold Evaluate.eval_threshold.
  rewrite !masked_sum_ok by (now rewrite !length_map, Hlen); cbn [bind].
  rewrite !guarded_truediv_value; cbn [bind].
  eexists; split; [reflexivity|].
  cbn [Evaluate.threshold Evaluate.tp Evaluate.fp Evaluate.tn Evaluate.fn Evaluate.tpr
       Evaluate.fpr Evaluate.precision Evaluate.specificity Evaluate.accuracy
       Evaluate.f1 Evaluate.youdenJ Evaluate.sample_pos Evaluate.sample_neg].
  repeat split; reflexivity.
Qed.

Lemma youdenJ64_rates (counts : hist) (thr : Q) (row : Evaluate.metrics_row) :
  length counts = 8%nat ->
  Evaluate.eval_threshold Evaluate.SCORES_BY_PATTERN counts thr = Ok row ->
  Evaluate.youdenJ64 row
  = Fl.f64 (Fl.f64 (Evaluate.tpr row) - Fl.f64 (Evaluate.fpr row)).
Proof.
  intros Hlen E.
  destruct (eval_threshold_rates counts thr Hlen)
    as (row' & E' & _ & _ & _ & _ & _ & _ & Htpr & Hfpr & _).
  rewrite E in E'; injection E' as <-.
  unfold Evaluate.youdenJ64, Evaluate.rate64, Fl.sub64, Fl.div64.
  rewrite Htpr, Hfpr.
  destruct (Evaluate.sample_pos row =? 0), (Evaluate.sample_neg row =? 0); reflexivity.
Qed.



(** On [tied_hist] the rows at 0.0884 and at 0.617 have J = 1/4 as
    rationals; in doubles the second is larger by one unit in the last
    place, and [main] reports it. *)
Example main_best_in_doubles :
  exists best other,
    Evaluate.main_best tied_hist [] = Ok (Some best) /\
    (Evaluate.threshold best == 0.617)%Q /\
    Evaluate.eval_threshold Evaluate.SCORES_BY_PATTERN tied_hist 0.0884%Q = Ok other /\
    (Evaluate.youdenJ best == 1 # 4)%Q /\
    (Evaluate.youdenJ other == 1 # 4)%Q /\
    (Evaluate.youdenJ64 other < Evaluate.youdenJ64 best)%Q.
Proof.
  eexists; eexists; split; [vm_compute; reflexivity|].
  split; [reflexivity|].
  split; [vm_compute; reflexivity|].
  split; [reflexivity|]; split; reflexivity.
Qed.


(** ** A filter that keeps every row *)

Lemma filter_all {A : Type} (f : A -> bool) (l : list A) :
  (forall x, In x l -> f x = true) -> filter f l = l.
Proof.
  induction l as [|x l IH]; intro H; [reflexivity|]; cbn [filter].
  rewrite (H x (or_introl eq_refl)), IH; auto.
  intros y Hy; apply H; now right.
Qed.

(** * Further properties of the scripts *)

(** ** Encoding and decoding a pattern *)

(** X1. The bit vector [_bits_from_pattern] and [build_weighted_design]
    build for a pattern undoes the encoding of [aggregate_counts]: it lists
    the program-header, code-region and string-MinHash flags, in that
    order; and encoding the bits of a pattern below 8 gives the pattern
    back. *)
Theorem pattern_round_trip (sm cr ph p : Z) :
  (sm = 0 \/ sm = 1) -> (cr = 0 \/ cr = 1) -> (ph = 0 \/ ph = 1) ->
  0 <= p < 8 ->
  FindWeights._bits_from_pattern (encode_pattern sm cr ph) = [ph; cr; sm] /\
  FindWeights.bits (encode_pattern sm cr ph) = [ph; cr; sm] /\
  0 <= encode_pattern sm cr ph < 8 /\
  encode_pattern (Z.land (Z.shiftr p 0) 1) (Z.land (Z.shiftr p 1) 1)
                 (Z.land (Z.shiftr p 2) 1) = p.
Proof.
  intros Hsm Hcr Hph Hp.
  assert (Hp' : p = 0 \/ p = 1 \/ p = 2 \/ p = 3 \/ p = 4 \/ p = 5 \/ p = 6 \/ p = 7) by lia.
  assert (Hdec : encode_pattern (Z.land (Z.shiftr p 0) 1) (Z.land (Z.shiftr p 1) 1)
                                (Z.land (Z.shiftr p 2) 1) = p).
  { repeat (destruct Hp' as [-> | Hp']; [reflexivity|]); subst p; reflexivity. }
  destruct Hsm as [-> | ->], Hcr as [-> | ->], Hph as [-> | ->];
    (split; [reflexivity|]; split; [reflexivity|]; split; [vm_compute; split; congruence|]);
    exact Hdec.
Qed.

Lemma pattern_round_trip_witness :
  FindWeights._bits_from_pattern (encode_pattern 1 0 1) = [1; 0; 1] /\
  FindWeights.bits (encode_pattern 1 0 1) = [1; 0; 1] /\
  0 <= encode_pattern 1 0 1 < 8 /\
  encode_pattern (Z.land (Z.shiftr 6 0) 1) (Z.land (Z.shiftr 6 1) 1)
                 (Z.land (Z.shiftr 6 2) 1) = 6.
Proof.
  apply (pattern_round_trip 1 0 1 6); lia.
Defined.

(** ** The counting loop on arbitrary rows *)

Lemma amax_ge (xs : list Z) (x : Z) : In x xs -> x <= Np.amax xs.
Proof.
  induction xs as [|y xs IH]; [intros []|]; cbn [Np.amax fold_right].
  fold (Np.amax xs); intros [<- | H]; [lia|specialize (IH H); lia].
Qed.

Lemma in_range_iff (p : Z) : in_range p = true <-> 0 <= p < 8.
Proof. unfold in_range; rewrite andb_true_iff, Z.leb_le, Z.ltb_lt; tauto. Qed.

(** [np.bincount] followed by the slice addition fails as soon as one
    selected pattern is negative or above 7. *)
Lemma count_label_sel_fails (c : hist) (lbl : Z) (y pat : list Z) (x : Z) :
  length c = 8%nat ->
  In x (select lbl y pat) -> in_range x = false ->
  count_label c lbl y pat = Raise ValueError.
Proof.
  intros Hc Hin Hx; unfold count_label.
  destruct (select lbl y pat) as [|s0 sel] eqn:E; [destruct Hin|].
  set (xs := s0 :: sel) in *; unfold Np.bincount.
  destruct (existsb (fun z => z <? 0) xs) eqn:Hneg; [reflexivity|].
  cbn [bind]; unfold add_column; rewrite length_map, length_seq, Hc.
  assert (Hx0 : 0 <= x).
  { destruct (Z.ltb_spec x 0) as [Hlt|]; [|assumption].
    assert (existsb (fun z => z <? 0) xs = true)
      by (apply existsb_exists; exists x; split; [exact Hin|now apply Z.ltb_lt]).
    congruence. }
  assert (Hx8 : 8 <= x).
  { destruct (Z.ltb_spec x 8) as [Hlt|]; [|assumption].
    assert (in_range x = true) by (apply in_range_iff; lia); congruence. }
  pose proof (amax_ge _ _ Hin) as Hmax.
  destruct (Nat.leb_spec (Nat.max 8 (Z.to_nat (Np.amax xs + 1))) 8);
    [lia|reflexivity].
Qed.

Lemma count_label_sel_ok (c : hist) (lbl : Z) (y pat : list Z) :
  length c = 8%nat ->
  Forall (fun x => in_range x = true) (select lbl y pat) ->
  count_label c lbl y pat
  = Ok (add_col lbl c (map (fun i => Np.count_of (Z.of_nat i) (select lbl y pat))
                           (seq 0 8))).
Proof.
  intros Hc Hall; unfold count_label.
  assert (Hrange : Forall (fun x => 0 <= x < 8) (select lbl y pat)).
  { eapply Forall_impl; [|exact Hall]; cbn; intros a Ha; now apply in_range_iff. }
  destruct (select lbl y pat) as [|s0 sel] eqn:E.
  - cbn [map seq]; rewrite !count_of_nil.
    change [0; 0; 0; 0; 0; 0; 0; 0] with (repeat 0 8); now rewrite add_col_zeros.
  - rewrite (bincount_in_range _ Hrange).
    cbn [bind]; unfold add_column; rewrite length_map, length_seq, Hc; reflexivity.
Qed.

(** One label pass over the rows of a batch. *)
Lemma count_label_general (c : hist) (lbl : Z) (rows : list bin_row) :
  length c = 8%nat ->
  count_label c lbl (map row_label rows) (map row_pattern rows)
  = if forallb (fun r => negb (row_label r =? lbl) || in_range (row_pattern r)) rows
    then Ok (add_col lbl c (map (fun p => cnt lbl p rows) (seq 0 8)))
    else Raise ValueError.
Proof.
  intro Hc.
  destruct (forallb (fun r => negb (row_label r =? lbl) || in_range (row_pattern r)) rows)
    eqn:Hall.
  - rewrite count_label_sel_ok; [|exact Hc|].
    + rewrite select_rows; do 2 f_equal; apply map_ext; intro p; apply count_of_rows.
    + rewrite select_rows; apply Forall_forall; intros x Hx.
      apply in_map_iff in Hx as (r & <- & Hr); apply filter_In in Hr as [Hr Hl].
      rewrite forallb_forall in Hall; specialize (Hall r Hr); now rewrite Hl in Hall.
  - assert (Hex : exists r, In r rows /\ (row_label r =? lbl) = true
                            /\ in_range (row_pattern r) = false).
    { clear -Hall; induction rows as [|r rows IH]; [discriminate|].
      cbn [forallb] in Hall; apply andb_false_iff in Hall as [H | H].
      - apply orb_false_iff in H as [Hl Hp]; apply negb_false_iff in Hl.
        exists r; repeat split; auto; now left.
      - destruct (IH H) as (r' & Hin & Hr'); exists r'; split; [now right|exact Hr']. }
    destruct Hex as (r & Hin & Hl & Hp).
    apply (count_label_sel_fails c lbl _ _ (row_pattern r)); auto.
    rewrite select_rows; apply in_map, filter_In; auto.
Qed.

Lemma countable_split (rows : list bin_row) :
  forallb countable rows
  = forallb (fun r => negb (row_label r =? 0) || in_range (row_pattern r)) rows
    && forallb (fun r => negb (row_label r =? 1) || in_range (row_pattern r)) rows.
Proof.
  induction rows as [|r rows IH]; [reflexivity|]; cbn [forallb]; rewrite IH.
  unfold countable, label01.
  destruct (row_label r =? 0), (row_label r =? 1), (in_range (row_pattern r));
    cbn [negb orb andb];
    repeat match goal with |- context [forallb ?f rows] => destruct (forallb f rows) end;
    reflexivity.
Qed.

(** The whole label loop: it adds the tally of the rows, or raises when a
    row with label 0 or 1 has a pattern outside the histogram. *)
Lemma count_labels_general (c : hist) (rows : list bin_row) :
  length c = 8%nat ->
  count_labels c (map row_label rows) (map row_pattern rows)
  = if forallb countable rows then Ok (hist_add c (tally rows)) else Raise ValueError.
Proof.
  intro Hc; unfold count_labels; rewrite countable_split, count_label_general by exact Hc.
  destruct (forallb (fun r => negb (row_label r =? 0) || in_range (row_pattern r)) rows);
    cbn [bind andb]; [|reflexivity].
  rewrite count_label_general by (now rewrite add_col_length).
  destruct (forallb (fun r => negb (row_label r =? 1) || in_range (row_pattern r)) rows);
    [|reflexivity].
  f_equal; unfold tally; apply add_cols_pair; now rewrite Hc, length_seq.
Qed.

(** ** [find_weights.aggregate_counts] on arbitrary streams *)

Lemma find_weights_scan_general (families : list string) (bs : list batch) :
  forall st,
    length (FindWeights.counts st) = 8%nat ->
    match FindWeights.scan families st bs with
    | Ok st' =>
        forallb countable (kept_rows families bs) = true /\
        FindWeights.counts st'
        = hist_add (FindWeights.counts st) (tally (kept_rows families bs)) /\
        FindWeights.total_seen st'
        = FindWeights.total_seen st + Z.of_nat (length (concat bs)) /\
        FindWeights.total_kept st'
        = FindWeights.total_kept st + Z.of_nat (length (kept_rows families bs))
    | Raise e =>
        e = ValueError /\ forallb countable (kept_rows families bs) = false
    end.
Proof.
  unfold kept_rows; induction bs as [|b bs IH]; intros st Hlen.
  - cbn [FindWeights.scan concat filter length forallb]; rewrite tally_nil.
    unfold zeros_8_2; rewrite hist_add_zeros by lia; repeat split; lia.
  - cbn [FindWeights.scan concat].
    rewrite filter_app, tally_app, forallb_app, !length_app.
    unfold FindWeights.step.
    destruct (filter (FindWeights.mask families) b) as [|r kept] eqn:E.
    + cbn [bind forallb andb].
      match goal with |- context [FindWeights.scan _ ?s _] => set (st1 := s) end.
      specialize (IH st1 Hlen).
      destruct (FindWeights.scan families st1 bs) as [st'|e]; [|exact IH].
      destruct IH as (Hall & Hc & Hs & Hk); subst st1.
      cbn [FindWeights.counts FindWeights.total_seen FindWeights.total_kept] in *.
      rewrite Hc, Hs, Hk, tally_nil; unfold zeros_8_2.
      rewrite (hist_add_comm (repeat (0, 0) 8)), (hist_add_zeros (tally _)) by (cbn; lia).
      repeat split; auto; cbn [length]; lia.
    + rewrite (count_labels_general _ (r :: kept) Hlen).
      destruct (forallb countable (r :: kept)); cbn [bind andb]; [|auto].
      match goal with |- context [FindWeights.scan _ ?s _] => set (st1 := s) end.
      assert (Hlen1 : length (FindWeights.counts st1) = 8%nat).
      { subst st1; cbn [FindWeights.counts].
        now rewrite hist_add_length, tally_length, Hlen. }
      specialize (IH st1 Hlen1).
      destruct (FindWeights.scan families st1 bs) as [st'|e]; [|exact IH].
      destruct IH as (Hall & Hc & Hs & Hk); subst st1.
      cbn [FindWeights.counts FindWeights.total_seen FindWeights.total_kept] in *.
      rewrite Hc, Hs, Hk, hist_add_assoc; repeat split; auto; lia.
Qed.

Lemma find_weights_aggregate_cases (families : list string) (bs : list batch) :
  FindWeights.aggregate_counts families bs
  = if forallb countable (kept_rows families bs)
    then Ok (tally (kept_rows families bs),
             Z.of_nat (length (concat bs)),
             Z.of_nat (length (kept_rows families bs)))
    else Raise ValueError.
Proof.
  unfold FindWeights.aggregate_counts.
  pose proof (find_weights_scan_general families bs FindWeights.init eq_refl) as H.
  destruct (FindWeights.scan families FindWeights.init bs) as [st|e]; cbn [bind].
  - destruct H as (-> & Hc & Hs & Hk); rewrite Hc, Hs, Hk.
    cbn [FindWeights.init FindWeights.counts FindWeights.total_seen FindWeights.total_kept].
    now rewrite hist_add_zeros_l by apply tally_length.
  - destruct H as (-> & ->); reflexivity.
Qed.

(** X2. [aggregate_counts] of [find_weights.py] raises, a [ValueError],
    exactly when some row that passes its mask has label 0 or 1 and a
    pattern outside 0..7; otherwise it returns the per-pattern tally of the
    kept rows, the number of rows seen and the number kept. *)
Theorem find_weights_aggregate_total (families : list string) (bs : list batch) :
  (FindWeights.aggregate_counts families bs = Raise ValueError <->
   exists r, In r (kept_rows families bs) /\ label01 r = true /\
             ~ 0 <= row_pattern r < 8) /\
  ((forall r, In r (kept_rows families bs) -> label01 r = true ->
              0 <= row_pattern r < 8) ->
   FindWeights.aggregate_counts families bs
   = Ok (tally (kept_rows families bs),
         Z.of_nat (length (concat bs)),
         Z.of_nat (length (kept_rows families bs)))) /\
  (forall e, FindWeights.aggregate_counts families bs = Raise e -> e = ValueError).
Proof.
  rewrite find_weights_aggregate_cases.
  destruct (forallb countable (kept_rows families bs)) eqn:H.
  - rewrite forallb_forall in H; split; [split|split].
    + discriminate.
    + intros (r & Hin & Hl & Hp); specialize (H r Hin); unfold countable in H.
      rewrite Hl in H; cbn in H; apply in_range_iff in H; contradiction.
    + reflexivity.
    + discriminate.
  - assert (Hex : exists r, In r (kept_rows families bs) /\ countable r = false).
    { clear -H; induction (kept_rows families bs) as [|r rows IH]; [discriminate|].
      cbn [forallb] in H; apply andb_false_iff in H as [H | H].
      - exists r; split; [now left|exact H].
      - destruct (IH H) as (r' & Hin & Hr'); exists r'; split; [now right|exact Hr']. }
    destruct Hex as (r & Hin & Hr); unfold countable in Hr.
    apply orb_false_iff in Hr as [Hl Hp]; apply negb_false_iff in Hl.
    split; [split|split].
    + intros _; exists r; repeat split; auto.
      intro Hrange; apply in_range_iff in Hrange; congruence.
    + reflexivity.
    + intro Hall; specialize (Hall r Hin Hl); apply in_range_iff in Hall; congruence.
    + congruence.
Qed.

Lemma find_weights_aggregate_total_witness :
  FindWeights.aggregate_counts [] stream_label2
  = Ok (tally (kept_rows [] stream_label2),
        Z.of_nat (length (concat stream_label2)),
        Z.of_nat (length (kept_rows [] stream_label2))).
Proof.
  apply (proj1 (proj2 (find_weights_aggregate_total [] stream_label2))).
  intros r Hin _; apply in_range_iff.
  destruct Hin as [<- | [<- | [<- | []]]]; reflexivity.
Defined.

Example aggregate_flag2 :
  FindWeights.aggregate_counts [] stream_flag2 = Raise ValueError.
Proof. reflexivity. Qed.

Lemma label01_cases (r : bin_row) :
  label01 r = true -> row_label r = 0 \/ row_label r = 1.
Proof.
  unfold label01; intro H; apply orb_true_iff in H as [H | H]; apply Z.eqb_eq in H; auto.
Qed.

Lemma hist_total_one_general (r : bin_row) :
  countable r = true ->
  hist_total (tally [r]) = if label01 r then 1 else 0.
Proof.
  unfold countable; intro Hc.
  destruct (label01 r) eqn:Hl; cbn [negb orb] in Hc.
  - apply in_range_iff in Hc.
    assert (Hp' : row_pattern r = 0 \/ row_pattern r = 1 \/ row_pattern r = 2 \/
                  row_pattern r = 3 \/ row_pattern r = 4 \/ row_pattern r = 5 \/
                  row_pattern r = 6 \/ row_pattern r = 7) by lia.
    unfold hist_total, tally, cnt; cbn [map seq filter].
    destruct (label01_cases r Hl) as [-> | ->];
      repeat (destruct Hp' as [-> | Hp']; [reflexivity|]); rewrite Hp'; reflexivity.
  - unfold label01 in Hl; apply orb_false_iff in Hl as [H0 H1].
    unfold hist_total, tally, cnt; cbn [map seq filter]; rewrite H0, H1; reflexivity.
Qed.

Lemma hist_total_tally_general (rows : list bin_row) :
  forallb countable rows = true ->
  hist_total (tally rows) = Z.of_nat (length (filter label01 rows)).
Proof.
  induction rows as [|r rows IH]; [reflexivity|]; cbn [forallb filter]; intro H.
  apply andb_true_iff in H as [Hr Hrows].
  change (r :: rows) with ([r] ++ rows).
  rewrite tally_app, hist_total_add by reflexivity.
  rewrite hist_total_one_general, IH by assumption.
  destruct (label01 r); cbn [length]; lia.
Qed.

(** X3. When [aggregate_counts] of [find_weights.py] returns, the counts of
    the histogram add up to the number of kept rows whose label is 0 or 1: a
    kept row with any other label is counted in [total_kept] and in no
    cell, so the total can fall short of [total_kept]. *)
Theorem kept_rows_with_other_labels (families : list string) (bs : list batch) :
  forallb countable (kept_rows families bs) = true ->
  exists counts seen kept,
    FindWeights.aggregate_counts families bs = Ok (counts, seen, kept) /\
    hist_total counts = Z.of_nat (length (filter label01 (kept_rows families bs))) /\
    kept - hist_total counts
    = Z.of_nat (length (filter (fun r => negb (label01 r)) (kept_rows families bs))).
Proof.
  intro H; rewrite find_weights_aggregate_cases, H.
  do 3 eexists; split; [reflexivity|].
  rewrite (hist_total_tally_general _ H); split; [reflexivity|].
  pose proof (filter_split_length label01 (kept_rows families bs)); lia.
Qed.

Lemma kept_rows_with_other_labels_witness :
  exists counts seen kept,
    FindWeights.aggregate_counts [] stream_label2 = Ok (counts, seen, kept) /\
    hist_total counts = Z.of_nat (length (filter label01 (kept_rows [] stream_label2))) /\
    kept - hist_total counts
    = Z.of_nat (length (filter (fun r => negb (label01 r)) (kept_rows [] stream_label2))).
Proof.
  apply (kept_rows_with_other_labels [] stream_label2); reflexivity.
Defined.

Example aggregate_label2 :
  FindWeights.aggregate_counts [] stream_label2
  = Ok ([(0, 0); (0, 0); (1, 0); (0, 0); (0, 0); (0, 1); (0, 0); (0, 0)], 3, 3).
Proof. reflexivity. Qed.

(** ** Aggregating what the binarizer wrote *)

Lemma binarize_row_finite (r : raw_row) : finite_row (Preprocess.binarize_row r) = true.
Proof. reflexivity. Qed.

Lemma binarize_row_in_range (r : raw_row) :
  in_range (row_pattern (Preprocess.binarize_row r)) = true.
Proof.
  unfold row_pattern;
    cbn [Preprocess.binarize_row bin_string_minhash bin_code_regions bin_program_header
         cell_int8].
  unfold Preprocess.flag.
  destruct (Np.gef _ _), (Np.gef _ _), (Np.gef _ _); reflexivity.
Qed.



Example aggregate_two_batches :
  FindWeights.aggregate_counts []
    [Preprocess.rows_on_disk (Preprocess.files (Preprocess.process two_batches))]
  = Ok ([(0, 1); (0, 0); (0, 0); (0, 0); (0, 0); (0, 0); (1, 0); (0, 0)], 2, 2) /\
  Preprocess.total_out (Preprocess.process two_batches) = 5.
Proof. split; vm_compute; reflexivity. Qed.

(** ** [np.unique] on the family column *)

Lemma insert_unique_in (s : string) (l : list string) (x : string) :
  In x (insert_unique s l) <-> x = s \/ In x l.
Proof.
  induction l as [|t l IH]; cbn [insert_unique]; [cbn; intuition|].
  destruct (String.compare s t) eqn:E.
  - apply String.compare_eq_iff in E; subst t; cbn; intuition.
  - cbn; intuition.
  - cbn [In]; rewrite IH; intuition.
Qed.

Lemma np_unique_in (l : list string) (x : string) : In x (np_unique l) <-> In x l.
Proof.
  induction l as [|s l IH]; [reflexivity|]; cbn [np_unique fold_right].
  rewrite insert_unique_in; fold (np_unique l); rewrite IH; cbn; intuition.
Qed.

Lemma insert_unique_sorted (s : string) (l : list string) :
  StronglySorted OrderedTypeEx.String_as_OT.lt l ->
  StronglySorted OrderedTypeEx.String_as_OT.lt (insert_unique s l).
Proof.
  induction 1 as [|t l Hs IH Ht]; cbn [insert_unique]; [repeat constructor|].
  destruct (String.compare s t) eqn:E.
  - now constructor.
  - apply OrderedTypeEx.String_as_OT.cmp_lt in E.
    constructor; [now constructor|]. constructor; [exact E|].
    eapply Forall_impl; [|exact Ht]; cbn; intros z Hz.
    eapply OrderedTypeEx.String_as_OT.lt_trans; eauto.
  - apply OrderedTypeEx.String_as_OT.compare_helper_gt in E.
    constructor; [exact IH|].
    apply Forall_forall; intros z Hz; apply insert_unique_in in Hz as [-> | Hz]; [exact E|].
    rewrite Forall_forall in Ht; now apply Ht.
Qed.

Lemma np_unique_sorted (l : list string) :
  StronglySorted OrderedTypeEx.String_as_OT.lt (np_unique l).
Proof.
  induction l as [|s l IH]; cbn; [constructor|now apply insert_unique_sorted].
Qed.

Lemma np_unique_nodup (l : list string) : NoDup (np_unique l).
Proof.
  pose proof (np_unique_sorted l) as H.
  induction H as [|t u Hs IH Ht]; constructor; [|exact IH].
  intro Hin; rewrite Forall_forall in Ht; specialize (Ht t Hin).
  apply OrderedTypeEx.String_as_OT.lt_not_eq in Ht; apply Ht; reflexivity.
Qed.

(** ** The per-family arrays of [evaluate.aggregate_counts] *)

Lemma dict_get_set (d : list (string * hist)) (f g : string) (a : hist) :
  Evaluate.dict_get (Evaluate.dict_set d f a) g
  = if String.eqb f g then Some a else Evaluate.dict_get d g.
Proof.
  induction d as [|[k v] d IH]; cbn [Evaluate.dict_set Evaluate.dict_get]; [reflexivity|].
  destruct (String.eqb k f) eqn:Ekf; cbn [Evaluate.dict_get].
  - apply String.eqb_eq in Ekf; subst k; now destruct (String.eqb f g).
  - rewrite IH; destruct (String.eqb k g) eqn:Ekg, (String.eqb f g) eqn:Efg; auto.
    apply String.eqb_eq in Ekg, Efg; subst; now rewrite String.eqb_refl in Ekf.
Qed.

Lemma fam_hist_length (d : list (string * hist)) (f : string) :
  dict_ok d -> length (fam_hist d f) = 8%nat.
Proof.
  intro Hd; unfold fam_hist; destruct (Evaluate.dict_get d f) eqn:E; [|reflexivity].
  eapply dict_get_ok; eauto.
Qed.

Lemma fam_rows_countable (f : string) (rows : list bin_row) :
  forallb countable rows = true -> forallb countable (fam_rows f rows) = true.
Proof.
  rewrite !forallb_forall; intros H r Hr; apply filter_In in Hr as [Hr _]; auto.
Qed.

Lemma count_family_general (kept : batch) (d : list (string * hist)) (f : string) :
  dict_ok d ->
  forallb countable kept = true ->
  exists d',
    Evaluate.count_family kept d f = Ok d' /\
    dict_ok d' /\
    forall g,
      Evaluate.dict_get d' g
      = if String.eqb f g
        then match fam_rows f kept with
             | [] => Evaluate.dict_get d g
             | _ => Some (hist_add (fam_hist d f) (tally (fam_rows f kept)))
             end
        else Evaluate.dict_get d g.
Proof.
  intros Hd Hk; unfold Evaluate.count_family; fold (fam_rows f kept); fold (fam_hist d f).
  pose proof (fam_rows_countable f kept Hk) as Hrows.
  destruct (fam_rows f kept) as [|r rows'] eqn:E.
  - exists d; repeat split; auto; intro g; now destruct (String.eqb f g).
  - rewrite (count_labels_general _ (r :: rows') (fam_hist_length d f Hd)), Hrows.
    cbn [bind]; eexists; split; [reflexivity|]; split.
    + apply dict_set_ok; auto.
      now rewrite hist_add_length, tally_length, fam_hist_length.
    + intro g; apply dict_get_set.
Qed.

Lemma fam_hist_eq (d1 d2 : list (string * hist)) (g : string) :
  Evaluate.dict_get d1 g = Evaluate.dict_get d2 g -> fam_hist d1 g = fam_hist d2 g.
Proof. unfold fam_hist; now intros ->. Qed.

Lemma count_families_general (kept : batch) (fs : list string) :
  NoDup fs ->
  forallb countable kept = true ->
  forall d,
    dict_ok d ->
    exists d',
      Evaluate.count_families kept d fs = Ok d' /\
      dict_ok d' /\
      forall g,
        Evaluate.dict_get d' g
        = if existsb (String.eqb g) fs
          then match fam_rows g kept with
               | [] => Evaluate.dict_get d g
               | _ => Some (hist_add (fam_hist d g) (tally (fam_rows g kept)))
               end
          else Evaluate.dict_get d g.
Proof.
  intros Hnd Hk; induction Hnd as [|f fs Hnin Hnd IH]; intros d Hd;
    cbn [Evaluate.count_families].
  - exists d; repeat split; auto.
  - destruct (count_family_general kept d f Hd Hk) as (d1 & -> & Hd1 & Hget1); cbn [bind].
    destruct (IH d1 Hd1) as (d' & -> & Hd' & Hget'); exists d'; repeat split; auto.
    intro g; rewrite Hget'; cbn [existsb]; rewrite Hget1.
    destruct (String.eqb g f) eqn:Egf.
    + apply String.eqb_eq in Egf; subst g; rewrite String.eqb_refl; cbn [orb].
      replace (existsb (String.eqb f) fs) with false; [reflexivity|].
      symmetry; apply not_true_is_false; intro Hex.
      apply existsb_exists in Hex as (x & Hx & Ex); apply String.eqb_eq in Ex; now subst x.
    + assert (Efg : String.eqb f g = false)
        by (rewrite String.eqb_sym; exact Egf).
      rewrite Efg; cbn [orb].
      assert (Hfh : fam_hist d1 g = fam_hist d g)
        by (apply fam_hist_eq; rewrite Hget1, Efg; reflexivity).
      now rewrite Hfh.
Qed.

Lemma fam_rows_nil_iff (g : string) (rows : list bin_row) :
  existsb (String.eqb g) (np_unique (map src_family rows)) = false <-> fam_rows g rows = [].
Proof.
  split.
  - intro H; unfold fam_rows.
    destruct (filter (fun r => String.eqb (src_family r) g) rows) as [|r rs] eqn:E;
      [reflexivity|exfalso].
    assert (Hin : In r (filter (fun r => String.eqb (src_family r) g) rows))
      by (rewrite E; now left).
    apply filter_In in Hin as [Hin Hg]; apply String.eqb_eq in Hg.
    assert (Hex : existsb (String.eqb g) (np_unique (map src_family rows)) = true).
    { apply existsb_exists; exists g; split; [|apply String.eqb_refl].
      apply np_unique_in; subst g; now apply in_map. }
    congruence.
  - intro H; apply not_true_is_false; intro Hex.
    apply existsb_exists in Hex as (x & Hx & Ex); apply String.eqb_eq in Ex; subst x.
    apply np_unique_in, in_map_iff in Hx as (r & Hr & Hin).
    assert (Hf : In r (fam_rows g rows))
      by (apply filter_In; split; [exact Hin|now apply String.eqb_eq]).
    now rewrite H in Hf.
Qed.

(** One batch of the by-family pass: every family of the batch gets the
    tally of its rows added, every other key is left alone. *)
Lemma count_families_batch (kept : batch) (d : list (string * hist)) :
  forallb countable kept = true ->
  dict_ok d ->
  exists d',
    Evaluate.count_families kept d (np_unique (map src_family kept)) = Ok d' /\
    dict_ok d' /\
    forall g,
      fam_hist d' g = hist_add (fam_hist d g) (tally (fam_rows g kept)) /\
      (Evaluate.dict_get d' g = None <->
       Evaluate.dict_get d g = None /\ fam_rows g kept = []).
Proof.
  intros Hk Hd.
  destruct (count_families_general kept _ (np_unique_nodup (map src_family kept)) Hk d Hd)
    as (d' & E & Hd' & Hget); exists d'; repeat split; auto.
  - unfold fam_hist at 1; rewrite Hget.
    destruct (existsb (String.eqb g) (np_unique (map src_family kept))) eqn:Ex.
    + destruct (fam_rows g kept) as [|r rs] eqn:Er; [|reflexivity].
      rewrite tally_nil; unfold zeros_8_2 at 2; rewrite hist_add_zeros; [reflexivity|].
      rewrite fam_hist_length; auto.
    + apply fam_rows_nil_iff in Ex; rewrite Ex, tally_nil; unfold zeros_8_2 at 2.
      rewrite hist_add_zeros; [reflexivity|rewrite fam_hist_length; auto].
  - rewrite Hget in H.
    destruct (existsb (String.eqb g) (np_unique (map src_family kept))) eqn:Ex; [|exact H].
    destruct (fam_rows g kept); [exact H|discriminate].
  - rewrite Hget in H.
    destruct (existsb (String.eqb g) (np_unique (map src_family kept))) eqn:Ex;
      [|now apply fam_rows_nil_iff].
    destruct (fam_rows g kept); [reflexivity|discriminate].
  - intros [Hnone Hnil]; rewrite Hget, Hnil.
    now destruct (existsb (String.eqb g) (np_unique (map src_family kept))).
Qed.

Lemma fam_rows_app (g : string) (a b : list bin_row) :
  fam_rows g (a ++ b) = fam_rows g a ++ fam_rows g b.
Proof. unfold fam_rows; apply filter_app. Qed.

Lemma evaluate_scan_general (by_family : bool) (bs : list batch) :
  forall st,
    length (Evaluate.counts_global st) = 8%nat ->
    dict_ok (Evaluate.counts_by_family st) ->
    match Evaluate.scan by_family st bs with
    | Ok st' =>
        forallb countable (filter finite_row (concat bs)) = true /\
        Evaluate.counts_global st'
        = hist_add (Evaluate.counts_global st) (tally (filter finite_row (concat bs))) /\
        Evaluate.n_pos st'
        = Evaluate.n_pos st
          + Z.of_nat (length (filter (fun r => row_label r =? 1)
                                     (filter finite_row (concat bs)))) /\
        Evaluate.n_neg st'
        = Evaluate.n_neg st
          + Z.of_nat (length (filter (fun r => row_label r =? 0)
                                     (filter finite_row (concat bs)))) /\
        dict_ok (Evaluate.counts_by_family st') /\
        (if by_family
         then forall g,
             fam_hist (Evaluate.counts_by_family st') g
             = hist_add (fam_hist (Evaluate.counts_by_family st) g)
                        (tally (fam_rows g (filter finite_row (concat bs)))) /\
             (Evaluate.dict_get (Evaluate.counts_by_family st') g = None <->
              Evaluate.dict_get (Evaluate.counts_by_family st) g = None /\
              fam_rows g (filter finite_row (concat bs)) = [])
         else Evaluate.counts_by_family st' = Evaluate.counts_by_family st)
    | Raise e =>
        e = ValueError /\ forallb countable (filter finite_row (concat bs)) = false
    end.
Proof.
  induction bs as [|b bs IH]; intros st Hlen Hd.
  - cbn [Evaluate.scan concat filter length forallb]; rewrite tally_nil.
    unfold zeros_8_2; rewrite hist_add_zeros by lia.
    repeat split; try lia; auto.
    destruct by_family; [|reflexivity].
    intro g; cbn [fam_rows filter]; rewrite tally_nil; unfold zeros_8_2.
    rewrite hist_add_zeros by (rewrite fam_hist_length; auto); tauto.
  - cbn [Evaluate.scan concat].
    rewrite !filter_app, tally_app, forallb_app, !length_app.
    unfold Evaluate.step.
    destruct (filter finite_row b) as [|r kept] eqn:E.
    + cbn [bind forallb andb].
      specialize (IH st Hlen Hd).
      destruct (Evaluate.scan by_family st bs) as [st'|e]; [|exact IH].
      destruct IH as (Hall & Hc & Hp & Hn & Hd' & Hfam).
      rewrite Hc, Hp, Hn, tally_nil; unfold zeros_8_2.
      rewrite (hist_add_comm (repeat (0, 0) 8)), (hist_add_zeros (tally _)) by (cbn; lia).
      repeat split; auto; cbn [length filter app]; try lia.
    + rewrite (count_labels_general _ (r :: kept) Hlen).
      destruct (forallb countable (r :: kept)) eqn:Hk; cbn [bind andb]; [|auto].
      assert (Hfam1 : exists d,
                 (if by_family
                  then Evaluate.count_families (r :: kept) (Evaluate.counts_by_family st)
                         (np_unique (map src_family (r :: kept)))
                  else Ok (Evaluate.counts_by_family st)) = Ok d /\ dict_ok d /\
                 (if by_family
                  then forall g,
                      fam_hist d g
                      = hist_add (fam_hist (Evaluate.counts_by_family st) g)
                                 (tally (fam_rows g (r :: kept))) /\
                      (Evaluate.dict_get d g = None <->
                       Evaluate.dict_get (Evaluate.counts_by_family st) g = None /\
                       fam_rows g (r :: kept) = [])
                  else d = Evaluate.counts_by_family st)).
      { destruct by_family; [apply count_families_batch; auto|eauto]. }
      destruct Hfam1 as (d & -> & Hd1 & Hfam1); cbn [bind].
      match goal with |- context [Evaluate.scan _ ?s _] => set (st1 := s) end.
      assert (Hlen1 : length (Evaluate.counts_global st1) = 8%nat).
      { subst st1; cbn [Evaluate.counts_global].
        now rewrite hist_add_length, tally_length, Hlen. }
      specialize (IH st1 Hlen1 Hd1).
      destruct (Evaluate.scan by_family st1 bs) as [st'|e]; [|exact IH].
      destruct IH as (Hall & Hc & Hp & Hn & Hd' & Hfam); subst st1.
      cbn [Evaluate.counts_global Evaluate.n_pos Evaluate.n_neg
           Evaluate.counts_by_family] in *.
      rewrite Hc, Hp, Hn, hist_add_assoc, !label_count.
      split; [exact Hall|]. split; [reflexivity|].
      split; [lia|]. split; [lia|]. split; [exact Hd'|].
      destruct by_family; [|now rewrite Hfam].
      intro g; destruct (Hfam g) as [Hh Hnone]; destruct (Hfam1 g) as [Hh1 Hnone1].
      rewrite fam_rows_app, tally_app, Hh, Hh1, hist_add_assoc; split; [reflexivity|].
      rewrite Hnone, Hnone1; split.
      * intros [[H1 H2] H3]; split; [exact H1|]. now rewrite H2, H3.
      * intros [H1 H2]; apply app_eq_nil in H2 as [H2 H3]; auto.
Qed.

Lemma evaluate_aggregate_general (family : option string) (by_family : bool)
  (bs : list batch) :
  match Evaluate.aggregate_counts family by_family bs with
  | Ok (counts, d, (n_pos, n_neg)) =>
      forallb countable (eval_rows family bs) = true /\
      counts = tally (eval_rows family bs) /\
      n_pos = Z.of_nat (length (filter (fun r => row_label r =? 1) (eval_rows family bs))) /\
      n_neg = Z.of_nat (length (filter (fun r => row_label r =? 0) (eval_rows family bs))) /\
      (if by_family
       then forall g,
           Evaluate.dict_get d g
           = match fam_rows g (eval_rows family bs) with
             | [] => None
             | rows => Some (tally rows)
             end
       else d = [])
  | Raise e => e = ValueError /\ forallb countable (eval_rows family bs) = false
  end.
Proof.
  unfold Evaluate.aggregate_counts, eval_rows.
  pose proof (evaluate_scan_general by_family (map (Evaluate.scanner_filter family) bs)
                Evaluate.init eq_refl (Forall_nil _)) as H.
  destruct (Evaluate.scan by_family Evaluate.init (map (Evaluate.scanner_filter family) bs))
    as [st|e]; cbn [bind]; [|exact H].
  destruct H as (Hall & Hc & Hp & Hn & Hd & Hfam).
  cbn [Evaluate.init Evaluate.counts_global Evaluate.n_pos Evaluate.n_neg
       Evaluate.counts_by_family] in *.
  rewrite hist_add_zeros_l in Hc by apply tally_length.
  repeat split; auto.
  destruct by_family; [|exact Hfam].
  intro g; destruct (Hfam g) as [Hh Hnone].
  change (fam_hist [] g) with zeros_8_2 in Hh.
  rewrite hist_add_zeros_l in Hh by apply tally_length.
  set (rows := filter finite_row (concat (map (Evaluate.scanner_filter family) bs))) in *.
  destruct (fam_rows g rows) as [|r rs] eqn:Er.
  - apply Hnone; auto.
  - unfold fam_hist in Hh.
    destruct (Evaluate.dict_get (Evaluate.counts_by_family st) g) as [h|] eqn:Eg;
      [now rewrite Hh|].
    exfalso; destruct (proj1 Hnone eq_refl) as [_ Hn']; discriminate.
Qed.

(** X5. With [by_family] set, [aggregate_counts] of [evaluate.py] returns,
    beside the global histogram, a dict that has a key exactly for the
    source families with at least one kept row, and the array under a key
    is the per-pattern tally of that family's kept rows. *)
Theorem by_family_histograms (family : option string) (bs : list batch) :
  forallb countable (eval_rows family bs) = true ->
  exists counts d totals,
    Evaluate.aggregate_counts family true bs = Ok (counts, d, totals) /\
    counts = tally (eval_rows family bs) /\
    forall g,
      Evaluate.dict_get d g
      = match fam_rows g (eval_rows family bs) with
        | [] => None
        | rows => Some (tally rows)
        end.
Proof.
  intro Hall; pose proof (evaluate_aggregate_general family true bs) as H.
  destruct (Evaluate.aggregate_counts family true bs) as [[[counts d] [n_pos n_neg]]|e].
  - destruct H as (_ & Hc & _ & _ & Hfam); exists counts, d, (n_pos, n_neg); auto.
  - destruct H as (_ & H); congruence.
Qed.

Lemma by_family_histograms_witness :
  exists counts d totals,
    Evaluate.aggregate_counts None true stream_label2 = Ok (counts, d, totals) /\
    counts = tally (eval_rows None stream_label2) /\
    forall g,
      Evaluate.dict_get d g
      = match fam_rows g (eval_rows None stream_label2) with
        | [] => None
        | rows => Some (tally rows)
        end.
Proof.
  apply (by_family_histograms None stream_label2); reflexivity.
Defined.

Lemma filter_comm {A : Type} (f g : A -> bool) (l : list A) :
  filter f (filter g l) = filter g (filter f l).
Proof.
  induction l as [|x l IH]; [reflexivity|]; cbn [filter].
  destruct (f x) eqn:Ef, (g x) eqn:Eg; cbn [filter]; rewrite ?Ef, ?Eg, IH; reflexivity.
Qed.

Lemma eval_rows_family (g : string) (bs : list batch) :
  Evaluate.truthy (Some g) = true ->
  eval_rows (Some g) bs = fam_rows g (eval_rows None bs).
Proof.
  intro Ht; unfold eval_rows, fam_rows.
  assert (Hm : map (Evaluate.scanner_filter (Some g)) bs
               = map (filter (fun r => String.eqb (src_family r) g)) bs).
  { apply map_ext; intro b; unfold Evaluate.scanner_filter; now rewrite Ht. }
  assert (Hn : map (Evaluate.scanner_filter None) bs = bs) by apply map_id.
  rewrite Hm, Hn, <- filter_concat; apply filter_comm.
Qed.

(** X6. Filtering the scan to one source family gives, as global
    histogram, the array that an unfiltered by-family run holds for that
    family, or all zeros when that run has no key for it. *)
Theorem family_filter_matches_group (g : string) (bs : list batch) :
  Evaluate.truthy (Some g) = true ->
  forallb countable (eval_rows None bs) = true ->
  exists counts d totals counts_g d_g totals_g,
    Evaluate.aggregate_counts None true bs = Ok (counts, d, totals) /\
    Evaluate.aggregate_counts (Some g) false bs = Ok (counts_g, d_g, totals_g) /\
    counts_g = fam_hist d g.
Proof.
  intros Ht Hall.
  pose proof (evaluate_aggregate_general None true bs) as H.
  pose proof (evaluate_aggregate_general (Some g) false bs) as Hg.
  rewrite (eval_rows_family g bs Ht) in Hg.
  destruct (Evaluate.aggregate_counts None true bs) as [[[counts d] [n_pos n_neg]]|e];
    [|destruct H as (_ & H); congruence].
  destruct (Evaluate.aggregate_counts (Some g) false bs) as [[[cg dg] [pg ng]]|e].
  - destruct H as (_ & _ & _ & _ & Hfam); destruct Hg as (_ & Hcg & _).
    exists counts, d, (n_pos, n_neg), cg, dg, (pg, ng); repeat split.
    unfold fam_hist; rewrite Hfam, Hcg.
    now destruct (fam_rows g (eval_rows None bs)).
  - destruct Hg as (_ & Hg); rewrite fam_rows_countable in Hg by exact Hall; discriminate.
Qed.

Lemma family_filter_matches_group_witness :
  exists counts d totals counts_g d_g totals_g,
    Evaluate.aggregate_counts None true stream_label2 = Ok (counts, d, totals) /\
    Evaluate.aggregate_counts (Some "uci"%string) false stream_label2
    = Ok (counts_g, d_g, totals_g) /\
    counts_g = fam_hist d "uci".
Proof.
  apply (family_filter_matches_group "uci" stream_label2); reflexivity.
Defined.

(** ** The per-family arrays add up to the global histogram *)

Lemma hist_sum_length (hs : list hist) :
  Forall (fun h => length h = 8%nat) hs -> length (hist_sum hs) = 8%nat.
Proof.
  induction 1 as [|h hs Hh _ IH]; [reflexivity|]; cbn [hist_sum fold_right].
  fold (hist_sum hs); now rewrite hist_add_length, Hh, IH.
Qed.

Lemma dict_values_ok (d : list (string * hist)) :
  dict_ok d -> Forall (fun h => length h = 8%nat) (map snd d).
Proof. unfold dict_ok; intro H; induction H; cbn [map]; constructor; auto. Qed.

Lemma hist_add_swap (a b c : hist) :
  hist_add (hist_add a b) c = hist_add (hist_add a c) b.
Proof. now rewrite !hist_add_assoc, (hist_add_comm b c). Qed.

Lemma hist_sum_cons (h : hist) (hs : list hist) :
  hist_sum (h :: hs) = hist_add h (hist_sum hs).
Proof. reflexivity. Qed.

Lemma fam_hist_cons (k : string) (v : hist) (d : list (string * hist)) (f : string) :
  fam_hist ((k, v) :: d) f = if String.eqb k f then v else fam_hist d f.
Proof. unfold fam_hist; cbn [Evaluate.dict_get]; now destruct (String.eqb k f). Qed.

Lemma dict_set_sum (d : list (string * hist)) (f : string) (t : hist) :
  dict_ok d -> length t = 8%nat ->
  hist_sum (map snd (Evaluate.dict_set d f (hist_add (fam_hist d f) t)))
  = hist_add (hist_sum (map snd d)) t.
Proof.
  intros Hd Ht; induction Hd as [|[k v] d Hkv Hd IH].
  - cbn [Evaluate.dict_set map snd]; rewrite hist_sum_cons.
    change (fam_hist [] f) with zeros_8_2; change (hist_sum []) with zeros_8_2.
    rewrite hist_add_zeros_l by exact Ht.
    unfold zeros_8_2; now rewrite hist_add_zeros by lia.
  - rewrite fam_hist_cons; cbn [Evaluate.dict_set].
    destruct (String.eqb k f) eqn:E; cbn [map snd]; rewrite !hist_sum_cons.
    + apply hist_add_swap.
    + now rewrite IH, hist_add_assoc.
Qed.

Lemma count_family_sum (kept : batch) (d d' : list (string * hist)) (f : string) :
  dict_ok d ->
  forallb countable kept = true ->
  Evaluate.count_family kept d f = Ok d' ->
  hist_sum (map snd d') = hist_add (hist_sum (map snd d)) (tally (fam_rows f kept)).
Proof.
  intros Hd Hk; unfold Evaluate.count_family; fold (fam_rows f kept); fold (fam_hist d f).
  pose proof (fam_rows_countable f kept Hk) as Hrows.
  destruct (fam_rows f kept) as [|r rows'] eqn:E.
  - intros [= <-]; rewrite tally_nil; unfold zeros_8_2; rewrite hist_add_zeros; auto.
    rewrite hist_sum_length; [lia|now apply dict_values_ok].
  - rewrite (count_labels_general _ (r :: rows') (fam_hist_length d f Hd)), Hrows.
    cbn [bind]; intros [= <-]; apply dict_set_sum; auto.
Qed.

Lemma count_families_sum (kept : batch) (fs : list string) :
  forallb countable kept = true ->
  forall d d',
    dict_ok d ->
    Evaluate.count_families kept d fs = Ok d' ->
    hist_sum (map snd d')
    = hist_add (hist_sum (map snd d))
               (hist_sum (map (fun f => tally (fam_rows f kept)) fs)).
Proof.
  intro Hk; induction fs as [|f fs IH]; intros d d' Hd; cbn [Evaluate.count_families].
  - intros [= <-]; cbn [map hist_sum fold_right]; unfold zeros_8_2.
    rewrite hist_add_zeros; auto.
    rewrite hist_sum_length; [lia|now apply dict_values_ok].
  - destruct (count_family_general kept d f Hd Hk) as (d1 & E1 & Hd1 & _).
    rewrite E1; cbn [bind]; intro E.
    rewrite (IH d1 d' Hd1 E), (count_family_sum kept d d1 f Hd Hk E1).
    cbn [map hist_sum fold_right]; now rewrite hist_add_assoc.
Qed.

Lemma tally_cons (r : bin_row) (rows : list bin_row) :
  tally (r :: rows) = hist_add (tally [r]) (tally rows).
Proof. change (r :: rows) with ([r] ++ rows); apply tally_app. Qed.

Lemma tally_filter_disjoint (P Q : bin_row -> bool) (rows : list bin_row) :
  (forall r, In r rows -> P r && Q r = false) ->
  hist_add (tally (filter P rows)) (tally (filter Q rows))
  = tally (filter (fun r => P r || Q r) rows).
Proof.
  induction rows as [|r rows IH]; intro H; [reflexivity|]; cbn [filter].
  specialize (IH (fun x Hx => H x (or_intror Hx))).
  specialize (H r (or_introl eq_refl)).
  destruct (P r), (Q r); cbn [orb andb] in *; try discriminate.
  - rewrite (tally_cons r (filter P rows)),
      (tally_cons r (filter (fun r => P r || Q r) rows)).
    now rewrite hist_add_assoc, IH.
  - rewrite (tally_cons r (filter Q rows)),
      (tally_cons r (filter (fun r => P r || Q r) rows)), <- IH.
    now rewrite <- !hist_add_assoc, (hist_add_comm (tally (filter P rows))).
  - exact IH.
Qed.

Lemma family_partition (rows : list bin_row) (fs : list string) :
  NoDup fs ->
  hist_sum (map (fun f => tally (fam_rows f rows)) fs)
  = tally (filter (fun r => existsb (String.eqb (src_family r)) fs) rows).
Proof.
  induction 1 as [|f fs Hnin Hnd IH]; cbn [map hist_sum fold_right existsb].
  - replace (filter (fun _ => false) rows) with (@nil bin_row); [reflexivity|].
    symmetry; clear; induction rows; auto.
  - fold (hist_sum (map (fun f => tally (fam_rows f rows)) fs)); rewrite IH.
    unfold fam_rows; apply tally_filter_disjoint; intros r _.
    destruct (String.eqb (src_family r) f) eqn:E; [|reflexivity]; cbn [andb].
    apply String.eqb_eq in E; subst f; apply not_true_is_false; intro Hex.
    apply existsb_exists in Hex as (x & Hx & Ex); apply String.eqb_eq in Ex; now subst x.
Qed.

Lemma families_cover (rows : list bin_row) :
  hist_sum (map (fun f => tally (fam_rows f rows)) (np_unique (map src_family rows)))
  = tally rows.
Proof.
  rewrite family_partition by apply np_unique_nodup; f_equal.
  apply filter_all; intros r Hr; apply existsb_exists.
  exists (src_family r); split; [|apply String.eqb_refl].
  apply np_unique_in; now apply in_map.
Qed.

Lemma evaluate_scan_sum (bs : list batch) :
  forall st st',
    length (Evaluate.counts_global st) = 8%nat ->
    dict_ok (Evaluate.counts_by_family st) ->
    Evaluate.scan true st bs = Ok st' ->
    hist_sum (map snd (Evaluate.counts_by_family st'))
    = hist_add (hist_sum (map snd (Evaluate.counts_by_family st)))
               (tally (filter finite_row (concat bs))).
Proof.
  induction bs as [|b bs IH]; intros st st' Hlen Hd; cbn [Evaluate.scan concat].
  - intros [= <-]; cbn [filter]; rewrite tally_nil; unfold zeros_8_2.
    rewrite hist_add_zeros; auto.
    rewrite hist_sum_length; [lia|now apply dict_values_ok].
  - rewrite filter_app, tally_app; unfold Evaluate.step.
    destruct (filter finite_row b) as [|r kept] eqn:E.
    + cbn [bind]; intro Hscan; rewrite (IH st st' Hlen Hd Hscan), tally_nil.
      now rewrite hist_add_zeros_l by apply tally_length.
    + rewrite (count_labels_general _ (r :: kept) Hlen).
      destruct (forallb countable (r :: kept)) eqn:Hk; cbn [bind]; [|discriminate].
      destruct (count_families_general (r :: kept) _
                  (np_unique_nodup (map src_family (r :: kept))) Hk
                  (Evaluate.counts_by_family st) Hd) as (d & Ed & Hd1 & _).
      rewrite Ed; cbn [bind]; intro Hscan.
      match type of Hscan with Evaluate.scan _ ?s _ = _ => set (st1 := s) in * end.
      assert (Hlen1 : length (Evaluate.counts_global st1) = 8%nat).
      { subst st1; cbn [Evaluate.counts_global].
        now rewrite hist_add_length, tally_length, Hlen. }
      rewrite (IH st1 st' Hlen1 Hd1 Hscan); subst st1; cbn [Evaluate.counts_by_family].
      rewrite (count_families_sum _ _ Hk _ _ Hd Ed), families_cover.
      now rewrite hist_add_assoc.
Qed.

(** X7. With [by_family] set, the per-family arrays that
    [aggregate_counts] of [evaluate.py] returns add up, entry by entry, to
    the global histogram it returns. *)
Theorem family_histograms_sum_to_global (family : option string) (bs : list batch) :
  forallb countable (eval_rows family bs) = true ->
  exists counts d totals,
    Evaluate.aggregate_counts family true bs = Ok (counts, d, totals) /\
    hist_sum (map snd d) = counts.
Proof.
  intro Hall; pose proof (evaluate_aggregate_general family true bs) as H.
  unfold Evaluate.aggregate_counts in *.
  destruct (Evaluate.scan true Evaluate.init (map (Evaluate.scanner_filter family) bs))
    as [st|e] eqn:Hscan; cbn [bind] in *; [|destruct H as (_ & H); congruence].
  destruct H as (_ & Hc & _).
  do 3 eexists; split; [reflexivity|].
  rewrite (evaluate_scan_sum _ Evaluate.init st eq_refl (Forall_nil _) Hscan), Hc.
  cbn [Evaluate.init Evaluate.counts_by_family map hist_sum fold_right].
  now rewrite hist_add_zeros_l by apply tally_length.
Qed.

Lemma family_histograms_sum_to_global_witness :
  exists counts d totals,
    Evaluate.aggregate_counts None true stream_label2 = Ok (counts, d, totals) /\
    hist_sum (map snd d) = counts.
Proof.
  apply (family_histograms_sum_to_global None stream_label2); reflexivity.
Defined.

(** ** The rates of a metrics row *)

Lemma Qdiv_le_same (a c b : Z) :
  0 < b -> a <= c -> (inject_Z a / inject_Z b <= inject_Z c / inject_Z b)%Q.
Proof.
  intros Hb Hac; unfold Qdiv; apply Qmult_le_compat_r.
  - now rewrite <- Zle_Qle.
  - apply Qlt_le_weak, Qinv_lt_0_compat; now rewrite <- (Zlt_Qlt 0).
Qed.

Lemma Qdiv_unit (a b : Z) :
  0 < b -> 0 <= a <= b -> (0 <= inject_Z a / inject_Z b <= 1)%Q.
Proof.
  intros Hb [Ha Hab].
  assert (Hbq : (0 < inject_Z b)%Q) by now rewrite <- (Zlt_Qlt 0).
  split.
  - apply Qle_shift_div_l; [exact Hbq|]. rewrite Qmult_0_l, <- (Zle_Qle 0); exact Ha.
  - apply Qle_shift_div_r; [exact Hbq|]. rewrite Qmult_1_l, <- Zle_Qle; exact Hab.
Qed.

Lemma guarded_unit (a b : Z) :
  0 <= a <= b ->
  (0 <= (if b =? 0 then 0 else inject_Z a / inject_Z b) <= 1)%Q.
Proof.
  intro H; destruct (b =? 0) eqn:E; [lra|].
  apply Z.eqb_neq in E; apply Qdiv_unit; lia.
Qed.

Lemma guarded_mono (a c b : Z) :
  0 <= b -> a <= c ->
  ((if b =? 0 then 0 else inject_Z a / inject_Z b)
   <= (if b =? 0 then 0 else inject_Z c / inject_Z b))%Q.
Proof.
  intros Hb Hac; destruct (b =? 0) eqn:E; [lra|].
  apply Z.eqb_neq in E; apply Qdiv_le_same; lia.
Qed.

Lemma masked_mono (m1 m2 : list bool) (xs : list Z) :
  Forall2 (fun b2 b1 => b2 = true -> b1 = true) m2 m1 ->
  Forall (fun x => 0 <= x) xs ->
  zsum (masked m2 xs) <= zsum (masked m1 xs).
Proof.
  intro H; revert xs; induction H as [|b2 b1 m2 m1 Hb _ IH]; intros xs Hxs;
    cbn [masked]; [destruct xs; cbn; lia|].
  destruct Hxs as [|x xs Hx Hxs]; [destruct b2, b1; cbn; lia|].
  specialize (IH xs Hxs).
  pose proof (masked_bounds m1 xs Hxs) as B1.
  destruct b2, b1; cbn [zsum fold_right];
    fold (zsum (masked m1 xs)) (zsum (masked m2 xs)); try lia;
    specialize (Hb eq_refl); discriminate.
Qed.

Lemma threshold_masks (t1 t2 : Q) (s : list Q) :
  (t1 <= t2)%Q ->
  Forall2 (fun b2 b1 => b2 = true -> b1 = true)
          (map (fun sc => Qle_bool t2 sc) s) (map (fun sc => Qle_bool t1 sc) s).
Proof.
  intro Ht; induction s as [|sc s IH]; cbn [map]; constructor; [|exact IH].
  rewrite !Qle_bool_iff; intro H; lra.
Qed.

(** X8. On an 8x2 histogram of counts, raising the threshold never raises
    tp, fp, tpr or fpr and never lowers tn or fn. *)
Theorem threshold_monotone (counts : hist) (t1 t2 : Q) :
  length counts = 8%nat ->
  hist_nonneg counts ->
  (t1 <= t2)%Q ->
  exists r1 r2,
    Evaluate.eval_thresholds_from_counts counts [t1; t2] = Ok [r1; r2] /\
    Evaluate.tp r2 <= Evaluate.tp r1 /\
    Evaluate.fp r2 <= Evaluate.fp r1 /\
    Evaluate.tn r1 <= Evaluate.tn r2 /\
    Evaluate.fn r1 <= Evaluate.fn r2 /\
    (Evaluate.tpr r2 <= Evaluate.tpr r1)%Q /\
    (Evaluate.fpr r2 <= Evaluate.fpr r1)%Q.
Proof.
  intros Hlen Hnn Ht.
  destruct (eval_threshold_rates counts t1 Hlen)
    as (r1 & E1 & Htp1 & Hfp1 & Hfn1 & Htn1 & Hp1 & Hn1 & Htpr1 & Hfpr1 & _).
  destruct (eval_threshold_rates counts t2 Hlen)
    as (r2 & E2 & Htp2 & Hfp2 & Hfn2 & Htn2 & Hp2 & Hn2 & Htpr2 & Hfpr2 & _).
  exists r1, r2; unfold Evaluate.eval_thresholds_from_counts.
  cbn [Evaluate.eval_thresholds_with]; rewrite E1, E2; cbn [bind].
  split; [reflexivity|].
  destruct (hist_nonneg_columns counts Hnn) as [H0 H1].
  pose proof (masked_mono _ _ _ (threshold_masks t1 t2 Evaluate.SCORES_BY_PATTERN Ht) H1)
    as Mtp.
  pose proof (masked_mono _ _ _ (threshold_masks t1 t2 Evaluate.SCORES_BY_PATTERN Ht) H0)
    as Mfp.
  rewrite <- Htp1, <- Htp2 in Mtp; rewrite <- Hfp1, <- Hfp2 in Mfp.
  pose proof (zsum_nonneg _ H1) as P1; pose proof (zsum_nonneg _ H0) as P0.
  rewrite Htpr1, Htpr2, Hfpr1, Hfpr2, Hp1, Hp2, Hn1, Hn2.
  repeat split; try lia; apply guarded_mono; assumption.
Qed.

Lemma threshold_monotone_witness :
  exists r1 r2,
    Evaluate.eval_thresholds_from_counts scenario_hist [0.3%Q; 0.7%Q] = Ok [r1; r2] /\
    Evaluate.tp r2 <= Evaluate.tp r1 /\
    Evaluate.fp r2 <= Evaluate.fp r1 /\
    Evaluate.tn r1 <= Evaluate.tn r2 /\
    Evaluate.fn r1 <= Evaluate.fn r2 /\
    (Evaluate.tpr r2 <= Evaluate.tpr r1)%Q /\
    (Evaluate.fpr r2 <= Evaluate.fpr r1)%Q.
Proof.
  apply (threshold_monotone scenario_hist 0.3%Q 0.7%Q).
  - reflexivity.
  - unfold hist_nonneg, scenario_hist; repeat constructor; cbn; lia.
  - vm_compute; discriminate.
Defined.



(** ** The score levels are the only operating points *)

Lemma least_element (l : list Q) :
  l <> [] -> exists m, In m l /\ forall x, In x l -> (m <= x)%Q.
Proof.
  induction l as [|a l IH]; [congruence|]; intros _.
  destruct l as [|b l].
  - exists a; split; [now left|]; intros x [<- | []]; lra.
  - destruct IH as (m & Hm & Hle); [discriminate|].
    destruct (Qlt_le_dec a m) as [Ham|Hma].
    + exists a; split; [now left|].
      intros x [<- | Hx]; [lra|]. specialize (Hle x Hx); lra.
    + exists m; split; [now right|].
      intros x [<- | Hx]; [lra|]. now apply Hle.
Qed.

(** A threshold that some score reaches selects the same patterns as the
    least score at or above it. *)
Lemma mask_level (s : list Q) (thr : Q) :
  (exists sc, In sc s /\ (thr <= sc)%Q) ->
  exists lv, In lv s /\ (thr <= lv)%Q /\
    map (fun sc => Qle_bool thr sc) s = map (fun sc => Qle_bool lv sc) s.
Proof.
  intros (sc & Hin & Hsc).
  destruct (least_element (filter (fun x => Qle_bool thr x) s)) as (lv & Hlv & Hmin).
  { intro Hnil; assert (H : In sc (filter (fun x => Qle_bool thr x) s)).
    { apply filter_In; split; [exact Hin|now apply Qle_bool_iff]. }
    rewrite Hnil in H; destruct H. }
  apply filter_In in Hlv as [Hlv Hle]; apply Qle_bool_iff in Hle.
  exists lv; split; [exact Hlv|]; split; [exact Hle|].
  apply map_ext_in; intros x Hx.
  destruct (Qle_bool thr x) eqn:E.
  - symmetry; apply Qle_bool_iff, Hmin, filter_In; split; [exact Hx|exact E].
  - destruct (Qle_bool lv x) eqn:E'; [|reflexivity].
    apply Qle_bool_iff in E'.
    assert (H : Qle_bool thr x = true) by (apply Qle_bool_iff; lra).
    congruence.
Qed.

Lemma same_mask_same_point (counts : hist) (t1 t2 : Q) :
  length counts = 8%nat ->
  map (fun sc => Qle_bool t1 sc) Evaluate.SCORES_BY_PATTERN
  = map (fun sc => Qle_bool t2 sc) Evaluate.SCORES_BY_PATTERN ->
  exists r1 r2,
    Evaluate.eval_threshold Evaluate.SCORES_BY_PATTERN counts t1 = Ok r1 /\
    Evaluate.eval_threshold Evaluate.SCORES_BY_PATTERN counts t2 = Ok r2 /\
    same_operating_point r1 r2.
Proof.
  intros Hlen Hmask.
  destruct (eval_threshold_rates counts t1 Hlen)
    as (r1 & E1 & Htp1 & Hfp1 & Hfn1 & Htn1 & Hp1 & Hn1 & Htpr1 & Hfpr1 & Hprec1
        & Hspec1 & Hacc1 & Hf11 & HJ1).
  destruct (eval_threshold_rates counts t2 Hlen)
    as (r2 & E2 & Htp2 & Hfp2 & Hfn2 & Htn2 & Hp2 & Hn2 & Htpr2 & Hfpr2 & Hprec2
        & Hspec2 & Hacc2 & Hf12 & HJ2).
  exists r1, r2; split; [exact E1|]; split; [exact E2|].
  assert (Ptp : Evaluate.tp r1 = Evaluate.tp r2) by (rewrite Htp1, Htp2, Hmask; reflexivity).
  assert (Pfp : Evaluate.fp r1 = Evaluate.fp r2) by (rewrite Hfp1, Hfp2, Hmask; reflexivity).
  assert (Pp : Evaluate.sample_pos r1 = Evaluate.sample_pos r2) by congruence.
  assert (Pn : Evaluate.sample_neg r1 = Evaluate.sample_neg r2) by congruence.
  assert (Pfn : Evaluate.fn r1 = Evaluate.fn r2) by congruence.
  assert (Ptn : Evaluate.tn r1 = Evaluate.tn r2) by congruence.
  assert (Ptpr : Evaluate.tpr r1 = Evaluate.tpr r2) by (rewrite Htpr1, Htpr2, Ptp, Pp; reflexivity).
  assert (Pfpr : Evaluate.fpr r1 = Evaluate.fpr r2) by (rewrite Hfpr1, Hfpr2, Pfp, Pn; reflexivity).
  unfold same_operating_point.
  rewrite HJ1, HJ2, Hprec1, Hprec2, Hspec1, Hspec2, Hacc1, Hacc2, Hf11, Hf12.
  rewrite Ptpr, Pfpr, Ptp, Pfp, Pfn, Ptn, Pp, Pn.
  repeat split; reflexivity.
Qed.

(** X10. The metrics are a step function of the threshold whose steps are
    the score levels: a threshold at or below the largest score gives the
    operating point of the least score level at or above it, a level that
    [main] always evaluates; a threshold above the largest score predicts
    every record negative, with tp = fp = 0 and Youden's J equal to 0. *)
Theorem score_levels_are_exhaustive (counts : hist) (thr : Q) :
  length counts = 8%nat ->
  exists row,
    Evaluate.eval_thresholds_from_counts counts [thr] = Ok [row] /\
    ((thr <= top_score)%Q ->
     exists lv row',
       In lv Evaluate.SCORES_BY_PATTERN /\ (thr <= lv)%Q /\
       (forall threshold_arg, exists t,
          In t (Evaluate.main_thresholds threshold_arg) /\ (t == lv)%Q) /\
       Evaluate.eval_thresholds_from_counts counts [lv] = Ok [row'] /\
       same_operating_point row row') /\
    ((top_score < thr)%Q ->
     Evaluate.tp row = 0 /\ Evaluate.fp row = 0 /\
     Evaluate.fn row = Evaluate.sample_pos row /\
     Evaluate.tn row = Evaluate.sample_neg row /\
     (Evaluate.tpr row == 0)%Q /\ (Evaluate.fpr row == 0)%Q /\
     (Evaluate.youdenJ row == 0)%Q).
Proof.
  intro Hlen.
  destruct (eval_threshold_rates counts thr Hlen)
    as (r & E & Htp & Hfp & Hfn & Htn & Hp & Hn & Htpr & Hfpr & _ & _ & _ & _ & HJ).
  exists r; unfold Evaluate.eval_thresholds_from_counts.
  cbn [Evaluate.eval_thresholds_with]; rewrite E; cbn [bind].
  split; [reflexivity|]; split.
  - intro Hle.
    destruct (mask_level Evaluate.SCORES_BY_PATTERN thr) as (lv & Hlv & Hthr & Hmask).
    { exists top_score; split; [|exact Hle].
      unfold Evaluate.SCORES_BY_PATTERN, top_score; cbn [In]; tauto. }
    destruct (same_mask_same_point counts thr lv Hlen Hmask) as (r1 & r2 & E1 & E2 & Hsame).
    rewrite E in E1; injection E1 as <-.
    exists lv, r2; split; [exact Hlv|]; split; [exact Hthr|]; split.
    + intro threshold_arg; unfold Evaluate.main_thresholds, Evaluate.auto_thresholds.
      destruct (sorted_set_has Evaluate.SCORES_BY_PATTERN lv Hlv) as (t & Ht & Et).
      destruct threshold_arg as [|a l].
      * exists t; split; [exact Ht|exact Et].
      * destruct (sorted_set_has (sorted_set Evaluate.SCORES_BY_PATTERN ++ a :: l) t)
          as (t' & Ht' & Et'); [apply in_or_app; now left|].
        exists t'; split; [exact Ht'|]. now rewrite Et'.
    + rewrite E2; cbn [bind]; split; [reflexivity|exact Hsame].
  - intro Hgt.
    assert (Hmask : map (fun sc => Qle_bool thr sc) Evaluate.SCORES_BY_PATTERN
                    = repeat false 8).
    { unfold Evaluate.SCORES_BY_PATTERN; cbn [map repeat].
      unfold top_score in Hgt.
      repeat match goal with
             | |- context [Qle_bool thr ?x] =>
                 let Hx := fresh in
                 destruct (Qle_bool thr x) eqn:Hx;
                 [apply Qle_bool_iff in Hx;
                  unfold Evaluate.W_SM, Evaluate.W_CR, Evaluate.W_PH in *; lra|]
             end.
      reflexivity. }
    rewrite Hmask in Htp, Hfp.
    assert (Hnone : forall xs, masked (repeat false 8) xs = []).
    { intro xs; do 9 (destruct xs as [|? xs]; [reflexivity|]); reflexivity. }
    rewrite Hnone in Htp, Hfp; cbn in Htp, Hfp.
    assert (Ztpr : (Evaluate.tpr r == 0)%Q).
    { rewrite Htpr, Htp; destruct (Evaluate.sample_pos r =? 0); [reflexivity|].
      unfold Qdiv; apply Qmult_0_l. }
    assert (Zfpr : (Evaluate.fpr r == 0)%Q).
    { rewrite Hfpr, Hfp; destruct (Evaluate.sample_neg r =? 0); [reflexivity|].
      unfold Qdiv; apply Qmult_0_l. }
    repeat split; try lia; try assumption.
    rewrite HJ, Ztpr, Zfpr; reflexivity.
Qed.

Lemma score_levels_are_exhaustive_witness :
  exists row,
    Evaluate.eval_thresholds_from_counts scenario_hist [0.5%Q] = Ok [row] /\
    ((0.5 <= top_score)%Q ->
     exists lv row',
       In lv Evaluate.SCORES_BY_PATTERN /\ (0.5 <= lv)%Q /\
       (forall threshold_arg, exists t,
          In t (Evaluate.main_thresholds threshold_arg) /\ (t == lv)%Q) /\
       Evaluate.eval_thresholds_from_counts scenario_hist [lv] = Ok [row'] /\
       same_operating_point row row') /\
    ((top_score < 0.5)%Q ->
     Evaluate.tp row = 0 /\ Evaluate.fp row = 0 /\
     Evaluate.fn row = Evaluate.sample_pos row /\
     Evaluate.tn row = Evaluate.sample_neg row /\
     (Evaluate.tpr row == 0)%Q /\ (Evaluate.fpr row == 0)%Q /\
     (Evaluate.youdenJ row == 0)%Q).
Proof. apply (score_levels_are_exhaustive scenario_hist 0.5%Q); reflexivity. Defined.

(** ** The weighted design *)

Lemma combine_rows (R : list (list Z * Z * Z)) :
  combine (combine (map (fun r => fst (fst r)) R) (map (fun r => snd (fst r)) R))
          (map snd R) = R.
Proof.
  induction R as [|[[b l] c] R IH]; cbn [map combine fst snd]; [reflexivity|].
  now rewrite IH.
Qed.

Lemma bits_eqb (p q : nat) :
  (p < 8)%nat -> (q < 8)%nat ->
  zlist_eqb (FindWeights.bits (Z.of_nat q)) (FindWeights._bits_from_pattern (Z.of_nat p))
  = (q =? p)%nat.
Proof.
  intros Hp Hq.
  do 8 (destruct p as [|p]; [do 8 (destruct q as [|q]; [reflexivity|]); lia|]); lia.
Qed.

Lemma filter_if {A : Type} (f : A -> bool) (c : bool) (x : A) :
  filter f (if c then [x] else []) = if c && f x then [x] else [].
Proof. destruct c; cbn [filter andb]; [destruct (f x)|]; reflexivity. Qed.

Lemma cell_rows_sel (counts : hist) (p q : nat) (l : Z) :
  (p < 8)%nat -> (q < 8)%nat ->
  filter (design_sel p l) (cell_rows counts q)
  = if (q =? p)%nat
    then match nth_error counts p with
         | Some (c0, c1) =>
             (if (0 <? c0) && (0 =? l) then [(FindWeights.bits (Z.of_nat p), 0, c0)] else [])
             ++ (if (0 <? c1) && (1 =? l) then [(FindWeights.bits (Z.of_nat p), 1, c1)] else [])
         | None => []
         end
    else [].
Proof.
  intros Hp Hq; unfold cell_rows.
  destruct (Nat.eqb_spec q p) as [->|Hne].
  - destruct (nth_error counts p) as [[c0 c1]|]; [|reflexivity].
    rewrite filter_app, !filter_if; unfold design_sel; cbn [fst snd].
    now rewrite bits_eqb, Nat.eqb_refl by assumption.
  - destruct (nth_error counts q) as [[c0 c1]|]; [|reflexivity].
    rewrite filter_app, !filter_if; unfold design_sel; cbn [fst snd].
    rewrite bits_eqb by assumption.
    apply Nat.eqb_neq in Hne; rewrite Hne; cbn [andb]; now rewrite !andb_false_r.
Qed.

Lemma flat_rows_sel_none (counts : hist) (p : nat) (l : Z) (ps : list nat) :
  (p < 8)%nat ->
  (forall q, In q ps -> (q < 8)%nat /\ q <> p) ->
  filter (design_sel p l) (flat_map (cell_rows counts) ps) = [].
Proof.
  intros Hp; induction ps as [|q ps IH]; intro Hall; cbn [flat_map]; [reflexivity|].
  destruct (Hall q (or_introl eq_refl)) as [Hq Hne].
  rewrite filter_app, cell_rows_sel by assumption.
  apply Nat.eqb_neq in Hne; rewrite Hne; cbn [app].
  apply IH; intros q' Hq'; apply Hall; now right.
Qed.

Lemma seq_split_at (p : nat) :
  (p < 8)%nat -> seq 0 8 = seq 0 p ++ p :: seq (S p) (7 - p).
Proof. intro Hp; do 8 (destruct p as [|p]; [reflexivity|]); lia. Qed.

Lemma flat_rows_sel (counts : hist) (p : nat) (l : Z) (c0 c1 : Z) :
  (p < 8)%nat ->
  nth_error counts p = Some (c0, c1) ->
  filter (design_sel p l) (flat_map (cell_rows counts) (seq 0 8))
  = (if (0 <? c0) && (0 =? l) then [(FindWeights.bits (Z.of_nat p), 0, c0)] else [])
    ++ (if (0 <? c1) && (1 =? l) then [(FindWeights.bits (Z.of_nat p), 1, c1)] else []).
Proof.
  intros Hp Hnth; rewrite (seq_split_at p Hp), flat_map_app; cbn [flat_map].
  rewrite !filter_app.
  rewrite (flat_rows_sel_none counts p l (seq 0 p)) by
    (try assumption; intros q Hq; apply in_seq in Hq; lia).
  rewrite (flat_rows_sel_none counts p l (seq (S p) (7 - p))) by
    (try assumption; intros q Hq; apply in_seq in Hq; lia).
  rewrite cell_rows_sel, Nat.eqb_refl, Hnth by assumption.
  cbn [app]; now rewrite app_nil_r.
Qed.

Lemma zsum_app (a b : list Z) : zsum (a ++ b) = zsum a + zsum b.
Proof.
  induction a as [|x a IH]; cbn [app zsum fold_right]; [reflexivity|].
  fold (zsum (a ++ b)) (zsum a); lia.
Qed.

Lemma cell_rows_facts (counts : hist) (p : nat) :
  (p < 8)%nat ->
  Forall (fun r => 0 < snd r /\ (snd (fst r) = 0 \/ snd (fst r) = 1) /\
                   exists q, 0 <= q < 8 /\ fst (fst r) = FindWeights._bits_from_pattern q)
         (cell_rows counts p) /\
  (length (cell_rows counts p) <= 2)%nat /\
  zsum (map snd (cell_rows counts p))
  = match nth_error counts p with
    | Some (c0, c1) => Z.max 0 c0 + Z.max 0 c1
    | None => 0
    end.
Proof.
  intro Hp; unfold cell_rows.
  destruct (nth_error counts p) as [[c0 c1]|]; [|repeat split; cbn; auto].
  assert (Hb : exists q, 0 <= q < 8
                 /\ FindWeights.bits (Z.of_nat p) = FindWeights._bits_from_pattern q)
    by (exists (Z.of_nat p); split; [lia|reflexivity]).
  destruct (Z.ltb_spec 0 c0) as [H0|H0], (Z.ltb_spec 0 c1) as [H1|H1];
    cbn [app map zsum fold_right length fst snd];
    (split; [|split; lia]);
    repeat (apply Forall_cons;
            [cbn [fst snd]; split; [lia|split; [auto|exact Hb]]|]);
    apply Forall_nil.
Qed.

Lemma flat_rows_facts (counts : hist) (ps : list nat) :
  (forall p, In p ps -> (p < 8)%nat) ->
  Forall (fun r => 0 < snd r /\ (snd (fst r) = 0 \/ snd (fst r) = 1) /\
                   exists q, 0 <= q < 8 /\ fst (fst r) = FindWeights._bits_from_pattern q)
         (flat_map (cell_rows counts) ps) /\
  (length (flat_map (cell_rows counts) ps) <= 2 * length ps)%nat /\
  zsum (map snd (flat_map (cell_rows counts) ps))
  = zsum (map (fun p => match nth_error counts p with
                        | Some (c0, c1) => Z.max 0 c0 + Z.max 0 c1
                        | None => 0
                        end) ps).
Proof.
  induction ps as [|p ps IH]; intro Hall; cbn [flat_map map length].
  - repeat split; [constructor|lia].
  - destruct IH as (F & L & S); [intros q Hq; apply Hall; now right|].
    destruct (cell_rows_facts counts p (Hall p (or_introl eq_refl))) as (F1 & L1 & S1).
    rewrite map_app, zsum_app, length_app, S1, S; cbn [zsum fold_right].
    repeat split; [apply Forall_app; now split|lia].
Qed.

(** X11. From an 8x2 histogram of counts with at least one record the
    weighted design is built without error and loses nothing: it has the
    same number of feature rows, labels and weights, between 1 and 16; every
    weight is positive, every label is 0 or 1 and every feature row is the
    bit row of a pattern; the weights add up to the number of records; and
    for each pattern the weight under each label is exactly the histogram
    cell. *)
Theorem weighted_design_is_lossless (counts : hist) :
  length counts = 8%nat ->
  hist_nonneg counts ->
  0 < hist_total counts ->
  exists d,
    FindWeights.build_weighted_design counts = Ok d /\
    length (FindWeights.X d) = length (FindWeights.w d) /\
    length (FindWeights.y d) = length (FindWeights.w d) /\
    (1 <= length (FindWeights.w d) <= 16)%nat /\
    Forall (fun c => 0 < c) (FindWeights.w d) /\
    Forall (fun l => l = 0 \/ l = 1) (FindWeights.y d) /\
    Forall (fun b => exists p, 0 <= p < 8 /\ b = FindWeights._bits_from_pattern p)
           (FindWeights.X d) /\
    zsum (FindWeights.w d) = hist_total counts /\
    forall p c0 c1,
      nth_error counts p = Some (c0, c1) ->
      design_weight d p 0 = c0 /\ design_weight d p 1 = c1.
Proof.
  intros Hlen Hnn Htot.
  pose proof (build_weighted_design_spec counts Hlen) as Hb.
  destruct (has_positive_cell counts) eqn:Hpos.
  2:{ apply zero_total_no_positive_cell in Hpos; [lia|exact Hnn]. }
  destruct Hb as (d & Hd & HX); exists d; split; [exact Hd|].
  unfold FindWeights.build_weighted_design in Hd.
  destruct (design_loop_rows counts (seq 0 8)
              (fun p Hp => ltac:(apply in_seq in Hp; lia))
              {| FindWeights.X := []; FindWeights.y := []; FindWeights.w := [] |})
    as (d' & Hloop & EX & Ey & Ew).
  rewrite Hloop in Hd; cbn [bind] in Hd.
  assert (d' = d) as -> by (destruct (FindWeights.X d'); congruence).
  cbn [FindWeights.X FindWeights.y FindWeights.w app] in EX, Ey, Ew.
  set (R := flat_map (cell_rows counts) (seq 0 8)) in *.
  destruct (flat_rows_facts counts (seq 0 8)) as (F & L & S);
    [intros p Hp; apply in_seq in Hp; lia|]; fold R in F, L, S.
  rewrite Forall_forall in F.
  assert (Hrows : design_rows d = R) by (unfold design_rows; rewrite EX, Ey, Ew; apply combine_rows).
  rewrite EX, Ey, Ew, !length_map.
  split; [reflexivity|]; split; [reflexivity|]; split.
  { split; [|cbn [length seq] in L; lia].
    destruct R; [rewrite EX in HX; now cbn in HX|cbn [length]; lia]. }
  split; [apply Forall_forall; intros c Hc; apply in_map_iff in Hc as (r & <- & Hr);
          apply (F r Hr)|].
  split; [apply Forall_forall; intros c Hc; apply in_map_iff in Hc as (r & <- & Hr);
          apply (F r Hr)|].
  split; [apply Forall_forall; intros c Hc; apply in_map_iff in Hc as (r & <- & Hr);
          destruct (F r Hr) as (_ & _ & q & Hq & Eq); exists q; now split|].
  split.
  - rewrite S; unfold hist_total; clear - Hlen Hnn.
    do 9 (destruct counts as [|[? ?] counts]; try discriminate Hlen).
    unfold hist_nonneg in Hnn; repeat match goal with
           | H : Forall _ (_ :: _) |- _ => inversion H; clear H; subst
           end.
    cbn [seq map nth_error zsum fold_right fst snd] in *.
    rewrite !Z.max_r by tauto; lia.
  - intros p c0 c1 Hnth.
    assert (Hp : (p < 8)%nat) by (rewrite <- Hlen; apply nth_error_Some; congruence).
    assert (Hc : 0 <= c0 /\ 0 <= c1).
    { unfold hist_nonneg in Hnn; rewrite Forall_forall in Hnn.
      apply (Hnn (c0, c1)), (nth_error_In _ _ Hnth). }
    unfold design_weight; rewrite Hrows; unfold R.
    rewrite !(flat_rows_sel counts p _ c0 c1 Hp Hnth).
    cbn [Z.eqb Pos.eqb andb]; rewrite !andb_true_r, !andb_false_r; cbn [app].
    rewrite app_nil_r.
    destruct (Z.ltb_spec 0 c0), (Z.ltb_spec 0 c1);
      cbn [map zsum fold_right snd]; lia.
Qed.

Lemma weighted_design_is_lossless_witness :
  exists d,
    FindWeights.build_weighted_design scenario_hist = Ok d /\
    length (FindWeights.X d) = length (FindWeights.w d) /\
    length (FindWeights.y d) = length (FindWeights.w d) /\
    (1 <= length (FindWeights.w d) <= 16)%nat /\
    Forall (fun c => 0 < c) (FindWeights.w d) /\
    Forall (fun l => l = 0 \/ l = 1) (FindWeights.y d) /\
    Forall (fun b => exists p, 0 <= p < 8 /\ b = FindWeights._bits_from_pattern p)
           (FindWeights.X d) /\
    zsum (FindWeights.w d) = hist_total scenario_hist /\
    forall p c0 c1,
      nth_error scenario_hist p = Some (c0, c1) ->
      design_weight d p 0 = c0 /\ design_weight d p 1 = c1.
Proof.
  apply (weighted_design_is_lossless scenario_hist).
  - reflexivity.
  - unfold hist_nonneg, scenario_hist; repeat constructor; cbn; lia.
  - reflexivity.
Defined.

(** ** Subsampling and the row cap of the threshold scan *)

Lemma scan_subsample_fold (ratio : Q) (bs : list (list raw_row)) :
  negb (Qle_bool ratio 0) = true ->
  forall st,
    FindThreshold.scan ratio None st bs
    = fold_left (FindThreshold.subsample_step ratio) (masked_sample bs) st.
Proof.
  intro Hr; unfold masked_sample.
  induction bs as [|b bs IH]; intro st; cbn [FindThreshold.scan concat]; [reflexivity|].
  rewrite filter_app, map_app, fold_left_app; unfold FindThreshold.step.
  destruct (filter FindThreshold.mask b) as [|r kept] eqn:E.
  - cbn [map fold_left]; apply IH.
  - rewrite Hr; cbv iota; apply IH.
Qed.

Lemma positives_app (a b : FindThreshold.sample) :
  positives (a ++ b) = positives a ++ positives b.
Proof. apply filter_app. Qed.

Lemma negatives_app (a b : FindThreshold.sample) :
  negatives (a ++ b) = negatives a ++ negatives b.
Proof. apply filter_app. Qed.

Lemma subsample_step_inv (ratio : Q) (st : FindThreshold.scan_state) (ys : Z * Q) :
  (0 < ratio)%Q ->
  subsample_inv ratio st ->
  subsample_inv ratio (FindThreshold.subsample_step ratio st ys) /\
  positives (FindThreshold.acc (FindThreshold.subsample_step ratio st ys))
  = positives (FindThreshold.acc st) ++ positives [ys] /\
  (length (FindThreshold.acc (FindThreshold.subsample_step ratio st ys))
   <= S (length (FindThreshold.acc st)))%nat.
Proof.
  intros Hr (Hp & Hn & Hl & Hb); destruct ys as [yi si].
  unfold FindThreshold.subsample_step, subsample_inv.
  assert (Hp0 : 0 <= FindThreshold.pos st) by lia.
  assert (Hp0q : (0 <= inject_Z (FindThreshold.pos st))%Q) by (now rewrite <- (Zle_Qle 0)).
  destruct (Z.eqb_spec yi 1) as [->|Hy].
  - cbn [FindThreshold.acc FindThreshold.pos FindThreshold.neg].
    rewrite positives_app, negatives_app, !length_app, Forall_app.
    cbn [positives negatives filter fst Z.eqb Pos.eqb length].
    rewrite Nat.add_0_r; repeat split; try lia; auto.
    destruct Hb as [Hb|Hb]; [now left|right].
    rewrite inject_Z_plus; change (inject_Z 1) with 1%Q.
    rewrite Qmult_plus_distr_l, Qmult_1_l; lra.
  - assert (Hys : positives [(yi, si)] = []).
    { unfold positives; cbn [filter fst].
      destruct (Z.eqb_spec yi 1) as [|_]; [contradiction|reflexivity]. }
    rewrite Hys, app_nil_r.
    destruct (Qle_bool (inject_Z (FindThreshold.pos st) * ratio)
                       (inject_Z (FindThreshold.neg st))) eqn:E; cbn [negb].
    + repeat split; auto.
    + cbn [FindThreshold.acc FindThreshold.pos FindThreshold.neg].
      rewrite positives_app, negatives_app, !length_app, Forall_app.
      cbn [positives negatives filter fst Z.eqb Pos.eqb length].
      rewrite Nat.add_0_r, app_nil_r; repeat split; try lia; auto.
      right; replace (FindThreshold.neg st + 1 - 1) with (FindThreshold.neg st) by lia.
      apply Qnot_le_lt; intro H; apply Qle_bool_iff in H; congruence.
Qed.

Lemma subsample_fold_inv (ratio : Q) (l : FindThreshold.sample) :
  (0 < ratio)%Q ->
  forall st,
    subsample_inv ratio st ->
    subsample_inv ratio (fold_left (FindThreshold.subsample_step ratio) l st) /\
    positives (FindThreshold.acc (fold_left (FindThreshold.subsample_step ratio) l st))
    = positives (FindThreshold.acc st) ++ positives l /\
    (length (FindThreshold.acc (fold_left (FindThreshold.subsample_step ratio) l st))
     <= length (FindThreshold.acc st) + length l)%nat.
Proof.
  intro Hr; induction l as [|ys l IH]; intros st Hinv; cbn [fold_left].
  - rewrite app_nil_r; split; [exact Hinv|split; [reflexivity|cbn [length]; lia]].
  - destruct (subsample_step_inv ratio st ys Hr Hinv) as (Hinv' & Hpos & Hlen).
    destruct (IH _ Hinv') as (Hinv'' & Hpos' & Hlen').
    split; [exact Hinv''|]; split.
    + change (ys :: l) with ([ys] ++ l).
      now rewrite Hpos', Hpos, positives_app, <- app_assoc.
    + cbn [length]; lia.
Qed.

(** X12. With a positive [neg_pos_ratio] and no row cap the threshold scan
    keeps every finite record of label 1, in stream order; every kept
    record carries label 0 or 1; the sample never has more entries than
    there are finite records; and the number of kept negatives is 0 or
    stays below [positives * ratio + 1]. *)
Theorem subsampling_keeps_positives (ratio : Q) (bs : list (list raw_row)) :
  (0 < ratio)%Q ->
  positives (FindThreshold.scan_weighted_scores ratio None bs)
  = positives (masked_sample bs) /\
  Forall (fun yx => fst yx = 0 \/ fst yx = 1)
         (FindThreshold.scan_weighted_scores ratio None bs) /\
  (length (FindThreshold.scan_weighted_scores ratio None bs)
   <= length (masked_sample bs))%nat /\
  (negatives (FindThreshold.scan_weighted_scores ratio None bs) = [] \/
   (inject_Z (Z.of_nat (length (negatives
                                  (FindThreshold.scan_weighted_scores ratio None bs))) - 1)
    < inject_Z (Z.of_nat (length (positives
                                    (FindThreshold.scan_weighted_scores ratio None bs))))
      * ratio)%Q).
Proof.
  intro Hr; unfold FindThreshold.scan_weighted_scores.
  assert (Hneg : negb (Qle_bool ratio 0) = true).
  { destruct (Qle_bool ratio 0) eqn:E; [apply Qle_bool_iff in E; lra|reflexivity]. }
  rewrite (scan_subsample_fold ratio bs Hneg).
  destruct (subsample_fold_inv ratio (masked_sample bs) Hr
              {| FindThreshold.acc := []; FindThreshold.pos := 0; FindThreshold.neg := 0 |})
    as ((Hp & Hn & Hl & Hb) & Hpos & Hlen).
  { unfold subsample_inv; cbn; repeat split; auto. }
  cbn [FindThreshold.acc app length] in Hpos, Hlen.
  split; [exact Hpos|]; split; [exact Hl|]; split; [lia|].
  rewrite <- Hp, <- Hn.
  destruct Hb as [Hb|Hb]; [left|right; exact Hb].
  rewrite Hn in Hb; apply length_zero_iff_nil; lia.
Qed.

Lemma subsampling_keeps_positives_witness :
  positives (FindThreshold.scan_weighted_scores 1 None raw_stream)
  = positives (masked_sample raw_stream) /\
  Forall (fun yx => fst yx = 0 \/ fst yx = 1)
         (FindThreshold.scan_weighted_scores 1 None raw_stream) /\
  (length (FindThreshold.scan_weighted_scores 1 None raw_stream)
   <= length (masked_sample raw_stream))%nat /\
  (negatives (FindThreshold.scan_weighted_scores 1 None raw_stream) = [] \/
   (inject_Z (Z.of_nat (length (negatives
                                  (FindThreshold.scan_weighted_scores 1 None raw_stream))) - 1)
    < inject_Z (Z.of_nat (length (positives
                                    (FindThreshold.scan_weighted_scores 1 None raw_stream))))
      * 1)%Q).
Proof. apply (subsampling_keeps_positives 1 raw_stream); reflexivity. Defined.

Lemma scan_cap_prefix (ratio : Q) (m : Z) (bs : list (list raw_row)) :
  0 < m ->
  forall st,
    (Z.of_nat (length (FindThreshold.acc st)) < m) ->
    exists k,
      (k <= length bs)%nat /\
      FindThreshold.scan ratio (Some m) st bs
      = FindThreshold.scan ratio None st (firstn k bs) /\
      (forall j, (j < k)%nat ->
         Z.of_nat (length (FindThreshold.acc
                             (FindThreshold.scan ratio None st (firstn j bs)))) < m) /\
      ((k < length bs)%nat ->
       m <= Z.of_nat (length (FindThreshold.acc
                                (FindThreshold.scan ratio (Some m) st bs)))).
Proof.
  intro Hm; induction bs as [|b bs IH]; intros st Hst.
  - exists 0%nat; cbn [FindThreshold.scan firstn length]; repeat split; lia.
  - cbn [FindThreshold.scan].
    destruct (FindThreshold.step ratio (Some m) st b) as [st' stop] eqn:Es.
    assert (Hnone : FindThreshold.step ratio None st b = (st', false)).
    { revert Es; unfold FindThreshold.step.
      destruct (filter FindThreshold.mask b); intro Es; injection Es as <- _; reflexivity. }
    assert (Hstop : stop = true -> m <= Z.of_nat (length (FindThreshold.acc st'))).
    { revert Es; unfold FindThreshold.step.
      destruct (filter FindThreshold.mask b); intros Es Ht; injection Es as E1 E2;
        [congruence|].
      rewrite Ht in E2; apply andb_true_iff in E2 as [_ E2].
      rewrite E1 in E2; now apply Z.leb_le in E2. }
    assert (Hgo : stop = false -> Z.of_nat (length (FindThreshold.acc st')) < m).
    { revert Es; unfold FindThreshold.step.
      destruct (filter FindThreshold.mask b); intros Es Hf; injection Es as E1 E2;
        [now subst st'|].
      rewrite Hf in E2; apply andb_false_iff in E2 as [E2|E2].
      - apply negb_false_iff, Z.eqb_eq in E2; lia.
      - rewrite E1 in E2; now apply Z.leb_gt in E2. }
    destruct stop.
    + exists 1%nat; cbn [firstn FindThreshold.scan length]; rewrite Hnone.
      split; [lia|]; split; [reflexivity|]; split.
      * intros j Hj; assert (j = 0%nat) as -> by lia.
        cbn [firstn FindThreshold.scan]; exact Hst.
      * intros _; now apply Hstop.
    + destruct (IH st' (Hgo eq_refl)) as (k & Hk & Eq & Hbelow & Hreach).
      exists (S k); cbn [firstn FindThreshold.scan length]; rewrite Hnone.
      split; [lia|]; split; [exact Eq|]; split.
      * intros [|j] Hj; cbn [firstn FindThreshold.scan]; [exact Hst|].
        rewrite Hnone; apply Hbelow; lia.
      * intro Hlt; apply Hreach; lia.
Qed.

(** X13. A positive [max_rows] stops the threshold scan at a batch boundary
    and never inside a batch: the capped sample is the uncapped sample of
    the first [k] batches, where no shorter prefix of batches reaches the
    cap; if batches are left over the sample has at least [max_rows]
    entries, so it can exceed the cap.  A cap of 0 is no cap. *)
Theorem row_cap_stops_at_batch_boundary (ratio : Q) (m : Z) (bs : list (list raw_row)) :
  0 < m ->
  FindThreshold.scan_weighted_scores ratio (Some 0) bs
  = FindThreshold.scan_weighted_scores ratio None bs /\
  exists k,
    (k <= length bs)%nat /\
    FindThreshold.scan_weighted_scores ratio (Some m) bs
    = FindThreshold.scan_weighted_scores ratio None (firstn k bs) /\
    (forall j, (j < k)%nat ->
       Z.of_nat (length (FindThreshold.scan_weighted_scores ratio None (firstn j bs))) < m) /\
    ((k < length bs)%nat ->
     m <= Z.of_nat (length (FindThreshold.scan_weighted_scores ratio (Some m) bs))).
Proof.
  intro Hm; split.
  - unfold FindThreshold.scan_weighted_scores; f_equal.
    generalize {| FindThreshold.acc := []; FindThreshold.pos := 0; FindThreshold.neg := 0 |}.
    induction bs as [|b bs IH]; intro st; cbn [FindThreshold.scan]; [reflexivity|].
    unfold FindThreshold.step.
    destruct (filter FindThreshold.mask b); [apply IH|].
    cbn [Z.eqb negb andb]; apply IH.
  - destruct (scan_cap_prefix ratio m bs Hm
                {| FindThreshold.acc := []; FindThreshold.pos := 0; FindThreshold.neg := 0 |})
      as (k & Hk & Eq & Hbelow & Hreach); [cbn [FindThreshold.acc length]; lia|].
    exists k; unfold FindThreshold.scan_weighted_scores.
    split; [exact Hk|]; split; [now rewrite Eq|]; split; [exact Hbelow|exact Hreach].
Qed.

Lemma row_cap_stops_at_batch_boundary_witness :
  FindThreshold.scan_weighted_scores 0 (Some 0) raw_stream
  = FindThreshold.scan_weighted_scores 0 None raw_stream /\
  exists k,
    (k <= length raw_stream)%nat /\
    FindThreshold.scan_weighted_scores 0 (Some 1) raw_stream
    = FindThreshold.scan_weighted_scores 0 None (firstn k raw_stream) /\
    (forall j, (j < k)%nat ->
       Z.of_nat (length (FindThreshold.scan_weighted_scores 0 None (firstn j raw_stream))) < 1) /\
    ((k < length raw_stream)%nat ->
     1 <= Z.of_nat (length (FindThreshold.scan_weighted_scores 0 (Some 1) raw_stream))).
Proof. apply (row_cap_stops_at_batch_boundary 0 1 raw_stream); lia. Defined.

(** ** From coefficients to weights *)

Lemma qsum_ge_member (l : list Q) (x : Q) :
  Forall (fun y => 0 <= y)%Q l -> In x l -> (x <= qsum l)%Q.
Proof.
  induction 1 as [|y l Hy Hl IH]; intros Hin; [destruct Hin|].
  cbn [qsum fold_right]; fold (qsum l).
  pose proof (qsum_nonneg l Hl) as Hs.
  destruct Hin as [<- | Hin]; [lra|]. specialize (IH Hin); lra.
Qed.

Lemma clip_cases (c : Q) :
  ((c <= 0)%Q -> ((if Qle_bool 0 c then c else 0) == 0)%Q) /\
  ((0 < c)%Q -> (if Qle_bool 0 c then c else 0%Q) = c) /\
  (0 <= (if Qle_bool 0 c then c else 0))%Q.
Proof.
  destruct (Qle_bool 0 c) eqn:E.
  - apply Qle_bool_iff in E; repeat split; auto; intro H; lra.
  - assert (H : ~ (0 <= c)%Q) by (intro H; apply Qle_bool_iff in H; congruence).
    repeat split; try lra; intro H'; lra.
Qed.

Lemma clip_mono (a b : Q) :
  (a <= b)%Q ->
  ((if Qle_bool 0 a then a else 0) <= (if Qle_bool 0 b then b else 0))%Q.
Proof.
  intro Hab; destruct (Qle_bool 0 a) eqn:Ea, (Qle_bool 0 b) eqn:Eb;
    try apply Qle_bool_iff in Ea; try apply Qle_bool_iff in Eb; try lra.
  exfalso; assert (H : Qle_bool 0 b = true) by (apply Qle_bool_iff; lra); congruence.
Qed.

(** X14. When some coefficient is positive, both learners turn the
    coefficients into the same weights, one per coefficient: a coefficient
    that is not positive gets weight 0, a positive one gets the positive
    weight [c / s] with [s] the sum of the positive coefficients, and a
    larger coefficient never gets a smaller weight. *)
Theorem weights_follow_coefficients (coef : list Q) :
  (exists c, In c coef /\ (0 < c)%Q) ->
  FindWeights.weights_of_coef coef = TrainWeights.weights_of_coef coef /\
  length (FindWeights.weights_of_coef coef) = length coef /\
  forall i ci,
    nth_error coef i = Some ci ->
    exists wi,
      nth_error (FindWeights.weights_of_coef coef) i = Some wi /\
      ((ci <= 0)%Q -> (wi == 0)%Q) /\
      ((0 < ci)%Q -> (0 < wi)%Q /\ (wi * qsum (clip0 coef) == ci)%Q) /\
      forall j cj wj,
        nth_error coef j = Some cj ->
        nth_error (FindWeights.weights_of_coef coef) j = Some wj ->
        (ci <= cj)%Q -> (wi <= wj)%Q.
Proof.
  intros (c & Hc & Hpos).
  assert (Hs : (0 < qsum (clip0 coef))%Q).
  { assert (Hin : In c (clip0 coef)).
    { unfold clip0; apply in_map_iff; exists c; split; [|exact Hc].
      now apply (clip_cases c). }
    pose proof (qsum_ge_member _ c (clip0_nonneg coef) Hin); lra. }
  assert (Hb : Qle_bool (qsum (clip0 coef)) 0 = false).
  { destruct (Qle_bool (qsum (clip0 coef)) 0) eqn:E; [|reflexivity].
    apply Qle_bool_iff in E; lra. }
  unfold FindWeights.weights_of_coef, TrainWeights.weights_of_coef.
  rewrite Hb; cbn [negb].
  split; [reflexivity|]; split; [now rewrite length_map, clip0_length|].
  set (s := qsum (clip0 coef)) in *.
  assert (Hnth : forall k ck, nth_error coef k = Some ck ->
            nth_error (map (fun c0 => (c0 / s)%Q) (clip0 coef)) k
            = Some ((if Qle_bool 0 ck then ck else 0) / s)%Q).
  { intros k ck Hk; unfold clip0; rewrite map_map, nth_error_map, Hk; reflexivity. }
  intros i ci Hi; eexists; split; [exact (Hnth i ci Hi)|].
  destruct (clip_cases ci) as (Hle & Hgt & Hnn).
  assert (Hinv : (0 < / s)%Q) by now apply Qinv_lt_0_compat.
  split; [|split].
  - intro H; rewrite (Hle H); unfold Qdiv; apply Qmult_0_l.
  - intro H; rewrite (Hgt H); split.
    + unfold Qdiv; apply Qmult_lt_0_compat; assumption.
    + field; lra.
  - intros j cj wj Hj Hwj Hij; rewrite (Hnth j cj Hj) in Hwj; injection Hwj as <-.
    unfold Qdiv; apply Qmult_le_compat_r; [now apply clip_mono|lra].
Qed.

Lemma weights_follow_coefficients_witness :
  FindWeights.weights_of_coef [2%Q; (-1)%Q; 6%Q]
  = TrainWeights.weights_of_coef [2%Q; (-1)%Q; 6%Q] /\
  length (FindWeights.weights_of_coef [2%Q; (-1)%Q; 6%Q]) = length [2%Q; (-1)%Q; 6%Q] /\
  forall i ci,
    nth_error [2%Q; (-1)%Q; 6%Q] i = Some ci ->
    exists wi,
      nth_error (FindWeights.weights_of_coef [2%Q; (-1)%Q; 6%Q]) i = Some wi /\
      ((ci <= 0)%Q -> (wi == 0)%Q) /\
      ((0 < ci)%Q -> (0 < wi)%Q /\ (wi * qsum (clip0 [2%Q; (-1)%Q; 6%Q]) == ci)%Q) /\
      forall j cj wj,
        nth_error [2%Q; (-1)%Q; 6%Q] j = Some cj ->
        nth_error (FindWeights.weights_of_coef [2%Q; (-1)%Q; 6%Q]) j = Some wj ->
        (ci <= cj)%Q -> (wi <= wj)%Q.
Proof.
  apply (weights_follow_coefficients [2%Q; (-1)%Q; 6%Q]).
  exists 2%Q; split; [now left|reflexivity].
Defined.

(** ** Per-sample metrics and the labels of the sample *)

Lemma count_where_split (p f : Z * Q -> bool) (s : FindThreshold.sample) :
  FindThreshold.count_where (fun yx => p yx && f yx) s
  + FindThreshold.count_where (fun yx => negb (p yx) && f yx) s
  = Z.of_nat (length (filter f s)).
Proof.
  unfold FindThreshold.count_where.
  induction s as [|x s IH]; [reflexivity|]; cbn [filter].
  destruct (p x), (f x); cbn [negb andb length]; lia.
Qed.

Lemma label_classes (s : FindThreshold.sample) :
  (length (positives s) + length (negatives s)
   + length (filter (fun yx => negb ((fst yx =? 0)%Z || (fst yx =? 1)%Z)) s)
   = length s)%nat.
Proof.
  unfold positives, negatives.
  induction s as [|[y x] s IH]; [reflexivity|]; cbn [filter fst].
  destruct (Z.eqb_spec y 1), (Z.eqb_spec y 0); cbn [negb orb length]; lia.
Qed.

(** X15. The per-sample metrics never raise and count by label: [tp + fn]
    is the number of entries with label 1 and [fp + tn] the number with
    label 0, so an entry with any other label is in none of the four
    counts; and at a NaN threshold nothing is predicted positive. *)
Theorem sample_metrics_count_by_label (s : FindThreshold.sample) (thr : npfloat) :
  exists m tp fp tn fn,
    FindThreshold.metrics_at_threshold s thr = Ok m /\
    FindThreshold.tp m = Some tp /\ FindThreshold.fp m = Some fp /\
    FindThreshold.tn m = Some tn /\ FindThreshold.fn m = Some fn /\
    tp + fn = Z.of_nat (length (positives s)) /\
    fp + tn = Z.of_nat (length (negatives s)) /\
    tp + fp + tn + fn
    = Z.of_nat (length s)
      - Z.of_nat (length (filter (fun yx => negb ((fst yx =? 0) || (fst yx =? 1))) s)) /\
    (thr = NaN -> tp = 0 /\ fp = 0).
Proof.
  unfold FindThreshold.metrics_at_threshold; cbv zeta.
  rewrite !guarded_truediv_value; cbn [bind].
  do 5 eexists; split; [reflexivity|].
  cbn [FindThreshold.tp FindThreshold.fp FindThreshold.tn FindThreshold.fn].
  do 4 (split; [reflexivity|]).
  pose proof (count_where_split (fun yx => Np.gef (Fin (snd yx)) thr)
                (fun yx => fst yx =? 1) s) as H1.
  pose proof (count_where_split (fun yx => Np.gef (Fin (snd yx)) thr)
                (fun yx => fst yx =? 0) s) as H0.
  pose proof (label_classes s) as Hc.
  fold (positives s) in H1; fold (negatives s) in H0.
  split; [exact H1|]; split; [lia|]; split; [lia|].
  intros ->; unfold FindThreshold.count_where; cbn [Np.gef andb].
  clear; assert (E : filter (fun _ : Z * Q => false) s = [])
    by (induction s as [|x s IH]; auto).
  now rewrite E.
Qed.

(** ** The statistics [main] of the weight learner reports *)

Lemma sum_seq_rows (g : Z * Z -> Z) (counts : hist) :
  zsum (map (fun p => match nth_error counts p with
                      | Some r => g r
                      | None => 0
                      end) (seq 0 (length counts)))
  = zsum (map g counts).
Proof.
  induction counts as [|r counts IH]; [reflexivity|].
  cbn [length seq map nth_error zsum fold_right].
  rewrite <- seq_shift, map_map; cbn [nth_error].
  fold (zsum (map g counts)); rewrite <- IH; reflexivity.
Qed.

Lemma count_flat_map {A B : Type} (h : B -> bool) (F : A -> list B) (ps : list A) :
  Z.of_nat (length (filter h (flat_map F ps)))
  = zsum (map (fun p => Z.of_nat (length (filter h (F p)))) ps).
Proof.
  induction ps as [|p ps IH]; [reflexivity|]; cbn [flat_map map zsum fold_right].
  rewrite filter_app, length_app, Nat2Z.inj_add, IH; reflexivity.
Qed.

Lemma count_indicator {A : Type} (h : A -> bool) (l : list A) :
  Z.of_nat (length (filter h l)) = zsum (map (fun x => if h x then 1 else 0) l).
Proof.
  induction l as [|x l IH]; [reflexivity|]; cbn [filter map zsum fold_right].
  fold (zsum (map (fun x => if h x then 1 else 0) l)); rewrite <- IH.
  destruct (h x); cbn [length]; lia.
Qed.

Lemma zsum_pointwise_le {A : Type} (f g : A -> Z) (l : list A) :
  Forall (fun x => f x <= g x) l -> zsum (map f l) <= zsum (map g l).
Proof.
  induction 1 as [|x l Hx _ IH]; cbn [map zsum fold_right]; [lia|].
  fold (zsum (map f l)) (zsum (map g l)); lia.
Qed.

Lemma zsum_map_ext {A : Type} (f g : A -> Z) (l : list A) :
  (forall x, f x = g x) -> zsum (map f l) = zsum (map g l).
Proof. intro H; now rewrite (map_ext _ _ H). Qed.

Lemma cell_rows_labels (counts : hist) (p : nat) :
  Z.of_nat (length (filter (fun r => snd (fst r) =? 1) (cell_rows counts p)))
  = match nth_error counts p with
    | Some r => if 0 <? snd r then 1 else 0
    | None => 0
    end /\
  Z.of_nat (length (filter (fun r => negb (snd (fst r) =? 1)) (cell_rows counts p)))
  = match nth_error counts p with
    | Some r => if 0 <? fst r then 1 else 0
    | None => 0
    end.
Proof.
  unfold cell_rows; destruct (nth_error counts p) as [[c0 c1]|]; [|split; reflexivity].
  cbn [fst snd]; destruct (0 <? c0), (0 <? c1); split; reflexivity.
Qed.

Lemma masked_positive (ws ys : list Z) :
  Forall (fun c => 0 < c) ws -> length ws = length ys ->
  masked (map (fun c => 0 <? c) ws) ys = ys.
Proof.
  intro H; revert ys; induction H as [|c ws Hc _ IH]; intros [|y ys] Hlen;
    try discriminate Hlen; [reflexivity|]; cbn [map masked].
  apply Z.ltb_lt in Hc; rewrite Hc, IH; [reflexivity|now injection Hlen].
Qed.

(** X16. The [positive_rate] that [main] of the weight learner writes to
    the model file is a rate of histogram cells, not of records: on an 8x2
    histogram of counts with at least one record it is the number of
    patterns seen with label 1 divided by the number of positive cells, and
    the number of positive cells lies between [unique_patterns_present] and
    twice that. *)
Theorem positive_rate_counts_cells (counts : hist) :
  length counts = 8%nat ->
  hist_nonneg counts ->
  0 < hist_total counts ->
  exists d,
    FindWeights.build_weighted_design counts = Ok d /\
    FindWeights.positive_rate d
    = Ok (Fin (inject_Z (pos_cells counts)
               / inject_Z (pos_cells counts + neg_cells counts))%Q) /\
    0 < pos_cells counts + neg_cells counts /\
    FindWeights.unique_patterns_present counts <= pos_cells counts + neg_cells counts /\
    pos_cells counts + neg_cells counts <= 2 * FindWeights.unique_patterns_present counts.
Proof.
  intros Hlen Hnn Htot.
  pose proof (build_weighted_design_spec counts Hlen) as Hb.
  destruct (has_positive_cell counts) eqn:Hpos.
  2:{ apply zero_total_no_positive_cell in Hpos; [lia|exact Hnn]. }
  destruct Hb as (d & Hd & HX); exists d; split; [exact Hd|].
  unfold FindWeights.build_weighted_design in Hd.
  destruct (design_loop_rows counts (seq 0 8)
              (fun p Hp => ltac:(apply in_seq in Hp; lia))
              {| FindWeights.X := []; FindWeights.y := []; FindWeights.w := [] |})
    as (d' & Hloop & EX & Ey & Ew).
  rewrite Hloop in Hd; cbn [bind] in Hd.
  assert (d' = d) as -> by (destruct (FindWeights.X d'); congruence).
  cbn [FindWeights.X FindWeights.y FindWeights.w app] in EX, Ey, Ew.
  set (R := flat_map (cell_rows counts) (seq 0 8)) in *.
  destruct (flat_rows_facts counts (seq 0 8)) as (F & _ & _);
    [intros p Hp; apply in_seq in Hp; lia|]; fold R in F.
  assert (Hw : Forall (fun c => 0 < c) (FindWeights.w d)).
  { rewrite Ew; apply Forall_forall; intros c Hc.
    apply in_map_iff in Hc as (r & <- & Hr).
    rewrite Forall_forall in F; apply (F r Hr). }
  assert (HP : Z.of_nat (length (filter (fun l => l =? 1) (FindWeights.y d)))
               = pos_cells counts).
  { rewrite Ey; unfold pos_cells.
    assert (E : filter (fun l => l =? 1) (map (fun r : list Z * Z * Z => snd (fst r)) R)
                = map (fun r => snd (fst r)) (filter (fun r => snd (fst r) =? 1) R)).
    { clear; induction R as [|r R IH]; [reflexivity|]; cbn [map filter].
      destruct (snd (fst r) =? 1); cbn [map]; now rewrite IH. }
    rewrite E, length_map; unfold R; rewrite count_flat_map.
    rewrite (zsum_map_ext _ _ _ (fun p => proj1 (cell_rows_labels counts p))).
    rewrite <- Hlen, (sum_seq_rows (fun r => if 0 <? snd r then 1 else 0)).
    now rewrite <- count_indicator. }
  assert (HN : Z.of_nat (length (filter (fun l => negb (l =? 1)) (FindWeights.y d)))
               = neg_cells counts).
  { rewrite Ey; unfold neg_cells.
    assert (E : filter (fun l => negb (l =? 1))
                       (map (fun r : list Z * Z * Z => snd (fst r)) R)
                = map (fun r => snd (fst r))
                      (filter (fun r => negb (snd (fst r) =? 1)) R)).
    { clear; induction R as [|r R IH]; [reflexivity|]; cbn [map filter].
      destruct (snd (fst r) =? 1); cbn [map negb]; now rewrite IH. }
    rewrite E, length_map; unfold R; rewrite count_flat_map.
    rewrite (zsum_map_ext _ _ _ (fun p => proj2 (cell_rows_labels counts p))).
    rewrite <- Hlen, (sum_seq_rows (fun r => if 0 <? fst r then 1 else 0)).
    now rewrite <- count_indicator. }
  pose proof (filter_split_length (fun l => l =? 1) (FindWeights.y d)) as Hsplit.
  assert (Hylen : length (FindWeights.w d) = length (FindWeights.y d))
    by now rewrite Ew, Ey, !length_map.
  assert (Hyne : FindWeights.y d <> []).
  { rewrite Ey; rewrite EX in HX; destruct R; [now cbn in HX|discriminate]. }
  split; [|split; [|split]].
  - unfold FindWeights.positive_rate; cbv zeta.
    rewrite Hylen, Nat.eqb_refl, (masked_positive _ _ Hw Hylen).
    destruct (FindWeights.y d) as [|y0 ys] eqn:Ey0; [congruence|].
    rewrite HP.
    replace (Z.of_nat (length (y0 :: ys))) with (pos_cells counts + neg_cells counts)
      by lia.
    reflexivity.
  - destruct (FindWeights.y d); [congruence|cbn [length] in Hsplit; lia].
  - unfold FindWeights.unique_patterns_present, pos_cells, neg_cells.
    rewrite !count_indicator.
    clear - Hnn; unfold hist_nonneg in Hnn.
    induction Hnn as [|[c0 c1] counts [H0 H1] _ IH]; cbn [map zsum fold_right fst snd];
      [lia|].
    fold (zsum (map (fun x : Z * Z => if negb (fst x + snd x =? 0) then 1 else 0) counts))
         (zsum (map (fun x : Z * Z => if 0 <? snd x then 1 else 0) counts))
         (zsum (map (fun x : Z * Z => if 0 <? fst x then 1 else 0) counts)).
    cbn [fst snd] in H0, H1.
    destruct (Z.eqb_spec (c0 + c1) 0), (Z.ltb_spec 0 c0), (Z.ltb_spec 0 c1);
      cbn [negb]; lia.
  - unfold FindWeights.unique_patterns_present, pos_cells, neg_cells.
    rewrite !count_indicator.
    clear - Hnn; unfold hist_nonneg in Hnn.
    induction Hnn as [|[c0 c1] counts [H0 H1] _ IH]; cbn [map zsum fold_right fst snd];
      [lia|].
    fold (zsum (map (fun x : Z * Z => if negb (fst x + snd x =? 0) then 1 else 0) counts))
         (zsum (map (fun x : Z * Z => if 0 <? snd x then 1 else 0) counts))
         (zsum (map (fun x : Z * Z => if 0 <? fst x then 1 else 0) counts)).
    cbn [fst snd] in H0, H1.
    destruct (Z.eqb_spec (c0 + c1) 0), (Z.ltb_spec 0 c0), (Z.ltb_spec 0 c1);
      cbn [negb]; lia.
Qed.

Lemma positive_rate_counts_cells_witness :
  exists d,
    FindWeights.build_weighted_design scenario_hist = Ok d /\
    FindWeights.positive_rate d
    = Ok (Fin (inject_Z (pos_cells scenario_hist)
               / inject_Z (pos_cells scenario_hist + neg_cells scenario_hist))%Q) /\
    0 < pos_cells scenario_hist + neg_cells scenario_hist /\
    FindWeights.unique_patterns_present scenario_hist
    <= pos_cells scenario_hist + neg_cells scenario_hist /\
    pos_cells scenario_hist + neg_cells scenario_hist
    <= 2 * FindWeights.unique_patterns_present scenario_hist.
Proof.
  apply (positive_rate_counts_cells scenario_hist).
  - reflexivity.
  - unfold hist_nonneg, scenario_hist; repeat constructor; cbn; lia.
  - reflexivity.
Defined.

(** ** The totals of the evaluation and its metrics rows *)

Lemma column_total_general (lbl : Z) (col : Z * Z -> Z) (rows : list bin_row) :
  lbl = 0 \/ lbl = 1 ->
  (forall p, col (cnt 0 p rows, cnt 1 p rows) = cnt lbl p rows) ->
  forallb countable rows = true ->
  zsum (map col (tally rows))
  = Z.of_nat (length (filter (fun r => row_label r =? lbl) rows)).
Proof.
  intros Hlbl Hcol Hall; unfold tally; rewrite map_map, (map_ext _ _ Hcol).
  rewrite zsum_cnt by apply seq_NoDup.
  f_equal; f_equal; apply filter_ext_in; intros r Hin.
  rewrite forallb_forall in Hall; specialize (Hall r Hin).
  destruct (Z.eqb_spec (row_label r) lbl) as [E|E]; [|reflexivity].
  cbn [andb]; apply existsb_exists.
  assert (Hl : label01 r = true).
  { unfold label01; rewrite E; destruct Hlbl as [-> | ->]; reflexivity. }
  unfold countable in Hall; rewrite Hl in Hall; cbn [negb orb] in Hall.
  apply in_range_iff in Hall.
  exists (Z.to_nat (row_pattern r)); split; [apply in_seq; lia|apply Z.eqb_eq; lia].
Qed.

(** X17. [aggregate_counts] of [evaluate.py] raises, a [ValueError], exactly
    when some kept row has label 0 or 1 and a pattern outside 0..7.
    Otherwise the totals it returns agree with every metrics row computed
    from its histogram: [sample_pos = n_pos] and [sample_neg = n_neg], the
    numbers of kept rows with label 1 and with label 0. *)
Theorem evaluation_totals_match_rows (family : option string) (by_family : bool)
  (bs : list batch) (thr : Q) :
  (Evaluate.aggregate_counts family by_family bs = Raise ValueError <->
   forallb countable (eval_rows family bs) = false) /\
  (forall e, Evaluate.aggregate_counts family by_family bs = Raise e -> e = ValueError) /\
  (forallb countable (eval_rows family bs) = true ->
   exists counts d n_pos n_neg row,
     Evaluate.aggregate_counts family by_family bs = Ok (counts, d, (n_pos, n_neg)) /\
     Evaluate.eval_thresholds_from_counts counts [thr] = Ok [row] /\
     Evaluate.sample_pos row = n_pos /\
     Evaluate.sample_neg row = n_neg /\
     n_pos = Z.of_nat (length (filter (fun r => row_label r =? 1) (eval_rows family bs))) /\
     n_neg = Z.of_nat (length (filter (fun r => row_label r =? 0) (eval_rows family bs)))).
Proof.
  pose proof (evaluate_aggregate_general family by_family bs) as H.
  destruct (Evaluate.aggregate_counts family by_family bs)
    as [[[counts d] [n_pos n_neg]]|e].
  - destruct H as (Hall & Hc & Hp & Hn & _).
    split; [split; [discriminate|congruence]|].
    split; [discriminate|]; intros _.
    destruct (eval_threshold_rates counts thr) as (row & E & _ & _ & _ & _ & Hsp & Hsn & _).
    { rewrite Hc; apply tally_length. }
    exists counts, d, n_pos, n_neg, row; split; [reflexivity|].
    unfold Evaluate.eval_thresholds_from_counts.
    cbn [Evaluate.eval_thresholds_with]; rewrite E; cbn [bind].
    split; [reflexivity|].
    rewrite Hsp, Hsn, Hc, Hp, Hn.
    rewrite (column_total_general 1 snd) by (auto; reflexivity).
    rewrite (column_total_general 0 fst) by (auto; reflexivity).
    repeat split; reflexivity.
  - destruct H as (-> & Hall).
    split; [split; auto|]. split; [congruence|]. congruence.
Qed.

Lemma evaluation_totals_match_rows_witness :
  exists counts d n_pos n_neg row,
    Evaluate.aggregate_counts None true stream_label2 = Ok (counts, d, (n_pos, n_neg)) /\
    Evaluate.eval_thresholds_from_counts counts [0.5%Q] = Ok [row] /\
    Evaluate.sample_pos row = n_pos /\
    Evaluate.sample_neg row = n_neg /\
    n_pos = Z.of_nat (length (filter (fun r => row_label r =? 1)
                                     (eval_rows None stream_label2))) /\
    n_neg = Z.of_nat (length (filter (fun r => row_label r =? 0)
                                     (eval_rows None stream_label2))).
Proof.
  apply (proj2 (proj2 (evaluation_totals_match_rows None true stream_label2 0.5%Q))).
  reflexivity.
Defined.

(** ** The per-representation scan *)

Lemma keep_all_fold (ratio : Q) (kept : list FindThresholds.rep_row) :
  Qle_bool ratio 0 = true ->
  forall st,
    FindThresholds.acc (fold_left (FindThresholds.keep_step ratio) kept st)
    = FindThresholds.acc st ++ map relabel kept.
Proof.
  intro Hr; induction kept as [|[s yy] kept IH]; intro st; cbn [fold_left map].
  - now rewrite app_nil_r.
  - rewrite IH; unfold FindThresholds.keep_step, relabel; cbn [fst snd].
    rewrite Hr; cbn [orb].
    destruct (FindThresholds.is_one yy); cbn [FindThresholds.acc];
      now rewrite <- app_assoc.
Qed.

Lemma keep_step_from (ratio : Q) (kept : list FindThresholds.rep_row) :
  forall st yx,
    In yx (FindThresholds.acc (fold_left (FindThresholds.keep_step ratio) kept st)) ->
    In yx (FindThresholds.acc st) \/ exists r, In r kept /\ yx = relabel r.
Proof.
  induction kept as [|[s yy] kept IH]; intros st yx Hin; cbn [fold_left] in Hin; [auto|].
  apply IH in Hin as [Hin | (r & Hr & E)]; [|right; exists r; split; [now right|exact E]].
  unfold FindThresholds.keep_step in Hin.
  destruct (FindThresholds.is_one yy) eqn:E1;
    [|destruct (Qle_bool ratio 0
                || negb (Qle_bool (inject_Z (FindThresholds.pos st) * ratio)
                                  (inject_Z (FindThresholds.neg st))))];
    cbn [FindThresholds.acc] in Hin; auto;
    apply in_app_or in Hin as [Hin | [<- | []]]; auto;
    right; exists (s, yy); (split; [now left|]);
    unfold relabel; cbn [fst snd]; now rewrite E1.
Qed.

Lemma scan_from_origin (ratio : Q) (max_rows : option Z)
  (bs : list (list FindThresholds.rep_row)) :
  forall st yx,
    In yx (FindThresholds.acc (FindThresholds.scan_from ratio max_rows st bs)) ->
    In yx (FindThresholds.acc st) \/ exists r, In r (non_nan_rows bs) /\ yx = relabel r.
Proof.
  unfold non_nan_rows.
  induction bs as [|b bs IH]; intros st yx Hin; cbn [FindThresholds.scan_from concat] in *;
    [auto|].
  unfold FindThresholds.step in Hin; cbv zeta in Hin.
  assert (Hb : In yx (FindThresholds.acc
                        (fold_left (FindThresholds.keep_step ratio)
                                   (filter (fun r => negb (Np.isnan (fst r))) b) st)) ->
               In yx (FindThresholds.acc st)
               \/ exists r, In r (filter (fun r => negb (Np.isnan (fst r))) (b ++ concat bs))
                            /\ yx = relabel r).
  { intro H; apply keep_step_from in H as [H | (r & Hr & E)]; [now left|right].
    exists r; split; [rewrite filter_app; apply in_or_app; now left|exact E]. }
  match type of Hin with
  | context [if ?c then _ else _] => destruct c
  end; [now apply Hb|].
  apply IH in Hin as [Hin | (r & Hr & E)]; [now apply Hb|right].
  exists r; split; [rewrite filter_app; apply in_or_app; now right|exact E].
Qed.

Lemma scan_from_keep_all (ratio : Q) (bs : list (list FindThresholds.rep_row)) :
  Qle_bool ratio 0 = true ->
  forall st,
    FindThresholds.acc (FindThresholds.scan_from ratio None st bs)
    = FindThresholds.acc st ++ map relabel (non_nan_rows bs).
Proof.
  intro Hr; unfold non_nan_rows.
  induction bs as [|b bs IH]; intro st; cbn [FindThresholds.scan_from concat].
  - cbn [filter map]; now rewrite app_nil_r.
  - unfold FindThresholds.step; cbv zeta iota.
    rewrite IH, keep_all_fold, filter_app, map_app, app_assoc by exact Hr; reflexivity.
Qed.

(** X18. The per-representation scan of [find_thresholds.py] drops a record
    only for a NaN representation value.  With [neg_pos_ratio <= 0] and no
    row cap it returns every other record in stream order, an infinite value
    included, with label 1 where the label equals 1 and label 0 otherwise,
    so a record with a missing label is kept as a negative; under any ratio
    and cap every entry it returns is such a relabelled record. *)
Theorem per_rep_scan_keeps_all (ratio : Q) (max_rows : option Z)
  (bs : list (list FindThresholds.rep_row)) :
  ((ratio <= 0)%Q ->
   FindThresholds.scan ratio None bs = map relabel (non_nan_rows bs)) /\
  (forall yx, In yx (FindThresholds.scan ratio max_rows bs) ->
     exists r, In r (non_nan_rows bs) /\ yx = relabel r) /\
  Forall (fun yx => (fst yx = 0 \/ fst yx = 1) /\ Np.isnan (snd yx) = false)
         (FindThresholds.scan ratio max_rows bs).
Proof.
  assert (Horigin : forall yx, In yx (FindThresholds.scan ratio max_rows bs) ->
                      exists r, In r (non_nan_rows bs) /\ yx = relabel r).
  { intros yx Hin; unfold FindThresholds.scan in Hin.
    apply scan_from_origin in Hin as [[] | H]; exact H. }
  split; [|split; [exact Horigin|]].
  - intro Hr; apply Qle_bool_iff in Hr; unfold FindThresholds.scan.
    now rewrite scan_from_keep_all.
  - apply Forall_forall; intros yx Hin.
    destruct (Horigin yx Hin) as (r & Hr & ->).
    apply filter_In in Hr as [_ Hr]; unfold relabel; cbn [fst snd].
    split; [destruct (FindThresholds.is_one (snd r)); auto|].
    now apply negb_true_iff in Hr.
Qed.

Lemma per_rep_scan_keeps_all_witness :
  FindThresholds.scan 0 None rep_stream = map relabel (non_nan_rows rep_stream).
Proof.
  apply (proj1 (per_rep_scan_keeps_all 0 None rep_stream)); discriminate.
Defined.

(** ** The grid search for the F1-optimal threshold *)

Lemma grid_loop_spec (f1_score : list Z -> list Z -> result Q) (s : list Q) (y : list Z)
  (ts : list Q) :
  (forall t, In t ts -> exists v, f1_score y (TrainWeights.predict s t) = Ok v) ->
  forall f0 t0,
  exists bf bt,
    TrainWeights.grid_loop f1_score s y ts (f0, t0) = Ok (bf, bt) /\
    (f0 <= bf)%Q /\
    (forall t v, In t ts -> f1_score y (TrainWeights.predict s t) = Ok v -> (v <= bf)%Q) /\
    ((bf, bt) = (f0, t0) \/
     ((f0 < bf)%Q /\
      exists pre post,
        ts = pre ++ bt :: post /\
        f1_score y (TrainWeights.predict s bt) = Ok bf /\
        forall t v, In t pre -> f1_score y (TrainWeights.predict s t) = Ok v -> (v < bf)%Q)).
Proof.
  induction ts as [|t ts IH]; intros Hret f0 t0; cbn [TrainWeights.grid_loop].
  - exists f0, t0; split; [reflexivity|]; split; [lra|]; split; [intros ? ? []|now left].
  - destruct (Hret t (or_introl eq_refl)) as (v & Hv); rewrite Hv; cbn [bind fst].
    assert (Hret' : forall t', In t' ts ->
                      exists v', f1_score y (TrainWeights.predict s t') = Ok v')
      by (intros t' Ht'; apply Hret; now right).
    destruct (Qle_bool v f0) eqn:E; cbn [negb].
    + apply Qle_bool_iff in E.
      destruct (IH Hret' f0 t0) as (bf & bt & Hloop & Hge & Hmax & Hcase).
      exists bf, bt; split; [exact Hloop|]; split; [exact Hge|]; split.
      * intros t' v' [<- | Hin] Hv'; [|now apply (Hmax t')].
        rewrite Hv in Hv'; injection Hv' as <-; lra.
      * destruct Hcase as [Hsame | (Hlt & pre & post & Hts & Hbt & Hpre)]; [now left|right].
        split; [exact Hlt|]; exists (t :: pre), post; split; [now rewrite Hts|].
        split; [exact Hbt|].
        intros t' v' [<- | Hin] Hv'; [|now apply (Hpre t')].
        rewrite Hv in Hv'; injection Hv' as <-; lra.
    + assert (Hlt0 : (f0 < v)%Q).
      { apply Qnot_le_lt; intro H; apply Qle_bool_iff in H; congruence. }
      destruct (IH Hret' v t) as (bf & bt & Hloop & Hge & Hmax & Hcase).
      exists bf, bt; split; [exact Hloop|]; split; [lra|]; split.
      * intros t' v' [<- | Hin] Hv'; [|now apply (Hmax t')].
        rewrite Hv in Hv'; injection Hv' as <-; exact Hge.
      * right; split; [lra|].
        destruct Hcase as [Hsame | (Hlt & pre & post & Hts & Hbt & Hpre)].
        -- injection Hsame as -> ->; exists [], ts; split; [reflexivity|].
           split; [exact Hv|intros ? ? []].
        -- exists (t :: pre), post; split; [now rewrite Hts|]; split; [exact Hbt|].
           intros t' v' [<- | Hin] Hv'; [|now apply (Hpre t')].
           rewrite Hv in Hv'; injection Hv' as <-; exact Hlt.
Qed.

Lemma linspace01_unit (grid : nat) (t : Q) :
  In t (TrainWeights.linspace01 grid) -> (0 <= t <= 1)%Q.
Proof.
  unfold TrainWeights.linspace01; intro Hin.
  apply in_map_iff in Hin as (i & <- & Hi); apply in_seq in Hi.
  destruct (Nat.eq_dec grid 1) as [->|Hne].
  - assert (i = 0%nat) as -> by lia; cbn; split; discriminate.
  - apply Qdiv_unit; lia.
Qed.

Lemma grid_search_spec
  (f1_score : list Z -> list Z -> result Q) (scores : list Q) (y : list Z) (grid : nat) :
  (0 < grid)%nat ->
  f1_in_unit f1_score y ->
  exists thr f1,
    TrainWeights.best_threshold_for_scores f1_score scores y grid = Ok (thr, f1) /\
    (0 <= thr <= 1)%Q /\ (0 <= f1 <= 1)%Q /\
    f1_score y (TrainWeights.predict (map TrainWeights.clip01 scores) thr) = Ok f1 /\
    (forall t v,
       In t (TrainWeights.linspace01 grid) ->
       f1_score y (TrainWeights.predict (map TrainWeights.clip01 scores) t) = Ok v ->
       (v <= f1)%Q) /\
    exists pre post,
      TrainWeights.linspace01 grid = pre ++ thr :: post /\
      forall t v,
        In t pre ->
        f1_score y (TrainWeights.predict (map TrainWeights.clip01 scores) t) = Ok v ->
        (v < f1)%Q.
Proof.
  intros Hgrid Hf1.
  unfold TrainWeights.best_threshold_for_scores; cbv zeta.
  set (s := map TrainWeights.clip01 scores).
  destruct (grid_loop_spec f1_score s y (TrainWeights.linspace01 grid)) with
    (f0 := (-1)%Q) (t0 := 0.5%Q) as (bf & bt & Hloop & Hge & Hmax & Hcase).
  { intros t _; destruct (Hf1 (TrainWeights.predict s t)) as (v & Hv & _); eauto. }
  rewrite Hloop; cbn [bind].
  exists bt, bf; split; [reflexivity|].
  destruct Hcase as [Hsame | (Hlt & pre & post & Hts & Hbt & Hpre)].
  - exfalso; injection Hsame as -> _.
    destruct grid as [|n]; [lia|].
    set (t := (inject_Z (Z.of_nat 0) / inject_Z (Z.of_nat (S n) - 1))%Q).
    assert (Hin : In t (TrainWeights.linspace01 (S n))) by (now left).
    destruct (Hf1 (TrainWeights.predict s t)) as (v & Hv & Hv0 & _).
    specialize (Hmax t v Hin Hv); lra.
  - assert (Hin : In bt (TrainWeights.linspace01 grid))
      by (rewrite Hts; apply in_or_app; right; now left).
    split; [now apply (linspace01_unit grid)|].
    destruct (Hf1 (TrainWeights.predict s bt)) as (v & Hv & Hunit).
    rewrite Hbt in Hv; injection Hv as <-.
    split; [exact Hunit|]; split; [exact Hbt|]; split; [exact Hmax|].
    exists pre, post; split; [exact Hts|exact Hpre].
Qed.



(** ** Per-family metrics add up to the global metrics *)

Lemma masked_col_add (col : Z * Z -> Z) (m : list bool) :
  (forall x1 y1 x2 y2, col (x1 + x2, y1 + y2) = col (x1, y1) + col (x2, y2)) ->
  forall a b,
    length a = length b ->
    zsum (masked m (map col (hist_add a b)))
    = zsum (masked m (map col a)) + zsum (masked m (map col b)).
Proof.
  intros Hcol a; revert m; induction a as [|[a0 a1] a IH]; intros m [|[b0 b1] b] Hlen;
    try discriminate Hlen.
  - destruct m; reflexivity.
  - destruct m as [|x m]; [reflexivity|].
    injection Hlen as Hlen; specialize (IH m b Hlen).
    unfold hist_add in *; cbn [combine map masked fst snd].
    destruct x; cbn [zsum fold_right]; rewrite ?Hcol; unfold zsum in *; lia.
Qed.

Lemma zsum_col_add (col : Z * Z -> Z) :
  (forall x1 y1 x2 y2, col (x1 + x2, y1 + y2) = col (x1, y1) + col (x2, y2)) ->
  forall a b,
    length a = length b ->
    zsum (map col (hist_add a b)) = zsum (map col a) + zsum (map col b).
Proof.
  intro Hcol; induction a as [|[a0 a1] a IH]; intros [|[b0 b1] b] Hlen;
    try discriminate Hlen; [reflexivity|].
  unfold hist_add in *; cbn [combine map fst snd zsum fold_right].
  injection Hlen as Hlen; specialize (IH b Hlen).
  rewrite Hcol.
  fold (zsum (map col (map (fun ab : Z * Z * (Z * Z) =>
          (fst (fst ab) + fst (snd ab), snd (fst ab) + snd (snd ab))) (combine a b))))
       (zsum (map col a)) (zsum (map col b)); lia.
Qed.

Lemma masked_zeros (col : Z * Z -> Z) (m : list bool) :
  col (0, 0) = 0 -> zsum (masked m (map col zeros_8_2)) = 0.
Proof.
  intro H0.
  assert (Hz : Forall (fun x => 0 <= x) (map col zeros_8_2)).
  { unfold zeros_8_2; cbn [repeat map]; rewrite H0; repeat constructor; lia. }
  pose proof (masked_bounds m _ Hz) as B.
  assert (Hs : zsum (map col zeros_8_2) = 0)
    by (unfold zeros_8_2; cbn [repeat map]; rewrite H0; reflexivity).
  lia.
Qed.

Lemma family_rows_sum (L : hist -> Z) (F : Evaluate.metrics_row -> Z) (thr : Q) :
  (forall a b, length a = 8%nat -> length b = 8%nat ->
               L (hist_add a b) = L a + L b) ->
  L zeros_8_2 = 0 ->
  (forall h row, length h = 8%nat ->
     Evaluate.eval_threshold Evaluate.SCORES_BY_PATTERN h thr = Ok row -> F row = L h) ->
  forall d,
    dict_ok d ->
    exists rows,
      Evaluate.main_family_rows d [thr] = Ok rows /\
      map fst rows = map fst d /\
      zsum (map (fun fr => F (snd fr)) rows) = L (hist_sum (map snd d)).
Proof.
  intros Hadd Hzero HF; induction d as [|[fam cnt] d IH]; intro Hd.
  - exists []; cbn; auto.
  - inversion Hd as [|kv d' Hcnt Hd']; subst; cbn [snd] in Hcnt.
    destruct (IH Hd') as (rows & Hrows & Hfst & Hsum).
    destruct (eval_threshold_rates cnt thr Hcnt) as (row & E & _).
    exists ((fam, row) :: rows); cbn [Evaluate.main_family_rows].
    unfold Evaluate.eval_thresholds_from_counts; cbn [Evaluate.eval_thresholds_with].
    rewrite E; cbn [bind]; rewrite Hrows; cbn [bind map app fst snd zsum fold_right].
    split; [reflexivity|]; split; [now rewrite Hfst|].
    fold (zsum (map (fun fr => F (snd fr)) rows)).
    rewrite hist_sum_cons, Hadd, Hsum, (HF cnt row Hcnt E); auto.
    apply hist_sum_length; now apply dict_values_ok.
Qed.

(** X20. With [by_family] set, the rows of the per-family CSV add up to the
    rows of the global CSV: at every threshold the per-family [tp], [fp],
    [tn], [fn], [sample_pos] and [sample_neg] sum, over the families of the
    dict, to the values of the global row, and there is one per-family row
    for each family of the dict, in dict order. *)
Theorem family_rows_add_up (family : option string) (bs : list batch) (thr : Q) :
  forallb countable (eval_rows family bs) = true ->
  exists counts d totals row rows_fam,
    Evaluate.aggregate_counts family true bs = Ok (counts, d, totals) /\
    Evaluate.eval_thresholds_from_counts counts [thr] = Ok [row] /\
    Evaluate.main_family_rows d [thr] = Ok rows_fam /\
    map fst rows_fam = map fst d /\
    zsum (map (fun fr => Evaluate.tp (snd fr)) rows_fam) = Evaluate.tp row /\
    zsum (map (fun fr => Evaluate.fp (snd fr)) rows_fam) = Evaluate.fp row /\
    zsum (map (fun fr => Evaluate.tn (snd fr)) rows_fam) = Evaluate.tn row /\
    zsum (map (fun fr => Evaluate.fn (snd fr)) rows_fam) = Evaluate.fn row /\
    zsum (map (fun fr => Evaluate.sample_pos (snd fr)) rows_fam) = Evaluate.sample_pos row /\
    zsum (map (fun fr => Evaluate.sample_neg (snd fr)) rows_fam) = Evaluate.sample_neg row.
Proof.
  intro Hall; pose proof (evaluate_aggregate_general family true bs) as H.
  unfold Evaluate.aggregate_counts in *.
  pose proof (evaluate_scan_general true (map (Evaluate.scanner_filter family) bs)
                Evaluate.init eq_refl (Forall_nil _)) as Hgen.
  destruct (Evaluate.scan true Evaluate.init (map (Evaluate.scanner_filter family) bs))
    as [st|e] eqn:Hscan; cbn [bind] in *; [|destruct H as (_ & H); congruence].
  destruct H as (_ & Hc & _); destruct Hgen as (_ & _ & _ & _ & Hd & _).
  assert (Hsum : hist_sum (map snd (Evaluate.counts_by_family st))
                 = Evaluate.counts_global st).
  { rewrite (evaluate_scan_sum _ Evaluate.init st eq_refl (Forall_nil _) Hscan), Hc.
    cbn [Evaluate.init Evaluate.counts_by_family map hist_sum fold_right].
    now rewrite hist_add_zeros_l by apply tally_length. }
  assert (Hlen : length (Evaluate.counts_global st) = 8%nat)
    by (rewrite Hc; apply tally_length).
  destruct (eval_threshold_rates _ thr Hlen)
    as (row & E & Htp & Hfp & Hfn & Htn & Hp & Hn & _).
  set (mask := map (fun sc => Qle_bool thr sc) Evaluate.SCORES_BY_PATTERN) in *.
  assert (Afst : forall x1 y1 x2 y2 : Z, fst (x1 + x2, y1 + y2) = fst (x1, y1) + fst (x2, y2))
    by reflexivity.
  assert (Asnd : forall x1 y1 x2 y2 : Z, snd (x1 + x2, y1 + y2) = snd (x1, y1) + snd (x2, y2))
    by reflexivity.
  assert (Hrow : forall (F : Evaluate.metrics_row -> Z) (L : hist -> Z),
            (forall a b, length a = 8%nat -> length b = 8%nat ->
                         L (hist_add a b) = L a + L b) ->
            L zeros_8_2 = 0 ->
            (forall h r, length h = 8%nat ->
               Evaluate.eval_threshold Evaluate.SCORES_BY_PATTERN h thr = Ok r ->
               F r = L h) ->
            exists rows,
              Evaluate.main_family_rows (Evaluate.counts_by_family st) [thr] = Ok rows /\
              map fst rows = map fst (Evaluate.counts_by_family st) /\
              zsum (map (fun fr => F (snd fr)) rows) = F row).
  { intros F L HL H0 HF.
    destruct (family_rows_sum L F thr HL H0 HF _ Hd) as (rows & Hrows & Hfst & Hs).
    exists rows; split; [exact Hrows|]; split; [exact Hfst|].
    now rewrite Hs, Hsum, (HF _ row Hlen E). }
  assert (Hspec : forall h r, length h = 8%nat ->
            Evaluate.eval_threshold Evaluate.SCORES_BY_PATTERN h thr = Ok r ->
            Evaluate.tp r = zsum (masked mask (map snd h)) /\
            Evaluate.fp r = zsum (masked mask (map fst h)) /\
            Evaluate.fn r = zsum (map snd h) - zsum (masked mask (map snd h)) /\
            Evaluate.tn r = zsum (map fst h) - zsum (masked mask (map fst h)) /\
            Evaluate.sample_pos r = zsum (map snd h) /\
            Evaluate.sample_neg r = zsum (map fst h)).
  { intros h r Hh Er.
    destruct (eval_threshold_rates h thr Hh)
      as (r' & E' & Htp' & Hfp' & Hfn' & Htn' & Hp' & Hn' & _).
    rewrite Er in E'; injection E' as <-.
    rewrite Hfn', Htn', Htp', Hfp'; repeat split; auto. }
  destruct (Hrow Evaluate.tp (fun h => zsum (masked mask (map snd h))))
    as (rows & Hrows & Hfst & Stp).
  { intros a b Ha Hb; apply masked_col_add; [exact Asnd|congruence]. }
  { now apply masked_zeros. }
  { intros h r Hh Er; apply (Hspec h r Hh Er). }
  exists (Evaluate.counts_global st), (Evaluate.counts_by_family st),
         (Evaluate.n_pos st, Evaluate.n_neg st), row, rows.
  split; [reflexivity|].
  unfold Evaluate.eval_thresholds_from_counts; cbn [Evaluate.eval_thresholds_with].
  rewrite E; cbn [bind].
  split; [reflexivity|]; split; [exact Hrows|]; split; [exact Hfst|].
  split; [exact Stp|].
  assert (Hsame : forall (F : Evaluate.metrics_row -> Z) (L : hist -> Z),
            (forall a b, length a = 8%nat -> length b = 8%nat ->
                         L (hist_add a b) = L a + L b) ->
            L zeros_8_2 = 0 ->
            (forall h r, length h = 8%nat ->
               Evaluate.eval_threshold Evaluate.SCORES_BY_PATTERN h thr = Ok r ->
               F r = L h) ->
            zsum (map (fun fr => F (snd fr)) rows) = F row).
  { intros F L HL H0 HF.
    destruct (Hrow F L HL H0 HF) as (rows' & Hrows' & _ & Hs).
    rewrite Hrows in Hrows'; injection Hrows' as <-; exact Hs. }
  split; [|split; [|split; [|split]]].
  - apply (Hsame Evaluate.fp (fun h => zsum (masked mask (map fst h)))).
    + intros a b Ha Hb; apply masked_col_add; [exact Afst|congruence].
    + now apply masked_zeros.
    + intros h r Hh Er; apply (Hspec h r Hh Er).
  - apply (Hsame Evaluate.tn
             (fun h => zsum (map fst h) - zsum (masked mask (map fst h)))).
    + intros a b Ha Hb.
      rewrite (masked_col_add fst mask Afst), (zsum_col_add fst Afst) by congruence; lia.
    + now rewrite masked_zeros.
    + intros h r Hh Er; apply (Hspec h r Hh Er).
  - apply (Hsame Evaluate.fn
             (fun h => zsum (map snd h) - zsum (masked mask (map snd h)))).
    + intros a b Ha Hb.
      rewrite (masked_col_add snd mask Asnd), (zsum_col_add snd Asnd) by congruence; lia.
    + now rewrite masked_zeros.
    + intros h r Hh Er; apply (Hspec h r Hh Er).
  - apply (Hsame Evaluate.sample_pos (fun h => zsum (map snd h))).
    + intros a b Ha Hb; apply zsum_col_add; [exact Asnd|congruence].
    + reflexivity.
    + intros h r Hh Er; apply (Hspec h r Hh Er).
  - apply (Hsame Evaluate.sample_neg (fun h => zsum (map fst h))).
    + intros a b Ha Hb; apply zsum_col_add; [exact Afst|congruence].
    + reflexivity.
    + intros h r Hh Er; apply (Hspec h r Hh Er).
Qed.

Lemma family_rows_add_up_witness :
  exists counts d totals row rows_fam,
    Evaluate.aggregate_counts None true stream_B = Ok (counts, d, totals) /\
    Evaluate.eval_thresholds_from_counts counts [0.5%Q] = Ok [row] /\
    Evaluate.main_family_rows d [0.5%Q] = Ok rows_fam /\
    map fst rows_fam = map fst d /\
    zsum (map (fun fr => Evaluate.tp (snd fr)) rows_fam) = Evaluate.tp row /\
    zsum (map (fun fr => Evaluate.fp (snd fr)) rows_fam) = Evaluate.fp row /\
    zsum (map (fun fr => Evaluate.tn (snd fr)) rows_fam) = Evaluate.tn row /\
    zsum (map (fun fr => Evaluate.fn (snd fr)) rows_fam) = Evaluate.fn row /\
    zsum (map (fun fr => Evaluate.sample_pos (snd fr)) rows_fam) = Evaluate.sample_pos row /\
    zsum (map (fun fr => Evaluate.sample_neg (snd fr)) rows_fam) = Evaluate.sample_neg row.
Proof. apply (family_rows_add_up None stream_B 0.5%Q); reflexivity. Defined.

(** ** The weighted score of the threshold fit *)

Lemma train_weights_length (coef : list Q) :
  length (TrainWeights.weights_of_coef coef) = length coef.
Proof.
  unfold TrainWeights.weights_of_coef.
  destruct (negb (Qle_bool (qsum (clip0 coef)) 0)); now rewrite length_map, clip0_length.
Qed.

Lemma weighted_term (a w : Q) : (0 <= a <= 1)%Q -> (0 <= w)%Q -> (0 <= a * w <= w)%Q.
Proof.
  intros [Ha0 Ha1] Hw; split.
  - now apply Qmult_le_0_compat.
  - rewrite <- (Qmult_1_l w) at 2; now apply Qmult_le_compat_r.
Qed.


